(** * YouTube summarizer: output parser, timestamp codec and acquisition
      orchestrators

    Shallow embedding of
    - [youtube-summarizer/src/utils.py]   (data model, [format_timestamp]),
    - [youtube-summarizer/src/analyzer.py] ([_parse_gemini_output],
      [analyze_audio]),
    - [youtube-summarizer/main.py]        ([main]),
    - [agent_scraper.py] and [auto_scraper.py] (the standalone scripts).

    Python strings are lists of Unicode code points, the [re] module is a
    backtracking matcher with the priorities of CPython's engine, exceptions
    are an error monad, and the file system and the remote services are an
    explicit world threaded through the orchestrators. *)

From Stdlib Require Import List NArith ZArith Lia Bool String Ascii.
From Stdlib Require Import SpecFloat DecimalN.
From stdpp Require Import gmap strings.
Import ListNotations.

Set Default Proof Using "Type".

(** ** Python [str]: sequences of code points *)

Definition char := N.
Definition str := list char.

(** ASCII literals of the source, as code points. *)
Definition s_ (s : string) : str :=
  map (fun a => N_of_ascii a) (list_ascii_of_string s).

Definition NL : char := 10%N.            (* the newline *)
Definition DOT : char := 46%N.           (* the period *)
Definition MEMO : char := 0x1F4DD%N.     (* U+1F4DD, the memo emoji *)
Definition STOPWATCH : char := 0x23F1%N. (* U+23F1, the stopwatch *)
Definition VS16 : char := 0xFE0F%N.      (* U+FE0F, emoji presentation selector *)

(** [str.isspace] per character, which is also [\s] of a [str] pattern
    (Py_UNICODE_ISSPACE). *)
Definition isspace (c : char) : bool :=
  ((0x09 <=? c) && (c <=? 0x0D) || (0x1C <=? c) && (c <=? 0x20)
   || (c =? 0x85) || (c =? 0xA0) || (c =? 0x1680)
   || (0x2000 <=? c) && (c <=? 0x200A)
   || (c =? 0x2028) || (c =? 0x2029) || (c =? 0x202F) || (c =? 0x205F)
   || (c =? 0x3000))%N.

(** First code point of every run of ten decimal digits (category Nd,
    Unicode 14): [\d] of a [str] pattern is Py_UNICODE_ISDECIMAL. *)
Definition decimal_zeros : list N :=
  [0x30; 0x660; 0x6f0; 0x7c0; 0x966; 0x9e6; 0xa66; 0xae6; 0xb66; 0xbe6;
   0xc66; 0xce6; 0xd66; 0xde6; 0xe50; 0xed0; 0xf20; 0x1040; 0x1090; 0x17e0;
   0x1810; 0x1946; 0x19d0; 0x1a80; 0x1a90; 0x1b50; 0x1bb0; 0x1c40; 0x1c50;
   0xa620; 0xa8d0; 0xa900; 0xa9d0; 0xa9f0; 0xaa50; 0xabf0; 0xff10; 0x104a0;
   0x10d30; 0x11066; 0x110f0; 0x11136; 0x111d0; 0x112f0; 0x11450; 0x114d0;
   0x11650; 0x116c0; 0x11730; 0x118e0; 0x11950; 0x11c50; 0x11d50; 0x11da0;
   0x16a60; 0x16ac0; 0x16b50; 0x1d7ce; 0x1d7d8; 0x1d7e2; 0x1d7ec; 0x1d7f6;
   0x1e140; 0x1e2f0; 0x1e950; 0x1fbf0]%N.

Definition isdecimal (c : char) : bool :=
  existsb (fun z => (z <=? c) && (c <? z + 10))%N decimal_zeros.

(** Simple lower-case mapping, on the code points that lower-case to a
    character of the patterns below: the ASCII capitals, U+0130 (to [i]) and
    U+212A (to [k]).  A pattern character is only ever compared with the
    lower-cased text character, so the rest of the table is immaterial. *)
Definition tolower (c : char) : char :=
  if ((0x41 <=? c) && (c <=? 0x5A))%N then (c + 32)%N
  else if (c =? 0x130)%N then 0x69%N
  else if (c =? 0x212A)%N then 0x6B%N
  else c.

Definition iscased (c : char) : bool :=
  ((0x41 <=? c) && (c <=? 0x5A) || (0x61 <=? c) && (c <=? 0x7A))%N.

(** [sre_compile._equivalences], the rows that hold an ASCII letter:
    dotless i with [i], long s with [s]. *)
Definition fixes (lo : char) : list char :=
  if (lo =? 0x69)%N then [0x131%N]
  else if (lo =? 0x73)%N then [0x17F%N]
  else [].

(** [str.lstrip], [str.rstrip], [str.strip] without argument. *)
Fixpoint lstrip (s : str) : str :=
  match s with
  | c :: s' => if isspace c then lstrip s' else s
  | [] => []
  end.

Definition rstrip (s : str) : str := rev (lstrip (rev s)).
Definition strip (s : str) : str := rstrip (lstrip s).

(** [s.split(sep)] for a one-character separator: never the empty list. *)
Fixpoint split (sep : char) (s : str) : list str :=
  match s with
  | [] => [[]]
  | c :: s' =>
      if (c =? sep)%N then [] :: split sep s'
      else match split sep s' with
           | l :: ls => (c :: l) :: ls
           | [] => [[c]]
           end
  end.

(** [s.startswith(p)] *)
Fixpoint startswith (p s : str) : bool :=
  match p, s with
  | [], _ => true
  | a :: p', b :: s' => (a =? b)%N && startswith p' s'
  | _ :: _, [] => false
  end.

(** [needle in hay] *)
Fixpoint contains (needle hay : str) : bool :=
  startswith needle hay ||
  match hay with
  | [] => false
  | _ :: hay' => contains needle hay'
  end.

(** [s.split(sep)] for a separator of several characters; [skip] counts the
    characters of a separator just found that are still to be passed. *)
Fixpoint split_str (sep : str) (skip : nat) (s : str) : list str :=
  match s with
  | [] => [[]]
  | c :: s' =>
      match skip with
      | S k => split_str sep k s'
      | O =>
          if startswith sep s then [] :: split_str sep (length sep - 1) s'
          else match split_str sep 0 s' with
               | l :: ls => (c :: l) :: ls
               | [] => [[c]]
               end
      end
  end.

(** [sep.join(parts)] *)
Fixpoint join (sep : str) (parts : list str) : str :=
  match parts with
  | [] => []
  | [x] => x
  | x :: rest => x ++ sep ++ join sep rest
  end.

(** [s.replace(old, new)], [old] not empty. *)
Definition replace (old new s : str) : str := join new (split_str old 0 s).

(** ** Exceptions *)

Inductive exn :=
  | IndexError
  | AttributeError   (* a method called on [None] *)
  | ValueError
  | OverflowError
  | TypeError
  | OSError
  | ServiceError     (* any exception of an external collaborator *)
  | UnicodeEncodeError   (* a text the output stream cannot encode *)
  | TranscriptsDisabled  (* the two exceptions of the transcript library *)
  | NoTranscriptFound.   (* that [auto_scraper.py] names *)

Inductive result (A : Type) :=
  | Ok (a : A)
  | Raise (e : exn).
Arguments Ok {A} a.
Arguments Raise {A} e.

#[global] Instance result_ret : MRet result := fun A a => Ok a.

#[global] Instance result_bind : MBind result := fun A B f r =>
  match r with
  | Ok a => f a
  | Raise e => Raise e
  end.

(** ** The [re] module: a backtracking matcher *)

Module Re.

(** One-character items of the patterns. *)
Inductive atom :=
  | AChar (c : char)   (* a literal character *)
  | ADot               (* [.] *)
  | ASpace             (* [\s] *)
  | ADigit.            (* [\d] *)

(** The pattern syntax the source uses.  Repetition is only ever applied
    to one-character items. *)
Inductive regex :=
  | Eps
  | Atom (a : atom)
  | Star (a : atom)                (* [a*], greedy *)
  | StarLazy (a : atom)            (* [a*?] *)
  | Rep (n : nat) (a : atom)       (* [a{n}] *)
  | Opt (r : regex)                (* [(?:r)?], greedy *)
  | Seq (r1 r2 : regex)
  | Alt (r1 r2 : regex)            (* [r1|r2] *)
  | Group (i : nat) (r : regex)    (* the [i]-th capturing group *)
  | Ahead (r : regex)              (* [(?=r)] *)
  | NotAhead (r : regex)           (* [(?!r)] *)
  | Bol                            (* [^] without MULTILINE *)
  | EndZ.                          (* [\Z] *)

Record flags := { IGNORECASE : bool; DOTALL : bool }.

Definition no_flags := {| IGNORECASE := false; DOTALL := false |}.
Definition flag_I := {| IGNORECASE := true; DOTALL := false |}.
Definition flag_SI := {| IGNORECASE := true; DOTALL := true |}.

(** A literal under IGNORECASE: an uncased pattern character is compared
    as it is; a cased one is compiled to its lower case and its
    equivalents, and the text character is lower-cased before the test. *)
Definition char_ieq (p c : char) : bool :=
  if iscased p then
    let lo := tolower p in
    let lc := tolower c in
    (lc =? lo)%N || existsb (N.eqb lc) (fixes lo)
  else (c =? p)%N.

Definition atom_ok (fl : flags) (a : atom) (c : char) : bool :=
  match a with
  | AChar p => if IGNORECASE fl then char_ieq p c else (c =? p)%N
  | ADot => DOTALL fl || negb (c =? NL)%N
  | ASpace => isspace c
  | ADigit => isdecimal c
  end.

(** Captured groups, most recent first. *)
Definition groups := list (nat * str).

Fixpoint lookup_group (i : nat) (g : groups) : option str :=
  match g with
  | [] => None
  | (j, s) :: g' => if (i =? j)%nat then Some s else lookup_group i g'
  end.

Section Matcher.
Context {A : Type}.

(** [p*]: the longest run first, giving characters back one at a time. *)
Fixpoint star_greedy (p : char -> bool) (pos : nat) (s : str)
    (k : nat -> str -> option A) : option A :=
  match s with
  | c :: s' =>
      if p c then
        match star_greedy p (S pos) s' k with
        | Some x => Some x
        | None => k pos s
        end
      else k pos s
  | [] => k pos s
  end.

(** [p*?]: the shortest run first. *)
Fixpoint star_lazy (p : char -> bool) (pos : nat) (s : str)
    (k : nat -> str -> option A) : option A :=
  match k pos s with
  | Some x => Some x
  | None =>
      match s with
      | c :: s' => if p c then star_lazy p (S pos) s' k else None
      | [] => None
      end
  end.

(** [p{n}] *)
Fixpoint rep (n : nat) (p : char -> bool) (pos : nat) (s : str)
    (k : nat -> str -> option A) : option A :=
  match n with
  | O => k pos s
  | S n' =>
      match s with
      | c :: s' => if p c then rep n' p (S pos) s' k else None
      | [] => None
      end
  end.
End Matcher.

(** [run fl r pos s g k]: match [r] against the text [s] that starts at
    offset [pos] of the subject, then continue with [k]; the first success
    in the engine's order of preference wins. *)
Fixpoint run {A : Type} (fl : flags) (r : regex) (pos : nat) (s : str)
    (g : groups) (k : nat -> str -> groups -> option A) {struct r} : option A :=
  match r with
  | Eps => k pos s g
  | Atom a =>
      match s with
      | c :: s' => if atom_ok fl a c then k (S pos) s' g else None
      | [] => None
      end
  | Star a => star_greedy (atom_ok fl a) pos s (fun pos' s' => k pos' s' g)
  | StarLazy a => star_lazy (atom_ok fl a) pos s (fun pos' s' => k pos' s' g)
  | Rep n a => rep n (atom_ok fl a) pos s (fun pos' s' => k pos' s' g)
  | Opt r1 =>
      match run fl r1 pos s g k with
      | Some x => Some x
      | None => k pos s g
      end
  | Seq r1 r2 =>
      run fl r1 pos s g (fun pos' s' g' => run fl r2 pos' s' g' k)
  | Alt r1 r2 =>
      match run fl r1 pos s g k with
      | Some x => Some x
      | None => run fl r2 pos s g k
      end
  | Group i r1 =>
      run fl r1 pos s g
        (fun pos' s' g' => k pos' s' ((i, firstn (pos' - pos) s) :: g'))
  | Ahead r1 =>
      match run fl r1 pos s g (fun _ _ g' => Some g') with
      | Some g' => k pos s g'
      | None => None
      end
  | NotAhead r1 =>
      match run fl r1 pos s g (fun _ _ _ => Some tt) with
      | Some _ => None
      | None => k pos s g
      end
  | Bol => if (pos =? 0)%nat then k pos s g else None
  | EndZ =>
      match s with
      | [] => k pos s g
      | _ :: _ => None
      end
  end.

(** A match object: its span and its groups. *)
Record rmatch := { m_start : nat; m_end : nat; m_groups : groups }.

Definition match_at (fl : flags) (r : regex) (pos : nat) (s : str)
  : option rmatch :=
  run fl r pos s []
    (fun pos' _ g => Some {| m_start := pos; m_end := pos'; m_groups := g |}).

(** [re.match(r, s, flags)] *)
Definition rematch (r : regex) (s : str) (fl : flags) : option rmatch :=
  match_at fl r 0 s.

(** [re.search(r, s, flags)]: the leftmost start that matches. *)
Fixpoint search_from (fl : flags) (r : regex) (pos : nat) (s : str)
  : option rmatch :=
  match match_at fl r pos s with
  | Some m => Some m
  | None =>
      match s with
      | [] => None
      | _ :: s' => search_from fl r (S pos) s'
      end
  end.

Definition search (r : regex) (s : str) (fl : flags) : option rmatch :=
  search_from fl r 0 s.

(** [m.group(i)]: [None] when the group took no part in the match. *)
Definition group (m : rmatch) (i : nat) : option str :=
  lookup_group i (m_groups m).

(** A run of literal characters. *)
Definition lit (s : str) : regex :=
  fold_right (fun c r => Seq (Atom (AChar c)) r) Eps s.

(** Sequencing of several items. *)
Definition seq (rs : list regex) : regex := fold_right Seq Eps rs.

(** [re.fullmatch], used to state shapes of strings. *)
Definition fullmatch (r : regex) (s : str) (fl : flags) : bool :=
  match run fl r 0 s []
          (fun _ s' _ => match s' with [] => Some tt | _ => None end) with
  | Some _ => true
  | None => false
  end.

End Re.

(** ** Data model ([utils.py]; the same classes open [agent_scraper.py]) *)

Record KeyTopic := { timestamp : str; topic : str }.

Record VideoAnalysis := {
  title : str;
  executive_summary : str;
  key_topics : list KeyTopic
}.

(** [start] is a Python float. *)
Record TranscriptSegment := { start : spec_float; text : str }.

(** ** The output parser *)

Module Parser.
Import Re.

(** The title pattern: [##\s*Title:\s*] and then group 1, [.*] *)
Definition title_re : regex :=
  seq [lit (s_ "##"); Star ASpace; lit (s_ "Title:"); Star ASpace;
       Group 1 (Star ADot)].

(** [<memo> Executive Summary\n] *)
Definition SUMMARY_HEAD : str := [MEMO] ++ s_ " Executive Summary" ++ [NL].

(** [<stopwatch> Key Topics & Timestamps]; the stopwatch of the source is
    U+23F1 followed by U+FE0F. *)
Definition TOPICS_HEAD : str :=
  [STOPWATCH; VS16] ++ s_ " Key Topics & Timestamps".

(** The summary pattern: [##\s*<memo> Executive Summary\n], group 1 [.*?],
    and the look-ahead for [\n\n##\s*<stopwatch> Key Topics & Timestamps]
    or [\Z] *)
Definition summary_re : regex :=
  seq [lit (s_ "##"); Star ASpace; lit SUMMARY_HEAD;
       Group 1 (StarLazy ADot);
       Ahead (Alt (seq [lit [NL; NL]; lit (s_ "##"); Star ASpace;
                        lit TOPICS_HEAD])
                  EndZ)].

(** The section pattern: [##\s*<stopwatch> Key Topics & Timestamps\n] and
    group 1 [.*] *)
Definition topics_re : regex :=
  seq [lit (s_ "##"); Star ASpace; lit TOPICS_HEAD; lit [NL];
       Group 1 (Star ADot)].

(** The bullet pattern: [^- \*\*\[], group 1 [\d{2}:\d{2}(?:\:\d{2})?],
    [\]\*\*\s*] and group 2 [.*]; the script writes the optional part
    [(?::\d{2})?], which is the same pattern. *)
Definition bullet_re : regex :=
  seq [Bol; lit (s_ "- **[");
       Group 1 (seq [Rep 2 ADigit; lit (s_ ":"); Rep 2 ADigit;
                     Opt (seq [lit (s_ ":"); Rep 2 ADigit])]);
       lit (s_ "]**"); Star ASpace; Group 2 (Star ADot)].

(** The first-line pattern: [^(?!##)] and group 1 [.*] *)
Definition first_line_re : regex :=
  seq [Bol; NotAhead (lit (s_ "##")); Group 1 (Star ADot)].

(** [m.group(i).strip()]: the method call on [None] raises. *)
Definition group_strip (m : rmatch) (i : nat) : result str :=
  match group m i with
  | Some s => Ok (strip s)
  | None => Raise AttributeError
  end.

(** [m.group(i)] where a [str] is required by the record built from it. *)
Definition group_str (m : rmatch) (i : nat) : result str :=
  match group m i with
  | Some s => Ok s
  | None => Raise ValueError
  end.

(** [l[0]] *)
Definition item0 {A} (l : list A) : result A :=
  match l with
  | x :: _ => Ok x
  | [] => Raise IndexError
  end.

(** Body of the loop over the lines of the key-topics text. *)
Definition key_topic_step (key_topics : list KeyTopic) (line : str)
  : result (list KeyTopic) :=
  let line := strip line in
  match rematch bullet_re line no_flags with
  | Some key_topic_match =>
      timestamp ← group_str key_topic_match 1;
      topic ← group_strip key_topic_match 2;
      mret (key_topics ++ [{| timestamp := timestamp; topic := topic |}])
  | None => mret key_topics
  end.

Fixpoint key_topic_loop (key_topics : list KeyTopic) (lines : list str)
  : result (list KeyTopic) :=
  match lines with
  | [] => mret key_topics
  | line :: lines' =>
      key_topics' ← key_topic_step key_topics line;
      key_topic_loop key_topics' lines'
  end.

(** The three extractions both parsers start with. *)
Definition extract_title (gemini_output : str) : result str :=
  match search title_re gemini_output flag_I with
  | Some title_match => group_strip title_match 1
  | None => mret []
  end.

Definition extract_summary (gemini_output : str) : result str :=
  match search summary_re gemini_output flag_SI with
  | Some executive_summary_match => group_strip executive_summary_match 1
  | None => mret []
  end.

Definition extract_key_topics (gemini_output : str) : result (list KeyTopic) :=
  match search topics_re gemini_output flag_SI with
  | Some key_topics_section_match =>
      key_topics_text ← group_str key_topics_section_match 1;
      key_topic_loop [] (split NL key_topics_text)
  | None => mret []
  end.

(** [if not title:] the first line, when it does not start with [##]. *)
Definition title_from_first_line (title gemini_output : str) : result str :=
  match title with
  | [] =>
      first_line ← item0 (split NL gemini_output);
      match rematch first_line_re first_line no_flags with
      | Some first_line_match => group_strip first_line_match 1
      | None => mret title
      end
  | _ :: _ => mret title
  end.

Definition ELLIPSIS : str := s_ "...".

(** [if not title and executive_summary:] the first sentence. *)
Definition title_from_first_sentence (title executive_summary : str)
  : result str :=
  match title, executive_summary with
  | [], _ :: _ =>
      first_sentence ← item0 (split DOT executive_summary);
      let first_sentence_summary := strip first_sentence in
      match first_sentence_summary with
      | _ :: _ =>
          let title := first_sentence_summary in
          if (100 <? length title)%nat
          then mret (firstn 97 title ++ ELLIPSIS)
          else mret title
      | [] => mret title
      end
  | _, _ => mret title
  end.

(** [if not title and executive_summary:] the summary itself
    ([analyzer.py] only). *)
Definition title_from_summary (title executive_summary : str) : str :=
  match title, executive_summary with
  | [], _ :: _ =>
      if (100 <? length executive_summary)%nat
      then firstn 100 executive_summary ++ ELLIPSIS
      else executive_summary
  | _, _ => title
  end.

(** [GeminiAnalyzer._parse_gemini_output] of [analyzer.py]. *)
Definition _parse_gemini_output (gemini_output : str) : result VideoAnalysis :=
  title ← extract_title gemini_output;
  executive_summary ← extract_summary gemini_output;
  key_topics ← extract_key_topics gemini_output;
  title ← title_from_first_line title gemini_output;
  title ← title_from_first_sentence title executive_summary;
  let title := title_from_summary title executive_summary in
  mret {| title := title; executive_summary := executive_summary;
          key_topics := key_topics |}.

(** [parse_gemini_output] of [agent_scraper.py]: the same, without the
    last fallback. *)
Definition parse_gemini_output (gemini_output : str) : result VideoAnalysis :=
  title ← extract_title gemini_output;
  executive_summary ← extract_summary gemini_output;
  key_topics ← extract_key_topics gemini_output;
  title ← title_from_first_line title gemini_output;
  title ← title_from_first_sentence title executive_summary;
  mret {| title := title; executive_summary := executive_summary;
          key_topics := key_topics |}.

End Parser.

(** ** The timestamp codec ([format_timestamp], identical in [utils.py],
      [agent_scraper.py] and [auto_scraper.py]) *)

Module Timestamp.

(** [int(x)] of a float: the value truncated toward zero; infinities and
    NaN have no integer value. *)
Definition py_int (x : spec_float) : result Z :=
  match x with
  | S754_zero _ => Ok 0%Z
  | S754_infinity _ => Raise OverflowError
  | S754_nan => Raise ValueError
  | S754_finite sign m e =>
      let magnitude :=
        if (0 <=? e)%Z then (Z.pos m * 2 ^ e)%Z
        else (Z.pos m / 2 ^ (- e))%Z in
      Ok (if sign then (- magnitude)%Z else magnitude)
  end.

(** [divmod(a, b)]: floor division and the remainder with the sign of [b]. *)
Definition divmod (a b : Z) : Z * Z := ((a / b)%Z, (a mod b)%Z).

Definition digit_char (d : N) : char := (48 + d)%N.

(** The decimal digits of a number, most significant first. *)
Fixpoint uint_chars (d : Decimal.uint) : str :=
  match d with
  | Decimal.Nil => []
  | Decimal.D0 d' => digit_char 0 :: uint_chars d'
  | Decimal.D1 d' => digit_char 1 :: uint_chars d'
  | Decimal.D2 d' => digit_char 2 :: uint_chars d'
  | Decimal.D3 d' => digit_char 3 :: uint_chars d'
  | Decimal.D4 d' => digit_char 4 :: uint_chars d'
  | Decimal.D5 d' => digit_char 5 :: uint_chars d'
  | Decimal.D6 d' => digit_char 6 :: uint_chars d'
  | Decimal.D7 d' => digit_char 7 :: uint_chars d'
  | Decimal.D8 d' => digit_char 8 :: uint_chars d'
  | Decimal.D9 d' => digit_char 9 :: uint_chars d'
  end.

Definition zero_pad (width : nat) (digits : str) : str :=
  repeat (digit_char 0) (width - length digits) ++ digits.

(** The format [{z:02d}]: zeros up to a width of two, the sign of a negative
    number counting in the width. *)
Definition fmt_02d (z : Z) : str :=
  let digits := uint_chars (N.to_uint (Z.abs_N z)) in
  if (z <? 0)%Z then 45%N :: zero_pad 1 digits else zero_pad 2 digits.

Definition COLON : char := 58%N.

(** The function after its first line, on the integer number of seconds. *)
Definition format_seconds (seconds : Z) : str :=
  let '(m, s) := divmod seconds 60 in
  let '(h, m) := divmod m 60 in
  if (0 <? h)%Z
  then fmt_02d h ++ [COLON] ++ fmt_02d m ++ [COLON] ++ fmt_02d s
  else fmt_02d m ++ [COLON] ++ fmt_02d s.

Definition format_timestamp (seconds : spec_float) : result str :=
  seconds ← py_int seconds;
  mret (format_seconds seconds).

End Timestamp.

(** ** The world of a run: file system, remote services, exceptions *)

Module World.

(** State of a file uploaded to the model service. *)
Inductive file_state := PROCESSING | ACTIVE | FAILED.

Definition file_state_eqb (a b : file_state) : bool :=
  match a, b with
  | PROCESSING, PROCESSING | ACTIVE, ACTIVE | FAILED, FAILED => true
  | _, _ => false
  end.

(** The calls made to the collaborators. *)
Inductive event :=
  | FetchTranscript (video_id : str)
  | GenerateContent (prompt : str)
  | TempFile (path : string)
  | DownloadAudio (url : str) (output : string)
  | UploadFile (path : string)
  | Sleep (seconds : nat)
  | GetFile
  | GenerateContentAudio (prompt : str) (st : file_state)
  | DeleteFile
  | ReadFile (path : string)
  | Remove (path : string)
  | WriteOutput (analysis : VideoAnalysis)
  | Stdout (text : str).

(** How the collaborators answer during one run. *)
Record env := {
  fetch_transcript : str -> result (list TranscriptSegment);
  generate_content : str -> result str;
  temp_name : result string;
  download : str -> string -> result bool;
  upload_file : string -> result file_state;
  get_file : nat -> result file_state;
  generate_content_audio : str -> file_state -> result str;
  delete_file : result unit;
  read_file : string -> result str
}.

(** The files that exist, the calls made so far, the number of [get_file]
    calls, and the two locals that a [finally] block reads. *)
Record world := {
  files : gset string;
  trace : list event;
  polls : nat;
  audio_file : option file_state;
  audio_file_path : option string
}.

Definition init (fs : gset string) : world :=
  {| files := fs; trace := []; polls := 0; audio_file := None;
     audio_file_path := None |}.

(** A computation: [None] when the fuel of a loop runs out. *)
Definition M (A : Type) : Type := world -> option (result A * world).

#[global] Instance M_ret : MRet M := fun A a w => Some (Ok a, w).

#[global] Instance M_bind : MBind M := fun A B f m w =>
  match m w with
  | Some (Ok a, w') => f a w'
  | Some (Raise e, w') => Some (Raise e, w')
  | None => None
  end.

Definition lift {A} (r : result A) : M A := fun w => Some (r, w).

Definition raise {A} (e : exn) : M A := lift (Raise e).

Definition emit (ev : event) : M unit := fun w =>
  Some (Ok tt, {| files := files w; trace := trace w ++ [ev];
                  polls := polls w; audio_file := audio_file w;
                  audio_file_path := audio_file_path w |}).

(** A call to a collaborator that answers [r]. *)
Definition call {A} (ev : event) (r : result A) : M A :=
  _ ← emit ev; lift r.

(** [try: m except Exception as e: h e] *)
Definition try_except {A} (m : M A) (h : exn -> M A) : M A := fun w =>
  match m w with
  | Some (Raise e, w') => h e w'
  | other => other
  end.

(** [try: m finally: c] *)
Definition finally {A} (m : M A) (c : M unit) : M A := fun w =>
  match m w with
  | Some (r, w') =>
      match c w' with
      | Some (Ok _, w'') => Some (r, w'')
      | Some (Raise e, w'') => Some (Raise e, w'')
      | None => None
      end
  | None => None
  end.

Definition set_audio_file (st : file_state) : M unit := fun w =>
  Some (Ok tt, {| files := files w; trace := trace w; polls := polls w;
                  audio_file := Some st;
                  audio_file_path := audio_file_path w |}).

Definition set_audio_file_path (path : string) : M unit := fun w =>
  Some (Ok tt, {| files := files w; trace := trace w; polls := polls w;
                  audio_file := audio_file w;
                  audio_file_path := Some path |}).

(** Entry of a function whose local [audio_file] is not bound yet. *)
Definition unbind_audio_file : M unit := fun w =>
  Some (Ok tt, {| files := files w; trace := trace w; polls := polls w;
                  audio_file := None;
                  audio_file_path := audio_file_path w |}).

Definition get_audio_file : M (option file_state) := fun w =>
  Some (Ok (audio_file w), w).

Definition get_audio_file_path : M (option string) := fun w =>
  Some (Ok (audio_file_path w), w).

(** [os.path.exists(path)] *)
Definition path_exists (path : string) : M bool := fun w =>
  Some (Ok (bool_decide (path ∈ files w)), w).

Definition create_file (path : string) : M unit := fun w =>
  Some (Ok tt, {| files := {[path]} ∪ files w; trace := trace w;
                  polls := polls w; audio_file := audio_file w;
                  audio_file_path := audio_file_path w |}).

(** [os.remove(path)] *)
Definition os_remove (path : string) : M unit := fun w =>
  if bool_decide (path ∈ files w) then
    Some (Ok tt, {| files := files w ∖ {[path]};
                    trace := trace w ++ [Remove path]; polls := polls w;
                    audio_file := audio_file w;
                    audio_file_path := audio_file_path w |})
  else Some (Raise OSError, w).

(** [genai.upload_file(path=...)], assigned to [audio_file]. *)
Definition upload (e : env) (path : string) : M unit :=
  st ← call (UploadFile path) (upload_file e path);
  set_audio_file st.

(** [audio_file = genai.get_file(audio_file.name)] *)
Definition refresh (e : env) : M unit := fun w =>
  (st ← call GetFile (get_file e (polls w));
   set_audio_file st)
    {| files := files w; trace := trace w; polls := S (polls w);
       audio_file := audio_file w; audio_file_path := audio_file_path w |}.

(** [while audio_file.state.name == "PROCESSING": body] *)
Fixpoint while_processing (fuel : nat) (body : M unit) : M unit := fun w =>
  match audio_file w with
  | Some PROCESSING =>
      match fuel with
      | O => None
      | S fuel' => (_ ← body; while_processing fuel' body) w
      end
  | _ => Some (Ok tt, w)
  end.

(** [yt_dlp.YoutubeDL(...).download([url])] writing [output]. *)
Definition ydl_download (e : env) (url : str) (output : string) : M bool :=
  written ← call (DownloadAudio url output) (download e url output);
  if written : bool then _ ← create_file output; mret true else mret false.

End World.

(** ** The analyzer class ([analyzer.py]) *)

Module Prompt.
Import Timestamp.

(** The loop that renders the transcript: one line [[time] text] per
    segment. *)
Fixpoint render_transcript (segments : list TranscriptSegment)
    (full_text : str) : result str :=
  match segments with
  | [] => mret full_text
  | segment :: rest =>
      time_str ← format_timestamp (start segment);
      render_transcript rest
        (full_text ++ s_ "[" ++ time_str ++ s_ "] " ++ text segment ++ [NL])
  end.

(** The format block both prompts share. *)
Definition FORMAT : str :=
  s_ "Output MUST be in the following format:" ++ [NL] ++
  s_ "## Title: [A generated title for the summary]" ++ [NL] ++
  s_ "## " ++ [MEMO] ++ s_ " Executive Summary" ++ [NL] ++
  s_ "[A concise paragraph summarizing the video's main value proposition]"
  ++ [NL; NL] ++
  s_ "## " ++ [STOPWATCH; VS16] ++ s_ " Key Topics & Timestamps" ++ [NL].

(** The prompt of the transcript analysis; [about] is the sentence that
    differs between [analyzer.py] and [agent_scraper.py]. *)
Definition transcript_prompt (about full_text : str) : str :=
  s_ "You are an expert video analyst. I will provide a transcript with timestamps. "
  ++ s_ "Your task is to create a structured summary. "
  ++ about ++ firstn 500 full_text ++ s_ "..."
  ++ FORMAT
  ++ s_ "(A bulleted list of key moments and their exact timestamps found in the text)"
  ++ s_ "- **[MM:SS]** Topic Description" ++ [NL]
  ++ s_ "- **[HH:MM:SS]** Another Topic Description" ++ [NL; NL]
  ++ s_ "TRANSCRIPT DATA:" ++ [NL] ++ full_text.

Definition audio_prompt : str :=
  s_ "Listen to this audio clip from a YouTube video. "
  ++ s_ "Create a structured summary with estimated timestamps. "
  ++ FORMAT
  ++ s_ "(A bulleted list of key moments and their approximate timestamps)"
  ++ s_ "- **[MM:SS]** Topic Description" ++ [NL]
  ++ s_ "- **[HH:MM:SS]** Another Topic Description".

End Prompt.

Module Analyzer.
Import Parser World Prompt.

(** [GeminiAnalyzer.analyze_transcript_data] *)
Definition analyze_transcript_data (e : env)
    (transcript_segments : list TranscriptSegment) : M VideoAnalysis :=
  full_text ← lift (render_transcript transcript_segments []);
  let prompt :=
    transcript_prompt (s_ "The video content begins with: ") full_text in
  try_except
    (response ← call (GenerateContent prompt) (generate_content e prompt);
     lift (_parse_gemini_output response))
    (fun ex => raise ex).

(** The local [audio_file] once it is bound. *)
Definition audio_file_state : M file_state :=
  af ← get_audio_file;
  match af with
  | Some st => mret st
  | None => raise AttributeError
  end.

(** [GeminiAnalyzer.analyze_audio]; the world's [audio_file] is the local
    of that name, unbound on entry. *)
Definition analyze_audio (e : env) (audio_path : string) (fuel : nat)
  : M VideoAnalysis :=
  _ ← unbind_audio_file;
  finally
    (try_except
       (_ ← upload e audio_path;
        _ ← while_processing fuel (_ ← emit (Sleep 5); refresh e);
        st ← audio_file_state;
        response ← call (GenerateContentAudio audio_prompt st)
                        (generate_content_audio e audio_prompt st);
        lift (_parse_gemini_output response))
       (fun ex => raise ex))
    (af ← get_audio_file;
     match af with
     | Some st =>
         if negb (file_state_eqb st FAILED)
         then call DeleteFile (delete_file e)
         else mret tt
     | None => mret tt
     end).

End Analyzer.

(** ** The scripts' shared helpers ([agent_scraper.py], [auto_scraper.py]) *)

Module Script.
Import World.

(** [l[1]] and [l[-1]] *)
Definition item1 {A} (l : list A) : result A :=
  match l with
  | _ :: x :: _ => Ok x
  | _ => Raise IndexError
  end.

Definition item_last {A} (l : list A) : result A :=
  match rev l with
  | x :: _ => Ok x
  | [] => Raise IndexError
  end.

(** [get_video_id]: [None] of Python is [None] here. *)
Definition get_video_id (url : str) : result (option str) :=
  if contains (s_ "youtu.be") url then
    tail ← item_last (split_str (s_ "/") 0 url);
    id ← Parser.item0 (split_str (s_ "?") 0 tail);
    mret (Some id)
  else if contains (s_ "v=") url then
    tail ← item1 (split_str (s_ "v=") 0 url);
    id ← Parser.item0 (split_str (s_ "&") 0 tail);
    mret (Some id)
  else mret None.

(** [download_audio(url)] with its default [output_filename]. *)
Definition download_audio (e : env) (url : str) : M (option string) :=
  let output_filename := "audio.mp3"%string in
  try_except
    (_ ← ydl_download e url output_filename;
     mret (Some output_filename))
    (fun _ => mret None).

(** [audio_file and os.path.exists(audio_file)] *)
Definition downloaded (audio_file : option string) : M bool :=
  match audio_file with
  | Some path => if String.eqb path "" then mret false else path_exists path
  | None => mret false
  end.

End Script.

(** ** [agent_scraper.py] *)

Module AgentScraper.
Import Parser World Prompt Script.

Definition analyze_transcript_data (e : env)
    (transcript_object : list TranscriptSegment) : M VideoAnalysis :=
  full_text ← lift (render_transcript transcript_object []);
  let prompt := transcript_prompt (s_ "The video is about: ") full_text in
  response ← call (GenerateContent prompt) (generate_content e prompt);
  lift (parse_gemini_output response).

(** The body of the polling loop starts with [logger.info('.', end='',
    flush=True)]: the logger, enabled at level INFO by [basicConfig],
    passes the keywords on to [Logger._log], which has no [end] or [flush]
    parameter, so the call raises [TypeError]. *)
Definition log_dot : M unit := raise TypeError.

Definition analyze_audio (e : env) (audio_path : string) (fuel : nat)
  : M VideoAnalysis :=
  _ ← unbind_audio_file;
  _ ← upload e audio_path;
  _ ← while_processing fuel
        (_ ← log_dot; _ ← emit (Sleep 1); refresh e);
  st ← Analyzer.audio_file_state;
  response ← call (GenerateContentAudio audio_prompt st)
                  (generate_content_audio e audio_prompt st);
  lift (parse_gemini_output response).

Definition run_agent (e : env) (youtube_url : str) (fuel : nat)
  : M (option VideoAnalysis) :=
  video_id ← lift (get_video_id youtube_url);
  match video_id with
  | None | Some [] => mret None
  | Some video_id =>
      (* Plan A *)
      plan_a ← try_except
        (transcript_data ← call (FetchTranscript video_id)
                                (fetch_transcript e video_id);
         analysis ← analyze_transcript_data e transcript_data;
         mret (Some analysis))
        (fun _ => mret None);
      match plan_a with
      | Some analysis => mret (Some analysis)
      | None =>
          (* Plan B *)
          try_except
            (audio_file ← download_audio e youtube_url;
             present ← downloaded audio_file;
             match audio_file, present with
             | Some path, true =>
                 analysis ← analyze_audio e path fuel;
                 _ ← os_remove path;
                 mret (Some analysis)
             | _, _ => mret None
             end)
            (fun _ => mret None)
      end
  end.

End AgentScraper.

(** ** [auto_scraper.py] *)

Module AutoScraper.
Import World Prompt Script.

Definition analyze_transcript_data (e : env)
    (transcript_list : list TranscriptSegment) : M str :=
  full_text ← lift (render_transcript transcript_list []);
  let path := "youtube/summarization/script_prompt.md"%string in
  prompt ← call (ReadFile path) (read_file e path);
  let prompt := replace (s_ "{{TRANSCRIPT}}") full_text prompt in
  call (GenerateContent prompt) (generate_content e prompt).

Definition analyze_audio (e : env) (audio_path : string) (fuel : nat)
  : M str :=
  _ ← unbind_audio_file;
  _ ← upload e audio_path;
  _ ← while_processing fuel (_ ← emit (Sleep 2); refresh e);
  st ← Analyzer.audio_file_state;
  if file_state_eqb st FAILED then raise ValueError
  else
    let path := "youtube/summarization/repo_prompt.md"%string in
    prompt ← call (ReadFile path) (read_file e path);
    response ← call (GenerateContentAudio prompt st)
                    (generate_content_audio e prompt st);
    _ ← call DeleteFile (delete_file e);
    mret response.

Definition run_agent (e : env) (youtube_url : str) (fuel : nat) : M unit :=
  video_id ← lift (get_video_id youtube_url);
  match video_id with
  | None | Some [] => mret tt
  | Some video_id =>
      (* Plan A *)
      plan_a ← try_except
        (transcript_list ← call (FetchTranscript video_id)
                                (fetch_transcript e video_id);
         summary ← analyze_transcript_data e transcript_list;
         _ ← emit (Stdout summary);
         mret true)
        (fun _ => mret false);
      if plan_a : bool then mret tt
      else
        (* Plan B *)
        try_except
          (audio_file ← download_audio e youtube_url;
           present ← downloaded audio_file;
           match audio_file, present with
           | Some path, true =>
               finally
                 (summary ← analyze_audio e path fuel;
                  emit (Stdout summary))
                 (os_remove path)
           | _, _ => mret tt
           end)
          (fun _ => mret tt)
  end.

End AutoScraper.

(** ** [auto_scraper.py], with its messages

    The script reports its progress with [print], and [print] raises when
    [sys.stdout] does not take the text: [UnicodeEncodeError] for a
    character outside the encoding of the stream, [OSError] or
    [ValueError] for a stream that is closed.  The module above leaves the
    messages out, but for the summaries shown.  This module has the four
    functions again with every [print] in its place.  The trace stays the
    list of the calls to the collaborators and of the summaries shown. *)

Module AutoScraperPrints.
Import World Prompt Script.

Definition CROSS : char := 0x274C%N.        (* U+274C, the cross mark *)
Definition CHECK_MARK : char := 0x2705%N.   (* U+2705, the check mark *)
Definition BRAIN : char := 0x1F9E0%N.       (* U+1F9E0 *)
Definition OUTBOX : char := 0x1F4E4%N.      (* U+1F4E4 *)
Definition ROCKET : char := 0x1F680%N.      (* U+1F680 *)
Definition BROOM : char := 0x1F9F9%N.       (* U+1F9F9 *)
Definition CYCLE : char := 0x1F504%N.       (* U+1F504, the two arrows *)
Definition DOWN : str := [0x2B07%N; VS16].  (* the arrow down *)
Definition CLOUD : str := [0x2601%N; VS16].
Definition PLAY : str := [0x25B6%N; VS16].
Definition INFO : str := [0x2139%N; VS16].
Definition WARNING : str := [0x26A0%N; VS16].

(** ["="*50] *)
Definition BAR : str := repeat 61%N 50.

(** [str(n)] of a length. *)
Definition str_nat (n : nat) : str := Timestamp.uint_chars (Nat.to_uint n).

(** [isinstance(e, (TranscriptsDisabled, NoTranscriptFound))] *)
Definition no_transcript (ex : exn) : bool :=
  match ex with
  | TranscriptsDisabled | NoTranscriptFound => true
  | _ => false
  end.

Section Stdout.

(** How [print(text)] ends on the standard output of the run. *)
Variable stdout : str -> result unit.
(** [str(e)] of an exception, as the f-strings of the handlers format it. *)
Variable str_exn : exn -> str.
(** [audio_file.name], the name the service gave to the upload. *)
Variable remote_name : str.
Variable e : env.

Definition print (text : str) : M unit := lift (stdout text).

(** The three prints around a summary. *)
Definition print_summary (summary : str) : M unit :=
  _ ← print (NL :: BAR);
  _ ← print summary;
  _ ← emit (Stdout summary);
  print BAR.

Definition download_audio (url : str) : M (option string) :=
  let output_filename := "audio.mp3"%string in
  _ ← print (DOWN ++ s_ "  Plan B: Downloading audio for " ++ url
             ++ s_ "...");
  try_except
    (_ ← ydl_download e url output_filename;
     _ ← print (CHECK_MARK
                :: s_ " Audio downloaded successfully.                         ");
     mret (Some output_filename))
    (fun ex =>
       _ ← print (CROSS :: s_ " Error downloading audio: " ++ str_exn ex);
       mret None).

Definition analyze_transcript_data
    (transcript_list : list TranscriptSegment) : M str :=
  _ ← print (BRAIN :: s_ " Formatting transcript data...");
  full_text ← lift (render_transcript transcript_list []);
  _ ← print (OUTBOX :: s_ " Sending " ++ str_nat (length full_text)
             ++ s_ " characters to Gemini...");
  let path := "youtube/summarization/script_prompt.md"%string in
  prompt ← call (ReadFile path) (read_file e path);
  let prompt := replace (s_ "{{TRANSCRIPT}}") full_text prompt in
  call (GenerateContent prompt) (generate_content e prompt).

Definition analyze_audio (audio_path : string) (fuel : nat) : M str :=
  _ ← unbind_audio_file;
  _ ← print (BRAIN :: s_ " Uploading audio to Gemini (may take a moment)...");
  _ ← upload e audio_path;
  _ ← while_processing fuel
        (_ ← print (s_ "."); _ ← emit (Sleep 2); refresh e);
  st ← Analyzer.audio_file_state;
  if file_state_eqb st FAILED then raise ValueError
  else
    _ ← print (NL :: CHECK_MARK
               :: s_ " Audio processed. Generating summary...");
    let path := "youtube/summarization/repo_prompt.md"%string in
    prompt ← call (ReadFile path) (read_file e path);
    response ← call (GenerateContentAudio prompt st)
                    (generate_content_audio e prompt st);
    _ ← call DeleteFile (delete_file e);
    _ ← print (CLOUD ++ s_ "  Cleaned up remote file: " ++ remote_name);
    mret response.

Definition run_agent (youtube_url : str) (fuel : nat) : M unit :=
  video_id ← lift (get_video_id youtube_url);
  match video_id with
  | None | Some [] => print (CROSS :: s_ " Invalid YouTube URL")
  | Some video_id =>
      _ ← print (ROCKET :: s_ " Starting Agent for Video ID: " ++ video_id);
      (* Plan A *)
      plan_a ← try_except
        (_ ← print (PLAY ++ s_ "  Plan A: Fetching transcript...");
         transcript_list ← call (FetchTranscript video_id)
                                (fetch_transcript e video_id);
         summary ← analyze_transcript_data transcript_list;
         _ ← print_summary summary;
         mret true)
        (fun ex =>
           _ ← (if no_transcript ex
                then print (INFO ++ s_ "  Plan A failed: " ++ str_exn ex
                            ++ s_ ". Transcript not available.")
                else print (WARNING
                            ++ s_ "  Plan A failed with an unexpected error: "
                            ++ str_exn ex));
           mret false);
      if plan_a : bool then mret tt
      else
        (* Plan B *)
        _ ← print (NL :: CYCLE
                   :: s_ " Falling back to Plan B: Audio Analysis");
        try_except
          (audio_file ← download_audio youtube_url;
           present ← downloaded audio_file;
           match audio_file, present with
           | Some path, true =>
               finally
                 (summary ← analyze_audio path fuel;
                  print_summary summary)
                 (_ ← os_remove path;
                  print (BROOM
                         :: s_ " Cleanup: Temporary audio file deleted."))
           | _, _ =>
               print (CROSS :: s_ " Plan B failed: Could not download audio.")
           end)
          (fun ex =>
             print (CROSS :: s_ " Plan B failed during analysis: "
                    ++ str_exn ex))
  end.

End Stdout.

End AutoScraperPrints.

(** ** [main.py] *)

Module Main.
Import World.

(** Modelled from the spec: [VideoScraper] of [src/scraper.py], which is
    not among the sources.  Its [get_video_id] follows the extraction rule
    of the specification, which is the rule of the scripts; its
    [fetch_transcript] returns the segments, possibly none, or raises; its
    [download_audio] writes the destination path and returns it, or returns
    [None], or raises. *)
Definition scraper_get_video_id (url : str) : result (option str) :=
  Script.get_video_id url.

Definition scraper_fetch_transcript (e : env) (video_id : str)
  : M (list TranscriptSegment) :=
  call (FetchTranscript video_id) (fetch_transcript e video_id).

Definition scraper_download_audio (e : env) (url : str) (output_path : string)
  : M (option string) :=
  written ← ydl_download e url output_path;
  if written : bool then mret (Some output_path) else mret None.

(** [with tempfile.NamedTemporaryFile(delete=False, suffix=".mp3") as f:
    audio_file_path = f.name] *)
Definition named_temporary_file (e : env) : M unit :=
  path ← lift (temp_name e);
  _ ← emit (TempFile path);
  _ ← create_file path;
  set_audio_file_path path.

(** The [finally] block of Plan B. *)
Definition cleanup : M unit :=
  audio_file_path ← get_audio_file_path;
  present ← Script.downloaded audio_file_path;
  match audio_file_path, present with
  | Some path, true => os_remove path
  | _, _ => mret tt
  end.

(** Plan B: the [try] with its [except] and [finally]. *)
Definition plan_b (e : env) (youtube_url : str) (fuel : nat)
  : M (option VideoAnalysis) :=
  finally
    (try_except
       (_ ← named_temporary_file e;
        audio_file_path ← get_audio_file_path;
        downloaded_path ←
          match audio_file_path with
          | Some path => scraper_download_audio e youtube_url path
          | None => raise AttributeError
          end;
        present ← Script.downloaded downloaded_path;
        match downloaded_path, present with
        | Some path, true =>
            analysis ← Analyzer.analyze_audio e path fuel;
            mret (Some analysis)
        | _, _ => mret None
        end)
       (fun _ => mret None))
    cleanup.

Definition main (e : env) (youtube_url : str) (fuel : nat) : M unit :=
  video_id ← lift (scraper_get_video_id youtube_url);
  match video_id with
  | None | Some [] => mret tt
  | Some video_id =>
      (* Plan A *)
      video_analysis_result ← try_except
        (transcript_segments ← scraper_fetch_transcript e video_id;
         match transcript_segments with
         | _ :: _ =>
             analysis ← Analyzer.analyze_transcript_data e transcript_segments;
             mret (Some analysis)
         | [] => mret None
         end)
        (fun _ => mret None);
      (* Plan B *)
      video_analysis_result ←
        match video_analysis_result with
        | Some analysis => mret (Some analysis)
        | None => plan_b e youtube_url fuel
        end;
      (* Output *)
      match video_analysis_result with
      | Some analysis =>
          try_except (emit (WriteOutput analysis)) (fun _ => mret tt)
      | None => mret tt
      end
  end.

End Main.

(** ** Vocabulary of the statements *)

Import Re Parser.

(** Length of the longest prefix of [s] whose characters satisfy [p]. *)
Fixpoint run_len (p : char -> bool) (s : str) : nat :=
  match s with
  | c :: s' => if p c then S (run_len p s') else 0
  | [] => 0
  end.

(** The literal [l] is matched, character by character, at the head of [s]. *)
Fixpoint ok_prefix (fl : flags) (l s : str) : bool :=
  match l with
  | [] => true
  | p :: l' =>
      match s with
      | c :: s' => atom_ok fl (AChar p) c && ok_prefix fl l' s'
      | [] => false
      end
  end.

(** The line test of the key-topics loop: the bullet pattern matches the
    line once its surrounding whitespace is removed. *)
Definition bullet_line (line : str) : bool :=
  match rematch bullet_re (strip line) no_flags with
  | Some _ => true
  | None => false
  end.

(** [.] without DOTALL. *)
Definition notnl (c : char) : bool := negb (c =? NL)%N.

(** [##\s*] and then the literal [l] at the head of [s]: what follows. *)
Definition after_heading (fl : flags) (l s : str) : option str :=
  if ok_prefix fl (s_ "##") s then
    let s1 := lstrip (skipn 2 s) in
    if ok_prefix fl l s1 then Some (skipn (length l) s1) else None
  else None.

(** The title line at the head of [s]: the text the title pattern captures. *)
Definition title_at (s : str) : option str :=
  match after_heading flag_I (s_ "Title:") s with
  | Some s1 => let s2 := lstrip s1 in Some (firstn (run_len notnl s2) s2)
  | None => None
  end.

(** The text starts with a blank line and the key-topics heading. *)
Definition topics_break (s : str) : bool :=
  ok_prefix flag_SI [NL; NL] s &&
  match after_heading flag_SI TOPICS_HEAD (skipn 2 s) with
  | Some _ => true
  | None => false
  end.

(** Where the summary ends: at such a break or at the end of the text. *)
Definition summary_stop (s : str) : bool :=
  topics_break s || match s with [] => true | _ :: _ => false end.

(** Number of characters before the first place where the summary ends. *)
Fixpoint first_stop (s : str) : nat :=
  if summary_stop s then 0
  else match s with
       | _ :: s' => S (first_stop s')
       | [] => 0
       end.

(** The text of the key-topics section when its heading is at the head of
    [s]: what follows the heading and its newline. *)
Definition topics_at (s : str) : option str :=
  match after_heading flag_SI TOPICS_HEAD s with
  | Some (c :: rest) => if (c =? NL)%N then Some rest else None
  | _ => None
  end.

(** The summary when its heading is at the head of [s]: what follows the
    heading, up to the first place where the summary ends. *)
Definition summary_at (s : str) : option str :=
  match after_heading flag_SI SUMMARY_HEAD s with
  | Some rest => Some (firstn (first_stop rest) rest)
  | None => None
  end.

(** No whitespace matches the first character of one of the headings. *)
Definition starts_unspaced (fl : flags) (l : str) : Prop :=
  forall c s, isspace c = true -> ok_prefix fl l (c :: s) = false.

(** The leftmost suffix of [s] at which [f] finds something. *)
Fixpoint find_first {A} (f : str -> option A) (s : str) : option A :=
  match f s with
  | Some x => Some x
  | None =>
      match s with
      | [] => None
      | _ :: s' => find_first f s'
      end
  end.

(** The two timestamp shapes of the data model, [\d{2}:\d{2}] and
    [\d{2}:\d{2}:\d{2}]. *)
Definition mmss_re : regex :=
  seq [Rep 2 ADigit; lit (s_ ":"); Rep 2 ADigit].

Definition hhmmss_re : regex :=
  seq [Rep 2 ADigit; lit (s_ ":"); Rep 2 ADigit; lit (s_ ":"); Rep 2 ADigit].

Definition timestamp_shape (t : str) : Prop :=
  fullmatch mmss_re t no_flags = true \/ fullmatch hhmmss_re t no_flags = true.

(** What the parser guarantees of a key topic: a timestamp of one of the
    two shapes and a topic without whitespace at its ends. *)
Definition topic_ok (kt : KeyTopic) : Prop :=
  timestamp_shape (timestamp kt) /\ strip (topic kt) = topic kt.

(** The invariant of the data model: moreover, the topic is not empty. *)
Definition KeyTopic_invariant (kt : KeyTopic) : Prop :=
  timestamp_shape (timestamp kt) /\ topic kt <> [].

(** The first line of a text: everything before its first newline. *)
Definition first_line (s : str) : str := firstn (run_len notnl s) s.

(** The text before the first period. *)
Definition first_sentence (s : str) : str :=
  firstn (run_len (fun c => negb (c =? DOT)%N) s) s.

(** The line starts with the heading marker. *)
Definition starts_with_heading (line : str) : bool :=
  ok_prefix no_flags (s_ "##") line.

(** What the two searches find; the empty string when they find nothing. *)
Definition found_title (s : str) : str :=
  match find_first title_at s with
  | Some t => strip t
  | None => []
  end.

Definition found_summary (s : str) : str :=
  match find_first summary_at s with
  | Some t => strip t
  | None => []
  end.

(** [t] itself, or its first [keep] characters and an ellipsis when it is
    longer than 100 characters. *)
Definition shorten (keep : nat) (t : str) : str :=
  if (100 <? length t)%nat then firstn keep t ++ ELLIPSIS else t.

(** Steps (a) and (b) of the fallback chain, for a title that the title
    pattern left empty. *)
Definition fallback_ab (s summary : str) : str :=
  let a := if starts_with_heading (first_line s) then []
           else strip (first_line s) in
  match a, summary with
  | [], _ :: _ =>
      match strip (first_sentence summary) with
      | [] => []
      | (_ :: _) as t => shorten 97 t
      end
  | _, _ => a
  end.

(** The whole chain of [analyzer.py]: step (c) is the summary itself,
    shortened only when it is long. *)
Definition fallback_abc (s summary : str) : str :=
  match fallback_ab s summary with
  | [] => shorten 100 summary
  | (_ :: _) as t => t
  end.

Import Timestamp.

(** The binary64 value of a positive integer below 2^53. *)
Definition float_of_pos (p : positive) : spec_float :=
  let shift := (53 - Z.log2 (Z.pos p) - 1)%Z in
  S754_finite false (Z.to_pos (Z.pos p * 2 ^ shift)) (- shift).

(** The opposite of a float. *)
Definition float_neg (x : spec_float) : spec_float :=
  match x with
  | S754_zero s => S754_zero (negb s)
  | S754_infinity s => S754_infinity (negb s)
  | S754_nan => S754_nan
  | S754_finite s m e => S754_finite (negb s) m e
  end.

(** A float that is a number and is not negative. *)
Definition nonneg_finite (x : spec_float) : bool :=
  match x with
  | S754_zero _ => true
  | S754_finite sign _ _ => negb sign
  | _ => false
  end.

(** A float that is a number below zero. *)
Definition negative_finite (x : spec_float) : bool :=
  match x with
  | S754_finite sign _ _ => sign
  | _ => false
  end.

(** The floor of a float that is a number. *)
Definition float_floor (x : spec_float) : option Z :=
  match x with
  | S754_zero _ => Some 0%Z
  | S754_finite sign m e =>
      let signed := if sign then Z.neg m else Z.pos m in
      Some (if (0 <=? e)%Z then signed * 2 ^ e else signed / 2 ^ (- e))%Z
  | _ => None
  end.

(** Reading a field of decimal digits back. *)
Fixpoint chars_uint (t : str) : option Decimal.uint :=
  match t with
  | [] => Some Decimal.Nil
  | c :: t' =>
      match chars_uint t' with
      | None => None
      | Some d =>
          if (c =? 48)%N then Some (Decimal.D0 d)
          else if (c =? 49)%N then Some (Decimal.D1 d)
          else if (c =? 50)%N then Some (Decimal.D2 d)
          else if (c =? 51)%N then Some (Decimal.D3 d)
          else if (c =? 52)%N then Some (Decimal.D4 d)
          else if (c =? 53)%N then Some (Decimal.D5 d)
          else if (c =? 54)%N then Some (Decimal.D6 d)
          else if (c =? 55)%N then Some (Decimal.D7 d)
          else if (c =? 56)%N then Some (Decimal.D8 d)
          else if (c =? 57)%N then Some (Decimal.D9 d)
          else None
      end
  end.

Definition field_value (t : str) : option Z :=
  match t with
  | [] => None
  | _ :: _ => option_map (fun d => Z.of_N (N.of_uint d)) (chars_uint t)
  end.

(** Re-parsing a formatted timestamp as [H:M:S] when it has three fields
    and as [M:S] when it has two, and the total of seconds it stands for. *)
Definition reparse (out : str) : option Z :=
  match map field_value (split COLON out) with
  | [Some h; Some m; Some s] => Some (h * 3600 + m * 60 + s)%Z
  | [Some m; Some s] => Some (m * 60 + s)%Z
  | _ => None
  end.

(** An ASCII digit. *)
Definition is_digit_char (c : char) : bool := ((48 <=? c) && (c <=? 57))%N.

Import World.

(** The computation returns a value, whatever the world it starts in. *)
Definition succeeds {A} (m : M A) : Prop :=
  forall w, exists a w', m w = Some (Ok a, w').

(** The audio acquirer was not called. *)
Definition no_download (tr : list event) : Prop :=
  forall url output, ~ In (DownloadAudio url output) tr.

(** A transcript service with one segment, a model that answers the
    template, and a download that works: the services of a good day. *)
Definition template_reply : str :=
  s_ "## Title: Intro to Go" ++ [NL] ++
  s_ "## " ++ [MEMO] ++ s_ " Executive Summary" ++ [NL] ++
  s_ "Go is a small language. It compiles fast." ++ [NL; NL] ++
  s_ "## " ++ [STOPWATCH; VS16] ++ s_ " Key Topics & Timestamps" ++ [NL] ++
  s_ "- **[00:10]** Setup" ++ [NL] ++
  s_ "- **[01:02:03]** Wrap-up".

Definition good_env : env :=
  {| fetch_transcript := fun _ =>
       Ok [{| start := S754_zero false; text := s_ "hello" |}];
     generate_content := fun _ => Ok template_reply;
     temp_name := Ok "/tmp/tmpab12cd.mp3"%string;
     download := fun _ _ => Ok true;
     upload_file := fun _ => Ok ACTIVE;
     get_file := fun _ => Ok ACTIVE;
     generate_content_audio := fun _ _ => Ok template_reply;
     delete_file := Ok tt;
     read_file := fun _ => Ok (s_ "Summarise: {{TRANSCRIPT}}") |}.

(** No transcript, a download that works, and a model service that fails
    the generation request. *)
Definition audio_failure_env : env :=
  {| fetch_transcript := fun _ => Raise ServiceError;
     generate_content := fun _ => Raise ServiceError;
     temp_name := Ok "/tmp/tmpab12cd.mp3"%string;
     download := fun _ _ => Ok true;
     upload_file := fun _ => Ok ACTIVE;
     get_file := fun _ => Ok ACTIVE;
     generate_content_audio := fun _ _ => Raise ServiceError;
     delete_file := Ok tt;
     read_file := fun _ => Ok (s_ "Summarise: {{TRANSCRIPT}}") |}.

(** An upload whose processing fails, with a model that answers all the
    same. *)
Definition failed_upload_env : env :=
  {| fetch_transcript := fun _ => Raise ServiceError;
     generate_content := fun _ => Raise ServiceError;
     temp_name := Ok "/tmp/tmpab12cd.mp3"%string;
     download := fun _ _ => Ok true;
     upload_file := fun _ => Ok FAILED;
     get_file := fun _ => Ok FAILED;
     generate_content_audio := fun _ _ => Ok template_reply;
     delete_file := Ok tt;
     read_file := fun _ => Ok (s_ "Summarise the audio.") |}.

Definition sample_url : str := s_ "https://youtu.be/abc123?t=5".

(** The computation only adds calls that satisfy [P] to the trace. *)
Definition emits_only (P : event -> Prop) {A} (m : M A) : Prop :=
  forall w r w', m w = Some (r, w') ->
    exists evs, trace w' = trace w ++ evs /\ Forall P evs.

(** The computation leaves the files and the local [audio_file_path] as
    they are. *)
Definition keeps_files {A} (m : M A) : Prop :=
  forall w r w', m w = Some (r, w') ->
    files w' = files w /\ audio_file_path w' = audio_file_path w.

Definition not_download (ev : event) : Prop :=
  match ev with
  | DownloadAudio _ _ => False
  | _ => True
  end.

(** The chain as the specification words it: (a) the trimmed first line
    unless it starts with the heading marker; (b) if the title is still
    empty and a summary was found, the summary up to its first period, cut
    to 97 characters and an ellipsis when longer than 100; (c) if it is
    still empty and a summary was found, the first 100 characters of the
    summary and an ellipsis. *)
Definition claimed_title (s summary : str) : str :=
  let a := if starts_with_heading (first_line s) then []
           else strip (first_line s) in
  let b := match a, summary with
           | [], _ :: _ => shorten 97 (first_sentence summary)
           | _, _ => a
           end in
  match b, summary with
  | [], _ :: _ => firstn 100 summary ++ ELLIPSIS
  | _, _ => b
  end.

(** [needle] occurs in [line], letters compared without case. *)
Fixpoint contains_nocase (needle line : str) : bool :=
  ok_prefix flag_I needle line ||
  match line with
  | [] => false
  | _ :: line' => contains_nocase needle line'
  end.

(** A heading line that contains [words], whatever else it holds. *)
Definition heading_with (words line : str) : bool :=
  starts_with_heading line && contains_nocase words line.

(** The lines after the first one that satisfies [p]. *)
Fixpoint lines_after (p : str -> bool) (lines : list str) : option (list str) :=
  match lines with
  | [] => None
  | line :: rest => if p line then Some rest else lines_after p rest
  end.

(** The lines before the first one that satisfies [p]. *)
Fixpoint lines_before (p : str -> bool) (lines : list str) : list str :=
  match lines with
  | [] => []
  | line :: rest => if p line then [] else line :: lines_before p rest
  end.

(** The summary as the specification words it: all the text after the
    first heading that contains "Executive Summary", up to the next heading
    that contains "Key Topics" or to the end of the text, trimmed; [None]
    when there is no such heading. *)
Definition claimed_summary (s : str) : option str :=
  match lines_after (heading_with (s_ "Executive Summary")) (split NL s) with
  | Some rest =>
      Some (strip (join [NL]
                     (lines_before (heading_with (s_ "Key Topics")) rest)))
  | None => None
  end.

(** The heading of the summary section as the summary pattern wants it:
    [##], whitespace, the memo, [ Executive Summary] in any case, and a
    newline. *)
Definition summary_heading (h : str) : Prop :=
  after_heading flag_SI SUMMARY_HEAD h = Some [].

(** The documented template around a summary paragraph. *)
Definition template (paragraph : str) : str :=
  s_ "## Title: Intro to Go" ++ [NL] ++
  s_ "## " ++ [MEMO] ++ s_ " Executive Summary" ++ [NL] ++
  paragraph ++ [NL; NL] ++
  s_ "## " ++ [STOPWATCH; VS16] ++ s_ " Key Topics & Timestamps" ++ [NL] ++
  s_ "- **[00:10]** Setup" ++ [NL] ++
  s_ "- **[01:02:03]** Wrap-up".

(** A paragraph of plain text, on one line or several: no [#] in it. *)
Definition plain_text (paragraph : str) : bool :=
  forallb (fun c => negb (c =? 35)%N) paragraph.

(** Inputs of the examples. *)
Definition no_title_input : str :=
  s_ "Understanding gRPC" ++ [NL] ++ s_ "A talk about remote calls.".

Definition dotted_summary_input : str :=
  s_ "## " ++ [MEMO] ++ s_ " Executive Summary" ++ [NL] ++ s_ ".NET rocks".

Definition plain_heading_input : str :=
  s_ "## Executive Summary" ++ [NL] ++ s_ "This is it.".

Definition empty_topic_input : str :=
  s_ "## " ++ [STOPWATCH; VS16] ++ s_ " Key Topics & Timestamps" ++ [NL] ++
  s_ "- **[00:10]**".

(** The test of a line as the robustness claim words it: the bullet
    pattern matched on the line as it stands, [re.match(pattern, line)]
    without the [strip] of the loop. *)
Definition exact_bullet_line (line : str) : bool :=
  match rematch bullet_re line no_flags with
  | Some _ => true
  | None => false
  end.

(** A key-topics section whose only bullet is indented by two spaces. *)
Definition indented_bullet_input : str :=
  s_ "## " ++ [STOPWATCH; VS16] ++ s_ " Key Topics & Timestamps" ++ [NL] ++
  s_ "  - **[00:10]** Setup".

(** The pieces of a reply, for the example of the summary extraction. *)
Definition sample_pre : str := s_ "## Title: Intro to Go" ++ [NL].

Definition sample_heading : str :=
  s_ "## " ++ [MEMO] ++ s_ " Executive Summary" ++ [NL].

Definition sample_body : str := s_ "  Go is a small language.  ".

Definition sample_tail : str :=
  [NL; NL] ++ s_ "## " ++ [STOPWATCH; VS16] ++ s_ " Key Topics & Timestamps"
  ++ [NL] ++ s_ "- **[00:10]** Setup" ++ [NL] ++ s_ "- **[01:02:03]** Wrap-up".

(** The record the template stands for. *)
Definition template_analysis (paragraph : str) : VideoAnalysis :=
  {| title := s_ "Intro to Go";
     executive_summary := strip paragraph;
     key_topics :=
       [{| timestamp := s_ "00:10"; topic := s_ "Setup" |};
        {| timestamp := s_ "01:02:03"; topic := s_ "Wrap-up" |}] |}.

(** The transcript of the good day, as the scraper returns it. *)
Definition good_segments : list TranscriptSegment :=
  [{| start := S754_zero false; text := s_ "hello" |}].

(** A call other than the generation request with the audio attached. *)
Definition not_generate_audio (ev : event) : Prop :=
  match ev with
  | GenerateContentAudio _ _ => False
  | _ => True
  end.

Definition split_title_input : str :=
  s_ "##" ++ [NL] ++ s_ "Title: Go".

Definition spaced_sentence_input : str :=
  s_ "## " ++ [MEMO] ++ s_ " Executive Summary" ++ [NL] ++ s_ "Hello .World".

Definition single_newline_input : str :=
  s_ "## " ++ [MEMO] ++ s_ " Executive Summary" ++ [NL] ++ s_ "abc" ++ [NL] ++
  s_ "## " ++ [STOPWATCH; VS16] ++ s_ " Key Topics & Timestamps" ++ [NL] ++
  s_ "- **[00:10]** x".

(** ** Vocabulary of the further properties *)

(** Separators of a URL. *)
Definition SLASH : char := 47%N.
Definition QUESTION : char := 63%N.
Definition AMPERSAND : char := 38%N.

(** The character [c] does not occur in [s]. *)
Definition lacks (c : char) (s : str) : bool :=
  forallb (fun x => negb (x =? c)%N) s.

(** Nothing, or a text whose first character is [c]. *)
Definition opens_with (c : char) (s : str) : Prop :=
  match s with
  | [] => True
  | x :: _ => x = c
  end.

(** A bullet of the key-topics list in the format the prompts ask for. *)
Definition bullet (kt : KeyTopic) : str :=
  s_ "- **[" ++ timestamp kt ++ s_ "]** " ++ topic kt.

(** The key-topics section in that format: the heading, then one bullet
    per line. *)
Definition topics_section (kts : list KeyTopic) : str :=
  s_ "## " ++ [STOPWATCH; VS16] ++ s_ " Key Topics & Timestamps" ++ [NL] ++
  join [NL] (map bullet kts).

(** A key topic whose topic is on one line. *)
Definition one_line (kt : KeyTopic) : Prop :=
  forallb notnl (topic kt) = true.

(** A list of key topics, for the examples. *)
Definition sample_topics : list KeyTopic :=
  [{| timestamp := s_ "00:10"; topic := s_ "Setup" |};
   {| timestamp := s_ "01:02:03"; topic := [] |};
   {| timestamp := s_ "59:59"; topic := s_ "Questions & answers" |}].

(** A field of exactly two decimal digits. *)
Definition two_digits (t : str) : bool :=
  match t with
  | [a; b] => isdecimal a && isdecimal b
  | _ => false
  end.

(** The heading of the title line as the title pattern wants it: [##],
    whitespace, and [Title:] in any case. *)
Definition title_heading (h : str) : Prop :=
  after_heading flag_I (s_ "Title:") h = Some [].

(** No whitespace at either end. *)
Definition trimmed (s : str) : Prop := strip s = s.

(** What follows the title heading in a reply, and a reply whose title
    line is empty. *)
Definition title_tail : str :=
  s_ "  Intro to Go " ++ [NL] ++ s_ "More text.".

Definition empty_title_input : str :=
  s_ "## Title:" ++ [NL] ++
  s_ "## " ++ [MEMO] ++ s_ " Executive Summary" ++ [NL] ++ s_ "A talk.".

(** A reply without any heading. *)
Definition chatty_reply : str :=
  s_ "  I cannot summarise this video. " ++ [NL] ++ s_ "It has no speech.".

(** A float that is a number. *)
Definition is_number (x : spec_float) : bool :=
  match x with
  | S754_nan | S754_infinity _ => false
  | _ => true
  end.

(** The world after further calls to the collaborators. *)
Definition with_calls (w : world) (evs : list event) : world :=
  {| files := files w; trace := trace w ++ evs; polls := polls w;
     audio_file := audio_file w; audio_file_path := audio_file_path w |}.

(** The computation does not end in an exception. *)
Definition never_raises {A} (m : M A) : Prop :=
  forall w r w', m w = Some (r, w') -> exists a, r = Ok a.

(** The test of the [finally] block of [GeminiAnalyzer.analyze_audio]: the
    local [audio_file] is bound and its state is not FAILED. *)
Definition deletable (af : option file_state) : bool :=
  match af with
  | Some FAILED | None => false
  | Some _ => true
  end.

(** The calls of [k] rounds of the polling loop that sleeps [seconds]. *)
Definition rounds (seconds k : nat) : list event :=
  concat (repeat [Sleep seconds; GetFile] k).

(** An upload that is never processed. *)
Definition stuck_env : env :=
  {| fetch_transcript := fun _ => Raise ServiceError;
     generate_content := fun _ => Raise ServiceError;
     temp_name := Ok "/tmp/tmpab12cd.mp3"%string;
     download := fun _ _ => Ok true;
     upload_file := fun _ => Ok PROCESSING;
     get_file := fun _ => Ok PROCESSING;
     generate_content_audio := fun _ _ => Ok template_reply;
     delete_file := Ok tt;
     read_file := fun _ => Ok (s_ "Summarise the audio.") |}.

(** An upload that is processed at the third poll. *)
Definition slow_env : env :=
  {| fetch_transcript := fun _ => Raise ServiceError;
     generate_content := fun _ => Raise ServiceError;
     temp_name := Ok "/tmp/tmpab12cd.mp3"%string;
     download := fun _ _ => Ok true;
     upload_file := fun _ => Ok PROCESSING;
     get_file := fun i => Ok (if (i <? 2)%nat then PROCESSING else ACTIVE);
     generate_content_audio := fun _ _ => Ok template_reply;
     delete_file := Ok tt;
     read_file := fun _ => Ok (s_ "Summarise the audio.") |}.

(** A model that answers, and a service that refuses the deletion of the
    uploaded file. *)
Definition delete_failure_env : env :=
  {| fetch_transcript := fun _ => Raise ServiceError;
     generate_content := fun _ => Raise ServiceError;
     temp_name := Ok "/tmp/tmpab12cd.mp3"%string;
     download := fun _ _ => Ok true;
     upload_file := fun _ => Ok ACTIVE;
     get_file := fun _ => Ok ACTIVE;
     generate_content_audio := fun _ _ => Ok template_reply;
     delete_file := Raise ServiceError;
     read_file := fun _ => Ok (s_ "Summarise the audio.") |}.

(** A call other than the deletion of the uploaded file. *)
Definition not_delete (ev : event) : Prop := ev <> DeleteFile.

(** A call other than a poll and the sleep before it. *)
Definition not_poll (ev : event) : Prop :=
  match ev with
  | GetFile | Sleep _ => False
  | _ => True
  end.

(** The line of a segment in the text sent to the model. *)
Definition transcript_line (time_str : str) (segment : TranscriptSegment) : str :=
  s_ "[" ++ time_str ++ s_ "] " ++ text segment.

(** A model that answers every request. *)
Definition answers (e : env) : Prop :=
  forall prompt, exists reply, generate_content e prompt = Ok reply.

(** A transcript with a start that is not a number. *)
Definition nan_segments : list TranscriptSegment :=
  [{| start := S754_zero false; text := s_ "hello" |};
   {| start := S754_nan; text := s_ "world" |}].

(** A transcript of two segments. *)
Definition two_segments : list TranscriptSegment :=
  [{| start := S754_zero false; text := s_ "hello" |};
   {| start := float_of_pos 65; text := s_ "world" |}].

(** The placeholder of the prompt file of [auto_scraper.py], the brace it
    starts with, and the path of the file. *)
Definition PLACEHOLDER : str := s_ "{{TRANSCRIPT}}".
Definition BRACE : char := 123%N.
Definition SCRIPT_PROMPT : string := "youtube/summarization/script_prompt.md".

(** A transcript service that returns no segment, and a model that
    answers. *)
Definition empty_transcript_env : env :=
  {| fetch_transcript := fun _ => Ok [];
     generate_content := fun _ => Ok template_reply;
     temp_name := Ok "/tmp/tmpab12cd.mp3"%string;
     download := fun _ _ => Ok true;
     upload_file := fun _ => Ok ACTIVE;
     get_file := fun _ => Ok ACTIVE;
     generate_content_audio := fun _ _ => Ok template_reply;
     delete_file := Ok tt;
     read_file := fun _ => Ok (s_ "Summarise: {{TRANSCRIPT}}") |}.

(** No transcript and no audio. *)
Definition offline_env : env :=
  {| fetch_transcript := fun _ => Raise ServiceError;
     generate_content := fun _ => Raise ServiceError;
     temp_name := Ok "/tmp/tmpab12cd.mp3"%string;
     download := fun _ _ => Raise ServiceError;
     upload_file := fun _ => Raise ServiceError;
     get_file := fun _ => Raise ServiceError;
     generate_content_audio := fun _ _ => Raise ServiceError;
     delete_file := Raise ServiceError;
     read_file := fun _ => Raise OSError |}.

(** An upload whose processing fails at the third poll. *)
Definition failing_env : env :=
  {| fetch_transcript := fun _ => Raise ServiceError;
     generate_content := fun _ => Raise ServiceError;
     temp_name := Ok "/tmp/tmpab12cd.mp3"%string;
     download := fun _ _ => Ok true;
     upload_file := fun _ => Ok PROCESSING;
     get_file := fun i => Ok (if (i <? 2)%nat then PROCESSING else FAILED);
     generate_content_audio := fun _ _ => Ok template_reply;
     delete_file := Ok tt;
     read_file := fun _ => Ok (s_ "Summarise the audio.") |}.

(** No transcript, a download that works and a model that answers. *)
Definition audio_only_env : env :=
  {| fetch_transcript := fun _ => Raise ServiceError;
     generate_content := fun _ => Raise ServiceError;
     temp_name := Ok "/tmp/tmpab12cd.mp3"%string;
     download := fun _ _ => Ok true;
     upload_file := fun _ => Ok ACTIVE;
     get_file := fun _ => Ok ACTIVE;
     generate_content_audio := fun _ _ => Ok template_reply;
     delete_file := Ok tt;
     read_file := fun _ => Ok (s_ "Summarise the audio.") |}.

(** The only exceptions that leave the computation are those of [P]. *)
Definition raises_only (P : exn -> Prop) {A} (m : M A) : Prop :=
  forall w ex w', m w = Some (Raise ex, w') -> P ex.

(** The first message of [run_agent] in [auto_scraper.py]: the one of line
    118 for a URL without an id, the one of line 121 otherwise. *)
Definition first_message (url : str) : str :=
  match Script.get_video_id url with
  | Ok (Some (c :: video_id)) =>
      AutoScraperPrints.ROCKET
      :: s_ " Starting Agent for Video ID: " ++ c :: video_id
  | _ => AutoScraperPrints.CROSS :: s_ " Invalid YouTube URL"
  end.

(** A standard output whose encoding has one byte for a character, as
    Latin-1 has: a text with a code point from 256 on is refused. *)
Definition latin1_stdout (text : str) : result unit :=
  if forallb (fun c => (c <? 256)%N) text then Ok tt
  else Raise UnicodeEncodeError.

(** A [str(e)] that is the same short text for every exception. *)
Definition short_str_exn (ex : exn) : str := s_ "error".

(** * Part II: facts and claims *)

(** * Tactics *)

(** Boolean tests on code points, as propositions. *)
Ltac bool_rewrite_in H :=
  rewrite ?orb_true_iff, ?andb_true_iff, ?orb_false_iff,
    ?andb_false_iff, ?negb_true_iff, ?negb_false_iff,
    ?N.leb_le, ?N.leb_gt, ?N.eqb_eq, ?N.eqb_neq, ?N.ltb_lt, ?N.ltb_ge in H.

Ltac bool_to_prop :=
  once (repeat match goal with
               | H : _ |- _ => progress bool_rewrite_in H
               end;
        rewrite ?orb_true_iff, ?andb_true_iff, ?orb_false_iff,
          ?andb_false_iff, ?negb_true_iff, ?negb_false_iff,
          ?N.leb_le, ?N.leb_gt, ?N.eqb_eq, ?N.eqb_neq, ?N.ltb_lt, ?N.ltb_ge).

(** Case analysis on the test at the head of a matcher equation. *)
Ltac head_if D :=
  lazymatch goal with
  | |- (if ?c then _ else _) = _ -> _ => destruct c eqn:D; [|discriminate]
  | H : (if ?c then _ else _) = _ |- _ => destruct c eqn:D; [|discriminate]
  end.

Ltac split_andb :=
  repeat match goal with
         | H : _ && _ = true |- _ => apply andb_true_iff in H as [? ?]
         end.

(** Properties of every element of a trace. *)
Ltac solve_forall :=
  repeat first [ assumption | exact I | apply List.Forall_nil
               | apply List.Forall_cons | apply List.Forall_app; split ].

(** The operations of the world monad, unfolded. *)
Ltac unfold_monad :=
  unfold call, try_except, mbind, M_bind, lift, emit, mret, M_ret.

(** Running the analysis that is known to succeed. *)
Ltac run_analysis Hok Hemits v w2 evs :=
  match goal with
  | |- context [?f ?e ?segs ?w1] =>
      match type of Hok with
      | succeeds (f e segs) =>
          let E := fresh "E" in
          let Etr := fresh "Etr" in
          let F := fresh "F" in
          destruct (Hok w1) as (v & w2 & E); rewrite E;
          destruct (Hemits e segs _ _ _ E) as (evs & Etr & F);
          clear E
      end
  end.

(** A statement about every index below a literal bound, by cases. *)
Tactic Notation "below" integer(n) :=
  let j := fresh "j" in
  let Hj := fresh "Hj" in
  intros j Hj;
  do n (destruct j as [|j]; [vm_compute; reflexivity|]);
  exfalso; vm_compute in Hj; lia.

(** Memberships in sets of files. *)
Ltac set_tauto :=
  set_unfold; first [tauto | intuition congruence | firstorder congruence].

Ltac unfold_monad_in H :=
  unfold call, try_except, mbind, M_bind, lift, raise, emit, mret, M_ret in H.

(** Case analysis on the characters of a timestamp. *)
Ltac case_digit x :=
  try (destruct (isdecimal x) eqn:?; [|discriminate]); try discriminate.
Ltac case_colon x :=
  try (match goal with
       | |- context [if (x =? ?v)%N then _ else _] =>
           let E := fresh "E" in
           destruct (x =? v)%N eqn:E;
           [apply N.eqb_eq in E; vm_compute in E; subst x|discriminate]
       end); try discriminate.

(** Equal traces, up to the grouping of their parts. *)
Ltac trace_eq :=
  repeat first [rewrite <- app_assoc | rewrite <- app_comm_cons];
  cbn [app]; reflexivity.

(** * Facts about the matcher *)

Lemma star_greedy_inv {A} p pos s (k : nat -> str -> option A) x :
  star_greedy p pos s k = Some x ->
  exists n, n <= length s /\ forallb p (firstn n s) = true /\
            k (pos + n) (skipn n s) = Some x.
Proof.
  revert pos. induction s as [|c s IH]; intros pos H; simpl in H.
  - exists 0. rewrite Nat.add_0_r. auto.
  - destruct (p c) eqn:Hc.
    + destruct (star_greedy p (S pos) s k) eqn:E.
      * inversion H; subst. apply IH in E as (n & Hn & Hp & Hk).
        exists (S n). simpl. rewrite Hc, Hp.
        replace (pos + S n) with (S pos + n) by lia. repeat split; auto. lia.
      * exists 0. rewrite Nat.add_0_r. simpl. repeat split; auto. lia.
    + exists 0. rewrite Nat.add_0_r. simpl. repeat split; auto. lia.
Qed.

(** A greedy star whose continuation accepts the longest run stops there. *)
Lemma star_greedy_max {A} p pos s (k : nat -> str -> option A) x :
  k (pos + run_len p s) (skipn (run_len p s) s) = Some x ->
  star_greedy p pos s k = Some x.
Proof.
  revert pos. induction s as [|c s IH]; intros pos H; simpl in *.
  - rewrite Nat.add_0_r in H. exact H.
  - destruct (p c).
    + simpl in H. replace (pos + S (run_len p s)) with (S pos + run_len p s) in H by lia.
      rewrite (IH _ H). reflexivity.
    + rewrite Nat.add_0_r in H. exact H.
Qed.

(** A greedy star whose continuation refuses every run that could be
    extended is decided at the longest run. *)
Lemma star_greedy_det {A} p pos s (k : nat -> str -> option A) :
  (forall pos' c s', p c = true -> k pos' (c :: s') = None) ->
  star_greedy p pos s k = k (pos + run_len p s) (skipn (run_len p s) s).
Proof.
  intros Hk. revert pos. induction s as [|c s IH]; intros pos; simpl.
  - rewrite Nat.add_0_r. reflexivity.
  - destruct (p c) eqn:Hc.
    + rewrite IH.
      replace (pos + S (run_len p s)) with (S pos + run_len p s) by lia.
      cbn -[Nat.add].
      destruct (k (S pos + run_len p s) (skipn (run_len p s) s));
        [reflexivity | apply Hk; exact Hc].
    + rewrite Nat.add_0_r. reflexivity.
Qed.

Lemma star_lazy_inv {A} p pos s (k : nat -> str -> option A) x :
  star_lazy p pos s k = Some x ->
  exists n, n <= length s /\ forallb p (firstn n s) = true /\
            k (pos + n) (skipn n s) = Some x /\
            forall m, m < n -> k (pos + m) (skipn m s) = None.
Proof.
  revert pos. induction s as [|c s IH]; intros pos H; simpl in H.
  - destruct (k pos []) eqn:E; [|discriminate]. inversion H; subst.
    exists 0. rewrite Nat.add_0_r. simpl. repeat split; auto. lia.
  - destruct (k pos (c :: s)) eqn:E.
    + inversion H; subst. exists 0. rewrite Nat.add_0_r. simpl.
      repeat split; auto; lia.
    + destruct (p c) eqn:Hc; [|discriminate].
      apply IH in H as (n & Hn & Hp & Hk & Hmin).
      exists (S n). simpl. rewrite Hc, Hp.
      replace (pos + S n) with (S pos + n) by lia.
      repeat split; auto; [lia|].
      intros [|m] Hm; simpl.
      * rewrite Nat.add_0_r. exact E.
      * replace (pos + S m) with (S pos + m) by lia. apply Hmin. lia.
Qed.

Lemma star_lazy_first {A} p pos s (k : nat -> str -> option A) n x :
  n <= length s -> forallb p (firstn n s) = true ->
  k (pos + n) (skipn n s) = Some x ->
  (forall m, m < n -> k (pos + m) (skipn m s) = None) ->
  star_lazy p pos s k = Some x.
Proof.
  revert pos s. induction n as [|n IH]; intros pos s Hn Hp Hk Hmin.
  - rewrite Nat.add_0_r, skipn_O in Hk.
    destruct s; simpl; rewrite Hk; reflexivity.
  - destruct s as [|c s]; simpl in Hn; [lia|].
    simpl in Hp. apply andb_true_iff in Hp as [Hc Hp].
    simpl. pose proof (Hmin 0 ltac:(lia)) as H0.
    rewrite Nat.add_0_r, skipn_O in H0. rewrite H0, Hc.
    apply IH; auto; [lia| |].
    + replace (S pos + n) with (pos + S n) by lia. exact Hk.
    + intros m Hm. replace (S pos + m) with (pos + S m) by lia.
      apply (Hmin (S m)). lia.
Qed.

Lemma star_lazy_none {A} p pos s (k : nat -> str -> option A) :
  star_lazy p pos s k = None ->
  forall n, n <= length s -> forallb p (firstn n s) = true ->
            k (pos + n) (skipn n s) = None.
Proof.
  revert pos. induction s as [|c s IH]; intros pos H n Hn Hp; simpl in *.
  - assert (n = 0) by lia. subst. rewrite Nat.add_0_r. simpl.
    destruct (k pos []); [discriminate|reflexivity].
  - destruct (k pos (c :: s)) eqn:E; [discriminate|].
    destruct n as [|n]; simpl.
    + rewrite Nat.add_0_r. exact E.
    + simpl in Hp. apply andb_true_iff in Hp as [Hc Hp]. rewrite Hc in H.
      replace (pos + S n) with (S pos + n) by lia. apply IH; auto. lia.
Qed.

Lemma rep_eq {A} n p pos s (k : nat -> str -> option A) :
  rep n p pos s k =
  if (n <=? length s)%nat && forallb p (firstn n s)
  then k (pos + n) (skipn n s) else None.
Proof.
  revert pos s. induction n as [|n IH]; intros pos s; simpl.
  - rewrite Nat.add_0_r. reflexivity.
  - destruct s as [|c s]; simpl; [reflexivity|].
    destruct (p c); simpl.
    + rewrite IH. replace (pos + S n) with (S pos + n) by lia. reflexivity.
    + rewrite andb_false_r. reflexivity.
Qed.

Lemma run_lit {A} fl l pos s g (k : nat -> str -> groups -> option A) :
  run fl (lit l) pos s g k =
  if ok_prefix fl l s then k (pos + length l) (skipn (length l) s) g else None.
Proof.
  revert pos s. induction l as [|p l IH]; intros pos s.
  - cbn. rewrite Nat.add_0_r. reflexivity.
  - destruct s as [|c s]; [reflexivity|].
    cbn [lit fold_right run ok_prefix length skipn].
    destruct (atom_ok fl (AChar p) c); cbn [andb]; [|reflexivity].
    fold (lit l). rewrite IH.
    replace (pos + S (length l)) with (S pos + length l) by lia. reflexivity.
Qed.

Lemma run_seq_cons {A} fl r rs pos s g (k : nat -> str -> groups -> option A) :
  run fl (seq (r :: rs)) pos s g k =
  run fl r pos s g (fun pos' s' g' => run fl (seq rs) pos' s' g' k).
Proof. reflexivity. Qed.

Lemma run_seq_nil {A} fl pos s g (k : nat -> str -> groups -> option A) :
  run fl (seq []) pos s g k = k pos s g.
Proof. reflexivity. Qed.

Lemma run_len_le p s : run_len p s <= length s.
Proof. induction s as [|c s IH]; simpl; [lia|]. destruct (p c); simpl; lia. Qed.

Lemma run_len_all p s : forallb p s = true -> run_len p s = length s.
Proof.
  induction s as [|c s IH]; simpl; [reflexivity|].
  intros H. apply andb_true_iff in H as [-> H]. rewrite IH; auto.
Qed.

Lemma run_len_forallb p s : forallb p (firstn (run_len p s) s) = true.
Proof.
  induction s as [|c s IH]; simpl; [reflexivity|].
  destruct (p c) eqn:E; simpl; [rewrite E, IH|]; reflexivity.
Qed.

Lemma lstrip_run_len s : lstrip s = skipn (run_len isspace s) s.
Proof.
  induction s as [|c s IH]; simpl; [reflexivity|].
  destruct (isspace c); simpl; auto.
Qed.

(** The leftmost-match search, unfolded. *)
Lemma search_from_inv fl r pos s m :
  search_from fl r pos s = Some m ->
  exists i, i <= length s /\ match_at fl r (pos + i) (skipn i s) = Some m /\
            forall j, j < i -> match_at fl r (pos + j) (skipn j s) = None.
Proof.
  revert pos. induction s as [|c s IH]; intros pos H; simpl in H.
  - destruct (match_at fl r pos []) eqn:E; [|discriminate].
    inversion H; subst. exists 0. rewrite Nat.add_0_r. simpl.
    repeat split; auto; lia.
  - destruct (match_at fl r pos (c :: s)) eqn:E.
    + inversion H; subst. exists 0. rewrite Nat.add_0_r. simpl.
      repeat split; auto; lia.
    + apply IH in H as (i & Hi & Hm & Hmin). exists (S i). simpl.
      replace (pos + S i) with (S pos + i) by lia. repeat split; auto; [lia|].
      intros [|j] Hj; simpl.
      * rewrite Nat.add_0_r. exact E.
      * replace (pos + S j) with (S pos + j) by lia. apply Hmin. lia.
Qed.

Lemma search_from_first fl r pos s i m :
  i <= length s -> match_at fl r (pos + i) (skipn i s) = Some m ->
  (forall j, j < i -> match_at fl r (pos + j) (skipn j s) = None) ->
  search_from fl r pos s = Some m.
Proof.
  revert pos s. induction i as [|i IH]; intros pos s Hi Hm Hmin.
  - rewrite Nat.add_0_r, skipn_O in Hm. destruct s; simpl; rewrite Hm; auto.
  - destruct s as [|c s]; simpl in Hi; [lia|]. simpl.
    pose proof (Hmin 0 ltac:(lia)) as H0. rewrite Nat.add_0_r, skipn_O in H0.
    rewrite H0. apply IH; [lia| |].
    + replace (S pos + i) with (pos + S i) by lia. exact Hm.
    + intros j Hj. replace (S pos + j) with (pos + S j) by lia.
      apply (Hmin (S j)). lia.
Qed.

Lemma search_from_none fl r pos s :
  search_from fl r pos s = None ->
  forall i, i <= length s -> match_at fl r (pos + i) (skipn i s) = None.
Proof.
  revert pos. induction s as [|c s IH]; intros pos H i Hi; simpl in *.
  - assert (i = 0) by lia. subst. rewrite Nat.add_0_r. simpl.
    destruct (match_at fl r pos []); [discriminate|reflexivity].
  - destruct (match_at fl r pos (c :: s)) eqn:E; [discriminate|].
    destruct i as [|i]; simpl.
    + rewrite Nat.add_0_r. exact E.
    + replace (pos + S i) with (S pos + i) by lia. apply IH; auto. lia.
Qed.

(** * Facts about the patterns *)

Lemma isspace_tolower c : isspace c = true -> tolower c = c.
Proof.
  unfold isspace, tolower. intros H.
  destruct ((65 <=? c)%N && (c <=? 90)%N) eqn:E1;
  destruct (c =? 304)%N eqn:E2; destruct (c =? 8490)%N eqn:E3;
  bool_to_prop; lia.
Qed.

Lemma unspaced_cons fl p l :
  (forall c, isspace c = true -> atom_ok fl (AChar p) c = false) ->
  starts_unspaced fl (p :: l).
Proof. intros H c s Hc. cbn [ok_prefix]. rewrite (H c Hc). reflexivity. Qed.

Lemma title_unspaced : starts_unspaced flag_I (s_ "Title:").
Proof.
  apply unspaced_cons. intros c H. cbn [atom_ok flag_I IGNORECASE].
  unfold char_ieq.
  change (iscased (N_of_ascii "T")) with true. cbv iota.
  change (tolower (N_of_ascii "T")) with 116%N.
  change (fixes 116%N) with (@nil char). cbn [existsb].
  rewrite (isspace_tolower _ H). unfold isspace in H. bool_to_prop. lia.
Qed.

Lemma uncased_unspaced p l :
  iscased p = false -> isspace p = false -> starts_unspaced flag_SI (p :: l).
Proof.
  intros Hp Hs. apply unspaced_cons. intros c H.
  cbn [atom_ok flag_SI IGNORECASE]. unfold char_ieq. rewrite Hp.
  apply N.eqb_neq. intros ->. congruence.
Qed.

Lemma summary_unspaced : starts_unspaced flag_SI SUMMARY_HEAD.
Proof. apply uncased_unspaced; reflexivity. Qed.

Lemma topics_unspaced : starts_unspaced flag_SI TOPICS_HEAD.
Proof. apply uncased_unspaced; reflexivity. Qed.

Lemma topics_nl_unspaced : starts_unspaced flag_SI (TOPICS_HEAD ++ [NL]).
Proof. apply uncased_unspaced; reflexivity. Qed.

Lemma ok_prefix_length fl l s : ok_prefix fl l s = true -> length l <= length s.
Proof.
  revert s. induction l as [|p l IH]; intros s H; simpl; [lia|].
  destruct s as [|c s]; [discriminate|]. cbn [ok_prefix] in H.
  apply andb_true_iff in H as [_ H]. apply IH in H. simpl. lia.
Qed.

Lemma ok_prefix_app fl l1 l2 s :
  ok_prefix fl (l1 ++ l2) s =
  ok_prefix fl l1 s && ok_prefix fl l2 (skipn (length l1) s).
Proof.
  revert s. induction l1 as [|p l1 IH]; intros s; [reflexivity|].
  destruct s as [|c s]; [reflexivity|].
  cbn [app ok_prefix length skipn]. rewrite IH, andb_assoc. reflexivity.
Qed.

Lemma after_heading_length fl l s rest :
  after_heading fl l s = Some rest ->
  length rest + 2 + length l <= length s /\
  exists n, rest = skipn n s /\ n = length s - length rest.
Proof.
  unfold after_heading. intros H.
  destruct (ok_prefix fl (s_ "##") s) eqn:E1; [|discriminate].
  cbv zeta in H. rewrite lstrip_run_len in H.
  destruct (ok_prefix fl l _) eqn:E2; [|discriminate].
  inversion H; subst; clear H.
  apply ok_prefix_length in E1, E2. change (length (s_ "##")) with 2 in E1.
  pose proof (run_len_le isspace (skipn 2 s)) as Hr.
  rewrite ?length_skipn in *. rewrite !skipn_skipn.
  split; [lia|]. eexists; split; [reflexivity|]. lia.
Qed.

(** The heading part of the three section patterns. *)
Lemma run_heading {A} fl l rs pos s g (k : nat -> str -> groups -> option A) :
  starts_unspaced fl l ->
  run fl (seq (lit (s_ "##") :: Star ASpace :: lit l :: rs)) pos s g k =
  match after_heading fl l s with
  | Some rest => run fl (seq rs) (pos + (length s - length rest)) rest g k
  | None => None
  end.
Proof.
  intros Hl. rewrite run_seq_cons, run_lit.
  destruct (after_heading fl l s) as [rest|] eqn:E.
  - destruct (after_heading_length _ _ _ _ E) as [Hlen _].
    unfold after_heading in E.
    destruct (ok_prefix fl (s_ "##") s) eqn:E1; [|discriminate].
    cbv zeta in E. rewrite lstrip_run_len in E.
    destruct (ok_prefix fl l _) eqn:E2; [|discriminate].
    inversion E; subst; clear E.
    rewrite run_seq_cons. cbn [run].
    change (atom_ok fl ASpace) with isspace. rewrite star_greedy_det.
    + rewrite run_seq_cons, run_lit.
      change (length (s_ "##")) with 2. rewrite E2.
      f_equal.
      pose proof (run_len_le isspace (skipn 2 s)) as Hr.
      pose proof (ok_prefix_length _ _ _ E1) as H1.
      pose proof (ok_prefix_length _ _ _ E2) as H2.
      change (length (s_ "##")) with 2 in H1.
      rewrite ?length_skipn in *. lia.
    + intros pos' c s' Hc. rewrite run_seq_cons, run_lit.
      rewrite (Hl c s' Hc). reflexivity.
  - unfold after_heading in E.
    destruct (ok_prefix fl (s_ "##") s) eqn:E1; [|reflexivity].
    cbv zeta in E. rewrite lstrip_run_len in E.
    rewrite run_seq_cons. cbn [run].
    change (atom_ok fl ASpace) with isspace. rewrite star_greedy_det.
    + rewrite run_seq_cons, run_lit. change (length (s_ "##")) with 2.
      destruct (ok_prefix fl l _); [discriminate|reflexivity].
    + intros pos' c s' Hc. rewrite run_seq_cons, run_lit.
      rewrite (Hl c s' Hc). reflexivity.
Qed.

Lemma run_star {A} fl a pos s g (k : nat -> str -> groups -> option A) :
  run fl (Star a) pos s g k =
  star_greedy (atom_ok fl a) pos s (fun pos' s' => k pos' s' g).
Proof. reflexivity. Qed.

Lemma run_star_lazy {A} fl a pos s g (k : nat -> str -> groups -> option A) :
  run fl (StarLazy a) pos s g k =
  star_lazy (atom_ok fl a) pos s (fun pos' s' => k pos' s' g).
Proof. reflexivity. Qed.

Lemma run_group {A} fl i r pos s g (k : nat -> str -> groups -> option A) :
  run fl (Group i r) pos s g k =
  run fl r pos s g
    (fun pos' s' g' => k pos' s' ((i, firstn (pos' - pos) s) :: g')).
Proof. reflexivity. Qed.

Lemma run_ahead {A} fl r pos s g (k : nat -> str -> groups -> option A) :
  run fl (Ahead r) pos s g k =
  match run fl r pos s g (fun _ _ g' => Some g') with
  | Some g' => k pos s g'
  | None => None
  end.
Proof. reflexivity. Qed.

Lemma run_alt {A} fl r1 r2 pos s g (k : nat -> str -> groups -> option A) :
  run fl (Alt r1 r2) pos s g k =
  match run fl r1 pos s g k with
  | Some x => Some x
  | None => run fl r2 pos s g k
  end.
Proof. reflexivity. Qed.

Lemma run_len_notnl s :
  run_len (atom_ok flag_I ADot) s = run_len notnl s.
Proof. reflexivity. Qed.

Lemma run_len_dotall s : run_len (atom_ok flag_SI ADot) s = length s.
Proof. apply run_len_all. induction s; simpl; auto. Qed.

(** The final [.*] group of a pattern: it takes the longest run. *)
Lemma run_last_group {A} fl i pos s g (f : nat -> groups -> A) :
  run fl (seq [Group i (Star ADot)]) pos s g
    (fun pos' _ g' => Some (f pos' g')) =
  Some (f (pos + run_len (atom_ok fl ADot) s)
          ((i, firstn (run_len (atom_ok fl ADot) s) s) :: g)).
Proof.
  rewrite run_seq_cons, run_group, run_star.
  erewrite star_greedy_max; [reflexivity|].
  rewrite run_seq_nil.
  replace (pos + run_len (atom_ok fl ADot) s - pos)
    with (run_len (atom_ok fl ADot) s) by lia.
  reflexivity.
Qed.

Lemma match_at_title pos s :
  option_map m_groups (match_at flag_I title_re pos s) =
  option_map (fun t => [(1, t)]) (title_at s).
Proof.
  unfold match_at, title_re, title_at.
  rewrite run_heading by apply title_unspaced.
  destruct (after_heading flag_I (s_ "Title:") s) as [rest|]; [|reflexivity].
  rewrite run_seq_cons, run_star.
  change (atom_ok flag_I ASpace) with isspace.
  erewrite star_greedy_max;
    [|apply (run_last_group flag_I 1 _ _ []
               (fun e g => {| m_start := pos; m_end := e; m_groups := g |}))].
  cbn [option_map m_groups]. rewrite lstrip_run_len. reflexivity.
Qed.

Lemma match_at_topics pos s :
  option_map m_groups (match_at flag_SI topics_re pos s) =
  option_map (fun t => [(1, t)]) (topics_at s).
Proof.
  unfold match_at, topics_re, topics_at.
  rewrite run_heading by apply topics_unspaced.
  destruct (after_heading flag_SI TOPICS_HEAD s) as [rest|]; [|reflexivity].
  rewrite run_seq_cons, run_lit.
  destruct rest as [|c rest]; [reflexivity|].
  cbn [ok_prefix atom_ok flag_SI IGNORECASE]. unfold char_ieq.
  change (iscased NL) with false. cbv iota. rewrite andb_true_r.
  destruct (c =? NL)%N; [|reflexivity].
  rewrite (run_last_group flag_SI 1 _ _ []
             (fun e g => {| m_start := pos; m_end := e; m_groups := g |})).
  cbn [option_map m_groups length skipn]. rewrite run_len_dotall, firstn_all.
  reflexivity.
Qed.

Lemma run_summary_ahead {A} pos s g (k : nat -> str -> groups -> option A) :
  run flag_SI
    (Ahead (Alt (seq [lit [NL; NL]; lit (s_ "##"); Star ASpace;
                      lit TOPICS_HEAD]) EndZ)) pos s g k =
  if summary_stop s then k pos s g else None.
Proof.
  rewrite run_ahead, run_alt, run_seq_cons, run_lit.
  unfold summary_stop, topics_break.
  destruct (ok_prefix flag_SI [NL; NL] s) eqn:E1; cbn [andb orb].
  - rewrite run_heading by apply topics_unspaced.
    destruct (after_heading flag_SI TOPICS_HEAD _) as [rest|]; cbn [orb].
    + rewrite run_seq_nil. reflexivity.
    + destruct s; reflexivity.
  - destruct s; reflexivity.
Qed.

Lemma first_stop_le s : first_stop s <= length s.
Proof.
  induction s as [|c s IH]; simpl.
  - destruct (summary_stop []); simpl; lia.
  - destruct (summary_stop (c :: s)); simpl; lia.
Qed.

Lemma first_stop_stops s : summary_stop (skipn (first_stop s) s) = true.
Proof.
  induction s as [|c s IH].
  - reflexivity.
  - cbn [first_stop]. destruct (summary_stop (c :: s)) eqn:E; [exact E|].
    exact IH.
Qed.

Lemma first_stop_first s m :
  m < first_stop s -> summary_stop (skipn m s) = false.
Proof.
  revert m. induction s as [|c s IH]; intros m Hm.
  - simpl in Hm. lia.
  - cbn [first_stop] in Hm. destruct (summary_stop (c :: s)) eqn:E; [lia|].
    destruct m as [|m]; [exact E|]. apply IH. lia.
Qed.

Lemma forallb_dotall s : forallb (atom_ok flag_SI ADot) s = true.
Proof. induction s; simpl; auto. Qed.

Lemma match_at_summary pos s :
  option_map m_groups (match_at flag_SI summary_re pos s) =
  option_map (fun t => [(1, t)]) (summary_at s).
Proof.
  unfold match_at, summary_re, summary_at.
  rewrite run_heading by apply summary_unspaced.
  destruct (after_heading flag_SI SUMMARY_HEAD s) as [rest|]; [|reflexivity].
  rewrite run_seq_cons, run_group, run_star_lazy.
  erewrite (star_lazy_first _ _ _ _ (first_stop rest)); cycle 1.
  - apply first_stop_le.
  - apply forallb_dotall.
  - rewrite run_seq_cons, run_summary_ahead, first_stop_stops, run_seq_nil.
    reflexivity.
  - intros m Hm.
    rewrite run_seq_cons, run_summary_ahead, (first_stop_first _ _ Hm).
    reflexivity.
  - cbn [option_map m_groups].
    match goal with |- context [(?a + ?b - ?a)] =>
      replace (a + b - a) with b by lia end.
    reflexivity.
Qed.

(** [re.search] through the per-position characterisations. *)
Lemma search_from_find fl r (f : str -> option str) :
  (forall pos s, option_map m_groups (match_at fl r pos s) =
                 option_map (fun t => [(1, t)]) (f s)) ->
  forall s pos, option_map (fun m => group m 1) (search_from fl r pos s) =
                option_map Some (find_first f s).
Proof.
  intros Hf s.
  induction s as [|c s IH]; intros pos; cbn [search_from find_first];
    specialize (Hf pos); unfold group.
  - specialize (Hf []). destruct (match_at fl r pos []), (f []);
      try discriminate; cbn in *; [|reflexivity].
    inversion Hf as [E]. rewrite E. reflexivity.
  - specialize (Hf (c :: s)). destruct (match_at fl r pos (c :: s)), (f (c :: s));
      try discriminate; cbn in *; [|apply IH].
    inversion Hf as [E]. rewrite E. reflexivity.
Qed.

Lemma search_find fl r (f : str -> option str) :
  (forall pos s, option_map m_groups (match_at fl r pos s) =
                 option_map (fun t => [(1, t)]) (f s)) ->
  forall s, option_map (fun m => group m 1) (search r s fl) =
            option_map Some (find_first f s).
Proof. intros Hf s. apply search_from_find, Hf. Qed.

Lemma extract_title_eq s :
  extract_title s =
  Ok (match find_first title_at s with Some t => strip t | None => [] end).
Proof.
  unfold extract_title, group_strip.
  pose proof (search_find flag_I title_re title_at match_at_title s) as H.
  destruct (search title_re s flag_I), (find_first title_at s);
    try discriminate; cbn in H; [|reflexivity].
  inversion H as [E]. rewrite E. reflexivity.
Qed.

Lemma extract_summary_eq s :
  extract_summary s =
  Ok (match find_first summary_at s with Some t => strip t | None => [] end).
Proof.
  unfold extract_summary, group_strip.
  pose proof (search_find flag_SI summary_re summary_at match_at_summary s) as H.
  destruct (search summary_re s flag_SI), (find_first summary_at s);
    try discriminate; cbn in H; [|reflexivity].
  inversion H as [E]. rewrite E. reflexivity.
Qed.

Lemma extract_key_topics_eq s :
  extract_key_topics s =
  match find_first topics_at s with
  | Some t => key_topic_loop [] (split NL t)
  | None => Ok []
  end.
Proof.
  unfold extract_key_topics, group_str.
  pose proof (search_find flag_SI topics_re topics_at match_at_topics s) as H.
  destruct (search topics_re s flag_SI), (find_first topics_at s);
    try discriminate; cbn in H; [|reflexivity].
  inversion H as [E]. rewrite E. reflexivity.
Qed.

Lemma run_rep {A} fl n a pos s g (k : nat -> str -> groups -> option A) :
  run fl (Rep n a) pos s g k =
  rep n (atom_ok fl a) pos s (fun pos' s' => k pos' s' g).
Proof. reflexivity. Qed.

Lemma run_opt {A} fl r pos s g (k : nat -> str -> groups -> option A) :
  run fl (Opt r) pos s g k =
  match run fl r pos s g k with
  | Some x => Some x
  | None => k pos s g
  end.
Proof. reflexivity. Qed.

Lemma run_bol {A} fl s g (k : nat -> str -> groups -> option A) :
  run fl Bol 0 s g k = k 0 s g.
Proof. reflexivity. Qed.

(** The end of the bullet pattern: the closing bracket, [\s*] and the
    topic group. *)
Lemma run_bullet_tail pos s g m :
  run no_flags (seq [lit (s_ "]**"); Star ASpace; Group 2 (Star ADot)]) pos s g
    (fun pos' _ g' => Some {| m_start := 0; m_end := pos'; m_groups := g' |})
  = Some m ->
  exists tp, m_groups m = (2, tp) :: g.
Proof.
  rewrite run_seq_cons, run_lit.
  destruct (ok_prefix _ _ _); [|discriminate].
  rewrite run_seq_cons, run_star. intros H.
  apply star_greedy_inv in H as (n & _ & _ & H).
  rewrite (run_last_group no_flags 2 _ _ g
             (fun e g => {| m_start := 0; m_end := e; m_groups := g |})) in H.
  inversion H. eexists. reflexivity.
Qed.

Lemma mmss_shape s1 :
  (2 <=? length s1) && forallb (atom_ok no_flags ADigit) (firstn 2 s1) = true ->
  ok_prefix no_flags (s_ ":") (skipn 2 s1) = true ->
  (2 <=? length (skipn (length (s_ ":")) (skipn 2 s1))) &&
  forallb (atom_ok no_flags ADigit)
    (firstn 2 (skipn (length (s_ ":")) (skipn 2 s1))) = true ->
  fullmatch mmss_re (firstn 5 s1) no_flags = true.
Proof.
  destruct s1 as [|a [|b [|c [|d [|e s1]]]]];
    cbn -[isdecimal N.eqb]; try discriminate.
  intros D1 C1 D2. split_andb. unfold fullmatch, mmss_re.
  cbn -[isdecimal N.eqb].
  repeat match goal with H : _ = true |- _ => rewrite H; clear H end.
  reflexivity.
Qed.

Lemma hhmmss_shape s1 :
  (2 <=? length s1) && forallb (atom_ok no_flags ADigit) (firstn 2 s1) = true ->
  ok_prefix no_flags (s_ ":") (skipn 2 s1) = true ->
  (2 <=? length (skipn (length (s_ ":")) (skipn 2 s1))) &&
  forallb (atom_ok no_flags ADigit)
    (firstn 2 (skipn (length (s_ ":")) (skipn 2 s1))) = true ->
  ok_prefix no_flags (s_ ":")
    (skipn 2 (skipn (length (s_ ":")) (skipn 2 s1))) = true ->
  (2 <=? length (skipn (length (s_ ":"))
                   (skipn 2 (skipn (length (s_ ":")) (skipn 2 s1))))) &&
  forallb (atom_ok no_flags ADigit)
    (firstn 2 (skipn (length (s_ ":"))
                 (skipn 2 (skipn (length (s_ ":")) (skipn 2 s1))))) = true ->
  fullmatch hhmmss_re (firstn 8 s1) no_flags = true.
Proof.
  destruct s1 as [|a [|b [|c [|d [|e [|f [|g [|h s1]]]]]]]];
    cbn -[isdecimal N.eqb]; try discriminate.
  intros D1 C1 D2 C2 D3. split_andb. unfold fullmatch, hhmmss_re.
  cbn -[isdecimal N.eqb].
  repeat match goal with H : _ = true |- _ => rewrite H; clear H end.
  reflexivity.
Qed.

Lemma bullet_inv line m :
  rematch bullet_re line no_flags = Some m ->
  exists ts tp, m_groups m = [(2, tp); (1, ts)] /\ timestamp_shape ts.
Proof.
  unfold rematch, match_at, bullet_re. rewrite run_seq_cons, run_bol.
  rewrite run_seq_cons, run_lit. head_if C0. clear C0.
  generalize (skipn (length (s_ "- **[")) line) as s1.
  generalize (0 + length (s_ "- **[")) as p1. intros p1 s1.
  rewrite run_seq_cons, run_group, run_seq_cons, run_rep, rep_eq. head_if D1.
  rewrite run_seq_cons, run_lit. head_if C1.
  rewrite run_seq_cons, run_rep, rep_eq. head_if D2.
  rewrite run_seq_cons, run_opt, run_seq_nil.
  destruct (run _ (seq [lit (s_ ":"); Rep 2 ADigit]) _ _ _ _) as [m'|] eqn:E.
  - intros H; inversion H as [Hm]; rewrite Hm in E; clear H Hm.
    rewrite run_seq_cons, run_lit in E. head_if C2.
    rewrite run_seq_cons, run_rep, rep_eq in E. head_if D3.
    rewrite run_seq_nil in E. apply run_bullet_tail in E as [tp E].
    eexists _, tp. split; [exact E|]. right.
    replace (p1 + 2 + length (s_ ":") + 2 + length (s_ ":") + 2 - p1)
      with 8 by (cbn; lia).
    apply hhmmss_shape; assumption.
  - intros H. apply run_bullet_tail in H as [tp H].
    eexists _, tp. split; [exact H|]. left.
    replace (p1 + 2 + length (s_ ":") + 2 - p1) with 5 by (cbn; lia).
    apply mmss_shape; assumption.
Qed.

(** * Facts about [split] and [strip] *)

Lemma split_nonempty sep s : split sep s <> [].
Proof.
  destruct s as [|c s]; simpl; [discriminate|].
  destruct (c =? sep)%N; [discriminate|]. destruct (split sep s); discriminate.
Qed.

Lemma split_app sep a b :
  split sep (a ++ sep :: b) = split sep a ++ split sep b.
Proof.
  induction a as [|c a IH]; simpl.
  - rewrite N.eqb_refl. reflexivity.
  - destruct (c =? sep)%N; rewrite IH; [reflexivity|].
    pose proof (split_nonempty sep a) as Hne.
    destruct (split sep a); [contradiction|reflexivity].
Qed.

Lemma lstrip_idem s : lstrip (lstrip s) = lstrip s.
Proof.
  induction s as [|c s IH]; simpl; [reflexivity|].
  destruct (isspace c) eqn:E; [exact IH|]. simpl. rewrite E. reflexivity.
Qed.

Lemma lstrip_head s c t : lstrip s = c :: t -> isspace c = false.
Proof.
  induction s as [|d s IH]; simpl; [discriminate|].
  destruct (isspace d) eqn:E; [exact IH|]. intros H. inversion H; subst. exact E.
Qed.

Lemma lstrip_snoc l c :
  isspace c = false -> exists l', lstrip (l ++ [c]) = l' ++ [c].
Proof.
  intros Hc. induction l as [|d l IH]; simpl.
  - rewrite Hc. exists []. reflexivity.
  - destruct (isspace d); [exact IH|]. exists (d :: l). reflexivity.
Qed.

Lemma rstrip_idem s : rstrip (rstrip s) = rstrip s.
Proof. unfold rstrip. rewrite rev_involutive, lstrip_idem. reflexivity. Qed.

Lemma rstrip_keeps_head c t :
  isspace c = false -> exists t', rstrip (c :: t) = c :: t'.
Proof.
  intros Hc. unfold rstrip. simpl.
  destruct (lstrip_snoc (rev t) c Hc) as [l' ->].
  rewrite rev_app_distr. simpl. eauto.
Qed.

Lemma rstrip_nil : rstrip [] = [].
Proof. reflexivity. Qed.

(** [strip] is idempotent: a stripped string has no whitespace at its ends. *)
Lemma strip_idem s : strip (strip s) = strip s.
Proof.
  unfold strip. destruct (lstrip s) as [|c t] eqn:E.
  - reflexivity.
  - apply lstrip_head in E. destruct (rstrip_keeps_head c t E) as [t' Ht].
    rewrite Ht. simpl. rewrite E. rewrite <- Ht. apply rstrip_idem.
Qed.

Lemma find_first_inv {A} (f : str -> option A) s x :
  find_first f s = Some x ->
  exists pre s', s = pre ++ s' /\ f s' = Some x /\
    forall j, j < length pre -> f (skipn j s) = None.
Proof.
  induction s as [|c s IH]; cbn [find_first]; intros H.
  - destruct (f []) eqn:E; [|discriminate]. inversion H; subst.
    exists [], []. repeat split; auto. simpl. lia.
  - destruct (f (c :: s)) eqn:E.
    + inversion H; subst. exists [], (c :: s). repeat split; auto.
      simpl. lia.
    + destruct (IH H) as (pre & s' & -> & Hf & Hmin).
      exists (c :: pre), s'. repeat split; auto.
      intros [|j] Hj; simpl in *; [exact E|]. apply Hmin. lia.
Qed.

Lemma find_first_at {A} (f : str -> option A) pre s' x :
  f s' = Some x ->
  (forall j, j < length pre -> f (skipn j (pre ++ s')) = None) ->
  find_first f (pre ++ s') = Some x.
Proof.
  induction pre as [|c pre IH]; intros Hf Hmin.
  - simpl. destruct s'; cbn [find_first]; rewrite Hf; reflexivity.
  - pose proof (Hmin 0 ltac:(simpl; lia)) as H0. rewrite skipn_O in H0.
    cbn [app find_first] in *. rewrite H0.
    apply IH; auto. intros j Hj. apply (Hmin (S j)). simpl. lia.
Qed.

Lemma after_heading_split fl l s rest :
  after_heading fl l s = Some rest -> exists h, s = h ++ rest.
Proof.
  intros H. apply after_heading_length in H as [_ (n & -> & _)].
  exists (firstn n s). symmetry. apply firstn_skipn.
Qed.

(** The lines of the key-topics text are lines of the input. *)
Lemma topics_lines s t l :
  find_first topics_at s = Some t -> In l (split NL t) -> In l (split NL s).
Proof.
  intros H Hl. apply find_first_inv in H as (pre & s' & -> & H & _).
  unfold topics_at in H.
  destruct (after_heading flag_SI TOPICS_HEAD s') as [[|c rest]|] eqn:E;
    try discriminate.
  destruct (c =? NL)%N eqn:Ec; [|discriminate]. inversion H; subst.
  apply N.eqb_eq in Ec. subst c.
  apply after_heading_split in E as [h ->].
  rewrite app_assoc, split_app. apply in_or_app. right. exact Hl.
Qed.

(** * The loop over the key-topic lines *)

Lemma key_topic_step_spec acc line :
  exists acc', key_topic_step acc line = Ok acc' /\
    (bullet_line line = false -> acc' = acc) /\
    (Forall topic_ok acc -> Forall topic_ok acc').
Proof.
  unfold key_topic_step, bullet_line.
  destruct (rematch bullet_re (strip line) no_flags) as [m|] eqn:E.
  - apply bullet_inv in E as (ts & tp & Hg & Hts).
    unfold group_str, group_strip, group. rewrite Hg. cbn.
    eexists. split; [reflexivity|]. split; [discriminate|].
    intros H. apply Forall_app. split; [exact H|].
    constructor; [|constructor]. split; [exact Hts|apply strip_idem].
  - exists acc. repeat split; auto.
Qed.

Lemma key_topic_loop_spec lines : forall acc,
  exists out, key_topic_loop acc lines = Ok out /\
    ((forall l, In l lines -> bullet_line l = false) -> out = acc) /\
    (Forall topic_ok acc -> Forall topic_ok out).
Proof.
  induction lines as [|line lines IH]; intros acc; cbn [key_topic_loop].
  - exists acc. repeat split; auto.
  - destruct (key_topic_step_spec acc line) as (acc' & -> & Hnone & Hok).
    destruct (IH acc') as (out & Hout & Hnone' & Hok').
    exists out. cbn. split; [exact Hout|]. split.
    + intros H. rewrite Hnone', Hnone; auto using in_eq, in_cons.
    + auto.
Qed.

Lemma extract_key_topics_spec s :
  exists kts, extract_key_topics s = Ok kts /\
    ((forall l, In l (split NL s) -> bullet_line l = false) -> kts = []) /\
    Forall topic_ok kts.
Proof.
  rewrite extract_key_topics_eq.
  destruct (find_first topics_at s) as [t|] eqn:E.
  - destruct (key_topic_loop_spec (split NL t) []) as (out & Hout & Hnone & Hok).
    exists out. split; [exact Hout|]. split; [|auto].
    intros H. apply Hnone. intros l Hl. apply H. eapply topics_lines; eauto.
  - exists []. repeat split; auto.
Qed.

(** * The title fallbacks *)

Lemma split_head_notnl s :
  exists ls, split NL s = first_line s :: ls.
Proof.
  unfold first_line. induction s as [|c s IH]; simpl.
  - eauto.
  - unfold notnl at 1. destruct (c =? NL)%N; simpl; [eauto|].
    destruct IH as [ls ->]. eauto.
Qed.

Lemma first_line_notnl s : run_len notnl (first_line s) = length (first_line s).
Proof. apply run_len_all, run_len_forallb. Qed.

Lemma run_not_ahead {A} fl r pos s g (k : nat -> str -> groups -> option A) :
  run fl (NotAhead r) pos s g k =
  match run fl r pos s g (fun _ _ _ => Some tt) with
  | Some _ => None
  | None => k pos s g
  end.
Proof. reflexivity. Qed.

Lemma rematch_first_line line :
  option_map m_groups (rematch first_line_re line no_flags) =
  if starts_with_heading line then None
  else Some [(1, firstn (run_len notnl line) line)].
Proof.
  unfold rematch, match_at, first_line_re, starts_with_heading.
  rewrite run_seq_cons, run_bol, run_seq_cons, run_not_ahead, run_lit.
  destruct (ok_prefix no_flags (s_ "##") line); [reflexivity|].
  rewrite (run_last_group no_flags 1 _ _ []
             (fun e g => {| m_start := 0; m_end := e; m_groups := g |})).
  reflexivity.
Qed.

Lemma title_from_first_line_eq title s :
  title_from_first_line title s =
  Ok (match title with
      | [] => if starts_with_heading (first_line s) then []
              else strip (first_line s)
      | _ :: _ => title
      end).
Proof.
  unfold title_from_first_line. destruct title; [|reflexivity].
  destruct (split_head_notnl s) as [ls ->]. cbn [item0 mbind result_bind].
  pose proof (rematch_first_line (first_line s)) as H.
  unfold group_strip, group.
  destruct (rematch first_line_re (first_line s) no_flags) as [m|],
           (starts_with_heading (first_line s)); try discriminate; cbn in H.
  - inversion H as [E]. rewrite E. cbn.
    fold (run_len notnl (first_line s)).
    rewrite first_line_notnl, firstn_all. reflexivity.
  - reflexivity.
Qed.

Lemma split_head_dot s :
  exists ls, split DOT s = first_sentence s :: ls.
Proof.
  unfold first_sentence. induction s as [|c s IH]; simpl.
  - eauto.
  - destruct (c =? DOT)%N; simpl; [eauto|]. destruct IH as [ls ->]. eauto.
Qed.

Lemma title_from_first_sentence_eq title summary :
  title_from_first_sentence title summary =
  Ok (match title, summary with
      | [], _ :: _ =>
          match strip (first_sentence summary) with
          | [] => []
          | t => if (100 <? length t)%nat then firstn 97 t ++ ELLIPSIS else t
          end
      | _, _ => title
      end).
Proof.
  unfold title_from_first_sentence. destruct title; [|reflexivity].
  destruct summary as [|c summary]; [reflexivity|].
  destruct (split_head_dot (c :: summary)) as [ls ->].
  cbn [item0 mbind result_bind].
  destruct (strip (first_sentence (c :: summary))); [reflexivity|].
  destruct (100 <? _)%nat; reflexivity.
Qed.

(** * The two parsers, in closed form *)

Lemma fallback_ab_eq title s summary :
  exists t2,
    title_from_first_line title s = Ok t2 /\
    title_from_first_sentence t2 summary =
    Ok (match title with [] => fallback_ab s summary | _ :: _ => title end).
Proof.
  rewrite title_from_first_line_eq. eexists. split; [reflexivity|].
  rewrite title_from_first_sentence_eq. unfold fallback_ab, shorten.
  destruct title; [|reflexivity].
  destruct (starts_with_heading (first_line s)).
  - destruct summary; [reflexivity|].
    destruct (strip (first_sentence _)); reflexivity.
  - destruct (strip (first_line s)); [|reflexivity].
    destruct summary; [reflexivity|].
    destruct (strip (first_sentence _)); reflexivity.
Qed.

Lemma title_from_summary_eq title summary :
  title_from_summary title summary =
  match title with [] => shorten 100 summary | _ :: _ => title end.
Proof.
  unfold title_from_summary, shorten.
  destruct title, summary; reflexivity.
Qed.

Lemma parse_gemini_output_eq s :
  exists kts,
    extract_key_topics s = Ok kts /\
    parse_gemini_output s =
    Ok {| title := match found_title s with
                   | [] => fallback_ab s (found_summary s)
                   | (_ :: _) as t => t
                   end;
          executive_summary := found_summary s;
          key_topics := kts |}.
Proof.
  destruct (extract_key_topics_spec s) as (kts & Hk & _).
  exists kts. split; [exact Hk|]. unfold parse_gemini_output.
  rewrite extract_title_eq, extract_summary_eq, Hk.
  cbn [mbind result_bind]. fold (found_title s) (found_summary s).
  destruct (fallback_ab_eq (found_title s) s (found_summary s))
    as (t2 & -> & H2).
  cbn [mbind result_bind]. rewrite H2. cbn [mbind result_bind mret result_ret].
  destruct (found_title s); reflexivity.
Qed.

Lemma _parse_gemini_output_eq s :
  exists kts,
    extract_key_topics s = Ok kts /\
    _parse_gemini_output s =
    Ok {| title := match found_title s with
                   | [] => fallback_abc s (found_summary s)
                   | (_ :: _) as t => t
                   end;
          executive_summary := found_summary s;
          key_topics := kts |}.
Proof.
  destruct (extract_key_topics_spec s) as (kts & Hk & _).
  exists kts. split; [exact Hk|]. unfold _parse_gemini_output.
  rewrite extract_title_eq, extract_summary_eq, Hk.
  cbn [mbind result_bind]. fold (found_title s) (found_summary s).
  destruct (fallback_ab_eq (found_title s) s (found_summary s))
    as (t2 & -> & H2).
  cbn [mbind result_bind]. rewrite H2. cbn [mbind result_bind mret result_ret].
  rewrite title_from_summary_eq.
  unfold fallback_abc.
  destruct (found_title s); [|reflexivity].
  destruct (fallback_ab s (found_summary s)); reflexivity.
Qed.

(** * The claims about the parser *)

Lemma search_none_found_title s :
  search title_re s flag_I = None -> found_title s = [].
Proof.
  intros H. pose proof (search_find flag_I title_re title_at match_at_title s) as E.
  rewrite H in E. unfold found_title.
  destruct (find_first title_at s); [discriminate|reflexivity].
Qed.

(** C1, as the code has it: for every input string the parser of
    [analyzer.py] and the parser of [agent_scraper.py] return a record and
    do not raise, and the list of key topics is empty whenever the bullet
    pattern matches no line of the input once the whitespace around the
    line is removed, which is how the loop tests a line. *)
Theorem C1_parser_never_raises (gemini_output : str) :
  exists a b,
    _parse_gemini_output gemini_output = Ok a /\
    parse_gemini_output gemini_output = Ok b /\
    ((forall line, In line (split NL gemini_output) ->
                   bullet_line line = false) ->
     key_topics a = [] /\ key_topics b = []).
Proof.
  destruct (_parse_gemini_output_eq gemini_output) as (kts & Hk & Ha).
  destruct (parse_gemini_output_eq gemini_output) as (kts' & Hk' & Hb).
  rewrite Hk in Hk'. inversion Hk'; subst kts'.
  eexists _, _. split; [exact Ha|]. split; [exact Hb|].
  intros Hnone. cbn [key_topics].
  destruct (extract_key_topics_spec gemini_output) as (kts2 & Hk2 & Hempty & _).
  rewrite Hk in Hk2. inversion Hk2; subst kts2.
  rewrite (Hempty Hnone). auto.
Qed.

Lemma C1_witness :
  exists a b,
    _parse_gemini_output no_title_input = Ok a /\
    parse_gemini_output no_title_input = Ok b /\
    key_topics a = [] /\ key_topics b = [].
Proof.
  destruct (C1_parser_never_raises no_title_input) as (a & b & Ha & Hb & Hk).
  exists a, b. split; [exact Ha|]. split; [exact Hb|]. apply Hk.
  intros line Hin. vm_compute in Hin.
  destruct Hin as [<-|[<-|[]]]; vm_compute; reflexivity.
Defined.

(** C1 as stated fails: on an indented bullet the pattern matches no line
    of the input as the line stands, and both parsers return a key topic
    all the same, because the loop strips the line before it matches. *)
Lemma C1_counterexample :
  (forall line, In line (split NL indented_bullet_input) ->
                exact_bullet_line line = false) /\
  exists a b,
    _parse_gemini_output indented_bullet_input = Ok a /\
    parse_gemini_output indented_bullet_input = Ok b /\
    key_topics a = [ {| timestamp := s_ "00:10"; topic := s_ "Setup" |} ] /\
    key_topics b = [ {| timestamp := s_ "00:10"; topic := s_ "Setup" |} ] /\
    key_topics a <> [] /\ key_topics b <> [].
Proof.
  split.
  - intros line Hin. vm_compute in Hin.
    destruct Hin as [<-|[<-|[]]]; vm_compute; reflexivity.
  - eexists _, _. split; [vm_compute; reflexivity|].
    split; [vm_compute; reflexivity|].
    repeat split; try (vm_compute; reflexivity); vm_compute; discriminate.
Qed.

(** C8, as the code has it: every key topic the parsers produce has a
    timestamp of the shape [\d{2}:\d{2}] or [\d{2}:\d{2}:\d{2}], and a topic
    without whitespace at its ends, which may be empty. *)
Theorem C8_key_topics_shape (gemini_output : str) :
  exists a b,
    _parse_gemini_output gemini_output = Ok a /\
    parse_gemini_output gemini_output = Ok b /\
    Forall topic_ok (key_topics a) /\ Forall topic_ok (key_topics b).
Proof.
  destruct (_parse_gemini_output_eq gemini_output) as (kts & Hk & Ha).
  destruct (parse_gemini_output_eq gemini_output) as (kts' & Hk' & Hb).
  rewrite Hk in Hk'. inversion Hk'; subst kts'.
  eexists _, _. split; [exact Ha|]. split; [exact Hb|]. cbn [key_topics].
  destruct (extract_key_topics_spec gemini_output) as (kts2 & Hk2 & _ & Hok).
  rewrite Hk in Hk2. inversion Hk2; subst kts2. auto.
Qed.

(** C8 as stated fails: a bullet with nothing after its timestamp yields a
    key topic whose topic is the empty string. *)
Lemma C8_counterexample :
  exists a kt,
    _parse_gemini_output empty_topic_input = Ok a /\
    In kt (key_topics a) /\ ~ KeyTopic_invariant kt.
Proof.
  eexists _, _. split; [vm_compute; reflexivity|]. split.
  - left. reflexivity.
  - intros [_ H]. apply H. reflexivity.
Qed.

(** C3, as the code has it: when the title pattern finds nothing, the title
    of [analyzer.py] is (a) the trimmed first line if the line does not
    start with [##] and is not blank; (b) otherwise, if a summary was
    extracted and its text before the first period is not blank, that text
    trimmed, cut to 97 characters and an ellipsis when longer than 100;
    (c) otherwise the summary itself, cut to its first 100 characters and
    an ellipsis only when it is longer than 100; and the script's parser
    gives the same title whenever (a) or (b) gives one. *)
Theorem C3_title_fallback_chain (gemini_output : str) :
  search title_re gemini_output flag_I = None ->
  exists a b,
    _parse_gemini_output gemini_output = Ok a /\
    parse_gemini_output gemini_output = Ok b /\
    executive_summary b = executive_summary a /\
    title a = fallback_abc gemini_output (executive_summary a) /\
    (fallback_ab gemini_output (executive_summary a) <> [] ->
     title b = fallback_ab gemini_output (executive_summary a)).
Proof.
  intros Hnone. apply search_none_found_title in Hnone.
  destruct (_parse_gemini_output_eq gemini_output) as (kts & Hk & Ha).
  destruct (parse_gemini_output_eq gemini_output) as (kts' & Hk' & Hb).
  rewrite Hnone in Ha, Hb.
  eexists _, _. split; [exact Ha|]. split; [exact Hb|].
  cbn [title executive_summary]. auto.
Qed.

Lemma C3_witness :
  exists a b,
    _parse_gemini_output no_title_input = Ok a /\
    parse_gemini_output no_title_input = Ok b /\
    executive_summary b = executive_summary a /\
    title a = fallback_abc no_title_input (executive_summary a) /\
    (fallback_ab no_title_input (executive_summary a) <> [] ->
     title b = fallback_ab no_title_input (executive_summary a)).
Proof.
  apply (C3_title_fallback_chain no_title_input). vm_compute. reflexivity.
Defined.

(** C3 as stated fails in step (c): a short summary that starts with a
    period becomes the title as it is, without an ellipsis. *)
Lemma C3_counterexample :
  search title_re dotted_summary_input flag_I = None /\
  exists a,
    _parse_gemini_output dotted_summary_input = Ok a /\
    title a = s_ ".NET rocks" /\
    claimed_title dotted_summary_input (executive_summary a)
      = s_ ".NET rocks..." /\
    title a <> claimed_title dotted_summary_input (executive_summary a).
Proof.
  split; [vm_compute; reflexivity|].
  eexists. split; [vm_compute; reflexivity|].
  split; [reflexivity|]. split; [vm_compute; reflexivity|].
  vm_compute. discriminate.
Qed.

(** Two more places where the code and the wording of the chain part: the
    whitespace of the title pattern runs over line ends, so a title may be
    found though no single line holds the pattern; and the first sentence
    is trimmed before it becomes the title. *)
Example title_found_across_lines :
  (forall line, In line (split NL split_title_input) ->
                search title_re line flag_I = None) /\
  exists a, _parse_gemini_output split_title_input = Ok a /\
            title a = s_ "Go".
Proof.
  split.
  - intros line Hin. vm_compute in Hin.
    destruct Hin as [<-|[<-|[]]]; vm_compute; reflexivity.
  - eexists. split; [vm_compute; reflexivity|reflexivity].
Qed.

Example first_sentence_trimmed :
  exists a, _parse_gemini_output spaced_sentence_input = Ok a /\
            first_sentence (executive_summary a) = s_ "Hello " /\
            title a = s_ "Hello".
Proof.
  eexists. split; [vm_compute; reflexivity|].
  split; vm_compute; reflexivity.
Qed.

(** * The summary section *)

Lemma ok_prefix_app_r fl l s r :
  ok_prefix fl l s = true -> ok_prefix fl l (s ++ r) = true.
Proof.
  revert s. induction l as [|p l IH]; intros s H; [reflexivity|].
  destruct s as [|c s]; [discriminate|]. cbn [ok_prefix app] in *.
  apply andb_true_iff in H as [-> H]. rewrite (IH _ H). reflexivity.
Qed.

Lemma lstrip_app a b : lstrip a <> [] -> lstrip (a ++ b) = lstrip a ++ b.
Proof.
  induction a as [|c a IH]; simpl; [contradiction|].
  destruct (isspace c); auto.
Qed.

Lemma after_heading_app fl l h rest :
  l <> [] ->
  after_heading fl l h = Some [] -> after_heading fl l (h ++ rest) = Some rest.
Proof.
  intros Hl H. unfold after_heading in *.
  destruct (ok_prefix fl (s_ "##") h) eqn:E1; [|discriminate].
  rewrite (ok_prefix_app_r _ _ _ rest E1).
  cbv zeta in *.
  destruct (ok_prefix fl l (lstrip (skipn 2 h))) eqn:E2; [|discriminate].
  pose proof (ok_prefix_length _ _ _ E1) as L1.
  pose proof (ok_prefix_length _ _ _ E2) as L2.
  change (length (s_ "##")) with 2 in L1.
  assert (Hne : lstrip (skipn 2 h) <> []).
  { intros E. rewrite E in L2. destruct l; [contradiction|simpl in L2; lia]. }
  rewrite skipn_app. replace (2 - length h) with 0 by lia. rewrite skipn_O.
  rewrite lstrip_app by exact Hne.
  rewrite (ok_prefix_app_r _ _ _ rest E2).
  inversion H as [E3]. rewrite skipn_app, E3.
  assert (length (lstrip (skipn 2 h)) <= length l).
  { apply (f_equal (@length _)) in E3. rewrite length_skipn in E3.
    simpl in E3. lia. }
  replace (length l - length (lstrip (skipn 2 h))) with 0 by lia.
  reflexivity.
Qed.

Lemma first_stop_at body tail :
  summary_stop tail = true ->
  (forall n, n < length body -> summary_stop (skipn n (body ++ tail)) = false) ->
  first_stop (body ++ tail) = length body.
Proof.
  intros Htail. induction body as [|c body IH]; intros Hbody.
  - simpl. destruct tail; cbn [first_stop]; rewrite Htail; reflexivity.
  - pose proof (Hbody 0 ltac:(simpl; lia)) as H0. rewrite skipn_O in H0.
    cbn [app first_stop length] in *. rewrite H0. f_equal. apply IH.
    intros n Hn. apply (Hbody (S n)). lia.
Qed.

Lemma found_summary_at pre h body tail :
  summary_heading h ->
  (forall j, j < length pre ->
     after_heading flag_SI SUMMARY_HEAD (skipn j (pre ++ h ++ body ++ tail))
     = None) ->
  summary_stop tail = true ->
  (forall n, n < length body -> summary_stop (skipn n (body ++ tail)) = false) ->
  found_summary (pre ++ h ++ body ++ tail) = strip body.
Proof.
  intros Hh Hpre Htail Hbody. unfold found_summary.
  rewrite (find_first_at summary_at pre (h ++ body ++ tail) body).
  - reflexivity.
  - unfold summary_at.
    rewrite (after_heading_app _ _ _ (body ++ tail)); [|discriminate|exact Hh].
    rewrite first_stop_at by assumption.
    rewrite firstn_app, firstn_all, Nat.sub_diag, firstn_O, app_nil_r.
    reflexivity.
  - intros j Hj. unfold summary_at. rewrite (Hpre j Hj). reflexivity.
Qed.

(** C4, as the code has it: when the text holds the heading of the summary
    pattern ([##], whitespace, the memo emoji, [ Executive Summary] in any
    case, a newline), the summary is the text between the first such
    heading and the first place after it where a blank line and the
    key-topics heading ([\n\n##], whitespace, the stopwatch emoji,
    [ Key Topics & Timestamps]) begin, or the end of the text, with the
    whitespace at its ends removed. *)
Theorem C4_summary_extraction (pre h body tail : str) :
  summary_heading h ->
  (forall j, j < length pre ->
     after_heading flag_SI SUMMARY_HEAD (skipn j (pre ++ h ++ body ++ tail))
     = None) ->
  summary_stop tail = true ->
  (forall n, n < length body -> summary_stop (skipn n (body ++ tail)) = false) ->
  exists a b,
    _parse_gemini_output (pre ++ h ++ body ++ tail) = Ok a /\
    parse_gemini_output (pre ++ h ++ body ++ tail) = Ok b /\
    executive_summary a = strip body /\ executive_summary b = strip body.
Proof.
  intros Hh Hpre Htail Hbody.
  pose proof (found_summary_at pre h body tail Hh Hpre Htail Hbody) as Hs.
  destruct (_parse_gemini_output_eq (pre ++ h ++ body ++ tail)) as (kts & _ & Ha).
  destruct (parse_gemini_output_eq (pre ++ h ++ body ++ tail)) as (kts' & _ & Hb).
  eexists _, _. split; [exact Ha|]. split; [exact Hb|].
  cbn [executive_summary]. auto.
Qed.

Lemma C4_witness :
  exists a b,
    _parse_gemini_output
      (sample_pre ++ sample_heading ++ sample_body ++ sample_tail) = Ok a /\
    parse_gemini_output
      (sample_pre ++ sample_heading ++ sample_body ++ sample_tail) = Ok b /\
    executive_summary a = strip sample_body /\
    executive_summary b = strip sample_body.
Proof.
  apply (C4_summary_extraction sample_pre sample_heading sample_body
           sample_tail).
  - vm_compute. reflexivity.
  - below 22.
  - vm_compute. reflexivity.
  - below 27.
Defined.

(** C4 as stated fails: a heading that contains "Executive Summary" but not
    the memo emoji is not taken for the heading of the summary. *)
Lemma C4_counterexample :
  claimed_summary plain_heading_input = Some (s_ "This is it.") /\
  exists a,
    _parse_gemini_output plain_heading_input = Ok a /\
    executive_summary a = [] /\
    Some (executive_summary a) <> claimed_summary plain_heading_input.
Proof.
  split; [vm_compute; reflexivity|].
  eexists. split; [vm_compute; reflexivity|]. split; [reflexivity|].
  vm_compute. discriminate.
Qed.

(** The summary does not stop at a key-topics heading that follows a single
    newline: the stop wants a blank line before the heading. *)
Example summary_runs_over_heading :
  claimed_summary single_newline_input = Some (s_ "abc") /\
  exists a, _parse_gemini_output single_newline_input = Ok a /\
            executive_summary a =
            skipn (length sample_heading) single_newline_input.
Proof.
  split; [vm_compute; reflexivity|].
  eexists. split; vm_compute; reflexivity.
Qed.

(** * The documented template *)

Lemma after_heading_not_hash fl l c x :
  (c =? 35)%N = false -> after_heading fl l (c :: x) = None.
Proof.
  intros H. unfold after_heading. change (s_ "##") with [35%N; 35%N].
  cbn [ok_prefix atom_ok]. unfold char_ieq.
  change (iscased 35%N) with false. cbv iota.
  destruct (IGNORECASE fl); rewrite H; reflexivity.
Qed.

Lemma topics_at_not_hash c x : (c =? 35)%N = false -> topics_at (c :: x) = None.
Proof.
  intros H. unfold topics_at. rewrite after_heading_not_hash by exact H.
  reflexivity.
Qed.

Lemma find_first_app_none {A} (f : str -> option A) a s :
  (forall j, j < length a -> f (skipn j (a ++ s)) = None) ->
  find_first f (a ++ s) = find_first f s.
Proof.
  induction a as [|c a IH]; intros H; [reflexivity|].
  pose proof (H 0 ltac:(simpl; lia)) as H0. rewrite skipn_O in H0.
  cbn [app find_first] in *. rewrite H0. apply IH.
  intros j Hj. apply (H (S j)). simpl. lia.
Qed.

Lemma plain_text_cons c p :
  plain_text (c :: p) = true -> (c =? 35)%N = false /\ plain_text p = true.
Proof.
  cbn [plain_text forallb]. intros H. apply andb_true_iff in H as [Hc Hp].
  apply negb_true_iff in Hc. auto.
Qed.

Lemma plain_text_skipn p j x :
  plain_text p = true -> j < length p ->
  exists c y, skipn j (p ++ x) = c :: y /\ (c =? 35)%N = false.
Proof.
  revert j. induction p as [|c p IH]; intros j Hp Hj; simpl in Hj; [lia|].
  apply plain_text_cons in Hp as [Hc Hp].
  destruct j as [|j].
  - exists c, (p ++ x). auto.
  - apply (IH j Hp). lia.
Qed.

(** Inside a paragraph without [#] the summary does not end: the break
    wants [##] two characters further on. *)
Lemma summary_stop_plain p n :
  plain_text p = true -> n < length p ->
  summary_stop (skipn n (p ++ sample_tail)) = false.
Proof.
  revert n. induction p as [|c p IH]; intros n Hp Hn; simpl in Hn; [lia|].
  apply plain_text_cons in Hp as [Hc Hp].
  destruct n as [|n]; [|apply IH; [exact Hp|lia]].
  rewrite skipn_O. unfold summary_stop, topics_break.
  rewrite orb_false_r. apply andb_false_iff. right.
  destruct p as [|c2 [|c3 p]]; cbn [app skipn].
  - reflexivity.
  - reflexivity.
  - apply plain_text_cons in Hp as [_ Hp].
    apply plain_text_cons in Hp as [Hc3 _].
    rewrite after_heading_not_hash by exact Hc3. reflexivity.
Qed.

Lemma template_topics p :
  plain_text p = true ->
  extract_key_topics (template p) = Ok (key_topics (template_analysis p)).
Proof.
  intros Hp. rewrite extract_key_topics_eq.
  change (template p)
    with ((sample_pre ++ sample_heading) ++ p ++ sample_tail).
  rewrite find_first_app_none by below 45.
  rewrite find_first_app_none.
  - vm_compute. reflexivity.
  - intros j Hj.
    destruct (plain_text_skipn p j sample_tail Hp Hj) as (c & y & -> & Hc).
    apply topics_at_not_hash, Hc.
Qed.

Lemma template_summary p :
  plain_text p = true -> found_summary (template p) = strip p.
Proof.
  intros Hp.
  change (template p)
    with (sample_pre ++ sample_heading ++ p ++ sample_tail).
  apply found_summary_at.
  - vm_compute. reflexivity.
  - below 22.
  - vm_compute. reflexivity.
  - intros n Hn. apply summary_stop_plain; assumption.
Qed.

Lemma template_title p : found_title (template p) = s_ "Intro to Go".
Proof. vm_compute. reflexivity. Qed.

(** C2: for the documented template around a summary paragraph of plain
    text (one line or several, without [#]), both parsers return the title
    "Intro to Go", the paragraph trimmed, and the two key topics 00:10
    Setup and 01:02:03 Wrap-up, in that order. *)
Theorem C2_template_parsed (paragraph : str) :
  plain_text paragraph = true ->
  _parse_gemini_output (template paragraph) = Ok (template_analysis paragraph) /\
  parse_gemini_output (template paragraph) = Ok (template_analysis paragraph).
Proof.
  intros Hp.
  destruct (_parse_gemini_output_eq (template paragraph)) as (kts & Hk & Ha).
  destruct (parse_gemini_output_eq (template paragraph)) as (kts' & Hk' & Hb).
  rewrite template_topics in Hk, Hk' by exact Hp.
  inversion Hk; subst kts. inversion Hk'; subst kts'.
  rewrite template_title, template_summary in Ha, Hb by exact Hp.
  split; [exact Ha|exact Hb].
Qed.

Lemma C2_witness :
  _parse_gemini_output (template (s_ "Go is a small language. It compiles fast."))
    = Ok (template_analysis (s_ "Go is a small language. It compiles fast.")) /\
  parse_gemini_output (template (s_ "Go is a small language. It compiles fast."))
    = Ok (template_analysis (s_ "Go is a small language. It compiles fast.")).
Proof.
  apply (C2_template_parsed (s_ "Go is a small language. It compiles fast.")).
  vm_compute. reflexivity.
Defined.

(** * The timestamp codec *)

Lemma uint_chars_digits d : forallb is_digit_char (uint_chars d) = true.
Proof. induction d; simpl; auto. Qed.

Lemma chars_uint_uint_chars d : chars_uint (uint_chars d) = Some d.
Proof. induction d; simpl; rewrite ?IHd; reflexivity. Qed.

Lemma field_value_zero_pad w d :
  zero_pad w (uint_chars d) <> [] ->
  field_value (zero_pad w (uint_chars d)) = Some (Z.of_N (N.of_uint d)).
Proof.
  unfold zero_pad. generalize (w - length (uint_chars d)) as k.
  intros k Hne. unfold field_value.
  destruct (repeat (digit_char 0) k ++ uint_chars d) eqn:E; [contradiction|].
  rewrite <- E. clear E Hne.
  assert (H : exists d', chars_uint (repeat (digit_char 0) k ++ uint_chars d)
                         = Some d' /\ N.of_uint d' = N.of_uint d).
  { induction k as [|k IH]; simpl.
    - exists d. split; [apply chars_uint_uint_chars|reflexivity].
    - destruct IH as (d' & -> & Hd'). exists (Decimal.D0 d').
      split; [reflexivity|exact Hd']. }
  destruct H as (d' & -> & Hd). cbn [option_map]. rewrite Hd. reflexivity.
Qed.

Lemma zero_pad_length w t : w <= length (zero_pad w t).
Proof. unfold zero_pad. rewrite length_app, repeat_length. lia. Qed.

Lemma fmt_02d_nonneg z :
  (0 <= z)%Z -> fmt_02d z = zero_pad 2 (uint_chars (N.to_uint (Z.abs_N z))).
Proof.
  intros H. unfold fmt_02d. destruct (z <? 0)%Z eqn:E; [|reflexivity].
  apply Z.ltb_lt in E. lia.
Qed.

Lemma field_value_fmt z : (0 <= z)%Z -> field_value (fmt_02d z) = Some z.
Proof.
  intros H. rewrite fmt_02d_nonneg by exact H.
  rewrite field_value_zero_pad.
  - rewrite DecimalN.Unsigned.of_to, N2Z.inj_abs_N. f_equal. lia.
  - intros E. pose proof (zero_pad_length 2 (uint_chars (N.to_uint (Z.abs_N z)))).
    rewrite E in *. simpl in *. lia.
Qed.

Lemma fmt_no_colon z :
  (0 <= z)%Z -> forallb (fun c => negb (c =? COLON)%N) (fmt_02d z) = true.
Proof.
  intros H. rewrite fmt_02d_nonneg by exact H. unfold zero_pad.
  rewrite forallb_app. apply andb_true_iff. split.
  - induction (2 - _); simpl; auto.
  - pose proof (uint_chars_digits (N.to_uint (Z.abs_N z))) as Hd.
    revert Hd. generalize (uint_chars (N.to_uint (Z.abs_N z))) as l.
    induction l as [|c l IH]; simpl; [reflexivity|].
    intros Hd. apply andb_true_iff in Hd as [Hc Hd]. rewrite (IH Hd), andb_true_r.
    unfold is_digit_char, COLON in *. bool_to_prop. lia.
Qed.

Lemma split_none sep s :
  forallb (fun c => negb (c =? sep)%N) s = true -> split sep s = [s].
Proof.
  induction s as [|c s IH]; simpl; [reflexivity|].
  intros H. apply andb_true_iff in H as [Hc H].
  apply negb_true_iff in Hc. rewrite Hc, (IH H). reflexivity.
Qed.

Lemma reparse_mmss m s :
  (0 <= m)%Z -> (0 <= s)%Z ->
  reparse (fmt_02d m ++ [COLON] ++ fmt_02d s) = Some (m * 60 + s)%Z.
Proof.
  intros Hm Hs. unfold reparse. cbn [app].
  rewrite split_app, !split_none by (apply fmt_no_colon; assumption).
  cbn [app map]. rewrite !field_value_fmt by assumption. reflexivity.
Qed.

Lemma reparse_hhmmss h m s :
  (0 <= h)%Z -> (0 <= m)%Z -> (0 <= s)%Z ->
  reparse (fmt_02d h ++ [COLON] ++ fmt_02d m ++ [COLON] ++ fmt_02d s) =
  Some (h * 3600 + m * 60 + s)%Z.
Proof.
  intros Hh Hm Hs. unfold reparse. cbn [app].
  rewrite !split_app, !split_none by (apply fmt_no_colon; assumption).
  cbn [app map]. rewrite !field_value_fmt by assumption. reflexivity.
Qed.

(** Formatting a non-negative number of seconds and reading it back. *)
Lemma reparse_format_seconds n :
  (0 <= n)%Z -> reparse (format_seconds n) = Some n.
Proof.
  intros Hn. unfold format_seconds, divmod.
  destruct (0 <? n / 60 / 60)%Z eqn:E.
  - rewrite reparse_hhmmss; [f_equal| | |];
      try (apply Z.ltb_lt in E); Z.div_mod_to_equations; lia.
  - apply Z.ltb_ge in E. rewrite reparse_mmss; [f_equal| |];
      Z.div_mod_to_equations; lia.
Qed.

(** A number of seconds below zero is formatted like its residue modulo
    the hour. *)
Lemma format_seconds_negative n :
  (n <= 0)%Z -> format_seconds n = format_seconds (n mod 3600).
Proof.
  intros Hn. unfold format_seconds, divmod.
  assert (H1 : (0 <? n / 60 / 60)%Z = false).
  { apply Z.ltb_ge. Z.div_mod_to_equations. lia. }
  assert (H2 : (0 <? n mod 3600 / 60 / 60)%Z = false).
  { apply Z.ltb_ge. Z.div_mod_to_equations. lia. }
  rewrite H1, H2.
  replace ((n mod 3600 / 60) mod 60)%Z with ((n / 60) mod 60)%Z
    by (Z.div_mod_to_equations; lia).
  replace ((n mod 3600) mod 60)%Z with (n mod 60)%Z
    by (Z.div_mod_to_equations; lia).
  reflexivity.
Qed.

Lemma py_int_nonneg x :
  nonneg_finite x = true ->
  exists n, py_int x = Ok n /\ float_floor x = Some n /\ (0 <= n)%Z.
Proof.
  destruct x as [s| | |[|] m e]; try discriminate; intros _.
  - exists 0%Z. repeat split; auto. lia.
  - cbn [py_int float_floor]. eexists. split; [reflexivity|].
    split; [reflexivity|].
    destruct (0 <=? e)%Z eqn:E.
    + apply Z.mul_nonneg_nonneg; [lia|]. apply Z.pow_nonneg. lia.
    + apply Z.leb_gt in E.
      apply Z.div_pos; [lia|]. apply Z.pow_pos_nonneg; lia.
Qed.

Lemma py_int_negative x :
  negative_finite x = true -> exists n, py_int x = Ok n /\ (n <= 0)%Z.
Proof.
  destruct x as [s| | |[|] m e]; try discriminate; intros _.
  cbn [py_int]. eexists. split; [reflexivity|].
  apply Z.opp_nonpos_nonneg. destruct (0 <=? e)%Z eqn:E.
  - apply Z.mul_nonneg_nonneg; [lia|]. apply Z.pow_nonneg. lia.
  - apply Z.leb_gt in E.
    apply Z.div_pos; [lia|]. apply Z.pow_pos_nonneg; lia.
Qed.

(** * The claims about the timestamp codec *)

(** C9: for every float that is a number and is not negative, the output of
    [format_timestamp], read back as H:M:S when it has three fields and as
    M:S when it has two, is the floor of the input; and 65, 3661 and 0 are
    rendered 01:05, 01:01:01 and 00:00. *)
Theorem C9_timestamp_round_trip :
  (forall x, nonneg_finite x = true ->
     exists out n, format_timestamp x = Ok out /\
                   float_floor x = Some n /\ reparse out = Some n) /\
  format_timestamp (float_of_pos 65) = Ok (s_ "01:05") /\
  format_timestamp (float_of_pos 3661) = Ok (s_ "01:01:01") /\
  format_timestamp (S754_zero false) = Ok (s_ "00:00").
Proof.
  split; [|repeat split; vm_compute; reflexivity].
  intros x Hx. destruct (py_int_nonneg x Hx) as (n & Hn & Hf & Hpos).
  exists (format_seconds n), n. unfold format_timestamp. rewrite Hn.
  split; [reflexivity|]. split; [exact Hf|].
  apply reparse_format_seconds, Hpos.
Qed.

Lemma C9_witness :
  exists out n, format_timestamp (float_of_pos 3661) = Ok out /\
                float_floor (float_of_pos 3661) = Some n /\
                reparse out = Some n.
Proof.
  apply (proj1 C9_timestamp_round_trip (float_of_pos 3661)). reflexivity.
Defined.



(** * The orchestrators *)

Lemma emits_only_ret P {A} (a : A) : emits_only P (mret a).
Proof.
  intros w r w' H. inversion H; subst. exists [].
  split; [symmetry; apply app_nil_r|constructor].
Qed.

Lemma emits_only_lift P {A} (x : result A) : emits_only P (lift x).
Proof.
  intros w r w' H. inversion H; subst. exists [].
  split; [symmetry; apply app_nil_r|constructor].
Qed.

Lemma emits_only_emit (P : event -> Prop) ev : P ev -> emits_only P (emit ev).
Proof.
  intros Hev w r w' H. inversion H; subst. exists [ev]. simpl. auto.
Qed.

Lemma emits_only_bind P {A B} (m : M A) (f : A -> M B) :
  emits_only P m -> (forall a, emits_only P (f a)) -> emits_only P (m ≫= f).
Proof.
  intros Hm Hf w r w' H. unfold mbind, M_bind in H.
  destruct (m w) as [[[a|e] w1]|] eqn:E; [| |discriminate].
  - destruct (Hm _ _ _ E) as (evs1 & E1 & F1).
    destruct (Hf a _ _ _ H) as (evs2 & E2 & F2).
    exists (evs1 ++ evs2). rewrite E2, E1, app_assoc. split; auto.
    apply Forall_app; auto.
  - inversion H; subst. eauto.
Qed.

Lemma emits_only_call P {A} ev (x : result A) :
  P ev -> emits_only P (call ev x).
Proof.
  intros Hev. unfold call. apply emits_only_bind.
  - apply emits_only_emit, Hev.
  - intros _. apply emits_only_lift.
Qed.

Lemma emits_only_try P {A} (m : M A) h :
  emits_only P m -> (forall e, emits_only P (h e)) ->
  emits_only P (try_except m h).
Proof.
  intros Hm Hh w r w' H. unfold try_except in H.
  destruct (m w) as [[[a|e] w1]|] eqn:E; [| |discriminate].
  - inversion H; subst. eauto.
  - destruct (Hm _ _ _ E) as (evs1 & E1 & F1).
    destruct (Hh e _ _ _ H) as (evs2 & E2 & F2).
    exists (evs1 ++ evs2). rewrite E2, E1, app_assoc. split; auto.
    apply Forall_app; auto.
Qed.

Lemma no_download_forall tr : Forall not_download tr -> no_download tr.
Proof.
  intros H url output Hin. rewrite List.Forall_forall in H.
  exact (H _ Hin).
Qed.

Lemma analyzer_transcript_emits e segs :
  emits_only not_download (Analyzer.analyze_transcript_data e segs).
Proof.
  unfold Analyzer.analyze_transcript_data.
  apply emits_only_bind; [apply emits_only_lift|]. intros full_text.
  apply emits_only_try.
  - apply emits_only_bind; [apply emits_only_call; exact I|].
    intros. apply emits_only_lift.
  - intros. apply emits_only_lift.
Qed.

Lemma agent_transcript_emits e segs :
  emits_only not_download (AgentScraper.analyze_transcript_data e segs).
Proof.
  unfold AgentScraper.analyze_transcript_data.
  apply emits_only_bind; [apply emits_only_lift|]. intros full_text.
  apply emits_only_bind; [apply emits_only_call; exact I|].
  intros. apply emits_only_lift.
Qed.

Lemma auto_transcript_emits e segs :
  emits_only not_download (AutoScraper.analyze_transcript_data e segs).
Proof.
  unfold AutoScraper.analyze_transcript_data.
  apply emits_only_bind; [apply emits_only_lift|]. intros full_text.
  apply emits_only_bind; [apply emits_only_call; exact I|].
  intros. apply emits_only_call. exact I.
Qed.

Lemma main_plan_a e url fuel fs vid segs :
  Main.scraper_get_video_id url = Ok (Some vid) -> vid <> [] ->
  fetch_transcript e vid = Ok segs -> segs <> [] ->
  succeeds (Analyzer.analyze_transcript_data e segs) ->
  exists r w', Main.main e url fuel (init fs) = Some (r, w') /\
               no_download (trace w').
Proof.
  intros Hid Hne Hfetch Hsegs Hok. unfold Main.main.
  rewrite Hid.
  destruct vid as [|c vid]; [contradiction|].
  destruct segs as [|seg segs]; [contradiction|].
  unfold Main.scraper_fetch_transcript. unfold_monad. rewrite Hfetch.
  run_analysis Hok analyzer_transcript_emits v w2 evs.
  eexists _, _. split; [reflexivity|]. cbn [trace]. rewrite Etr.
  apply no_download_forall. cbn [trace init app].
  solve_forall.
Qed.

Lemma agent_plan_a e url fuel fs vid segs :
  Script.get_video_id url = Ok (Some vid) -> vid <> [] ->
  fetch_transcript e vid = Ok segs ->
  succeeds (AgentScraper.analyze_transcript_data e segs) ->
  exists r w', AgentScraper.run_agent e url fuel (init fs) = Some (r, w') /\
               no_download (trace w').
Proof.
  intros Hid Hne Hfetch Hok. unfold AgentScraper.run_agent.
  rewrite Hid.
  destruct vid as [|c vid]; [contradiction|].
  unfold_monad. rewrite Hfetch.
  run_analysis Hok agent_transcript_emits v w2 evs.
  eexists _, _. split; [reflexivity|]. rewrite Etr.
  apply no_download_forall. cbn [trace init app].
  solve_forall.
Qed.

Lemma auto_plan_a e url fuel fs vid segs :
  Script.get_video_id url = Ok (Some vid) -> vid <> [] ->
  fetch_transcript e vid = Ok segs ->
  succeeds (AutoScraper.analyze_transcript_data e segs) ->
  exists r w', AutoScraper.run_agent e url fuel (init fs) = Some (r, w') /\
               no_download (trace w').
Proof.
  intros Hid Hne Hfetch Hok. unfold AutoScraper.run_agent.
  rewrite Hid.
  destruct vid as [|c vid]; [contradiction|].
  unfold_monad. rewrite Hfetch.
  run_analysis Hok auto_transcript_emits v w2 evs.
  eexists _, _. split; [reflexivity|]. cbn [trace]. rewrite Etr.
  apply no_download_forall. cbn [trace init app].
  solve_forall.
Qed.

(** * The transcript plan *)

Lemma good_reply_parsed :
  _parse_gemini_output template_reply
    = Ok (template_analysis (s_ "Go is a small language. It compiles fast.")) /\
  parse_gemini_output template_reply
    = Ok (template_analysis (s_ "Go is a small language. It compiles fast.")).
Proof. split; vm_compute; reflexivity. Qed.

Lemma good_env_analyzer_succeeds :
  succeeds (Analyzer.analyze_transcript_data good_env good_segments).
Proof.
  intros w. unfold Analyzer.analyze_transcript_data.
  change (Prompt.render_transcript good_segments [])
    with (Ok (s_ "[00:00] hello" ++ [NL])).
  unfold_monad. cbn [generate_content good_env].
  rewrite (proj1 good_reply_parsed). eexists _, _. reflexivity.
Qed.

Lemma good_env_agent_succeeds :
  succeeds (AgentScraper.analyze_transcript_data good_env good_segments).
Proof.
  intros w. unfold AgentScraper.analyze_transcript_data.
  change (Prompt.render_transcript good_segments [])
    with (Ok (s_ "[00:00] hello" ++ [NL])).
  unfold_monad. cbn [generate_content good_env].
  rewrite (proj2 good_reply_parsed). eexists _, _. reflexivity.
Qed.

Lemma good_env_auto_succeeds :
  succeeds (AutoScraper.analyze_transcript_data good_env good_segments).
Proof.
  intros w. unfold AutoScraper.analyze_transcript_data.
  change (Prompt.render_transcript good_segments [])
    with (Ok (s_ "[00:00] hello" ++ [NL])).
  unfold_monad. cbn [generate_content read_file good_env].
  eexists _, _. reflexivity.
Qed.



(** * Files across the audio analysis *)

Lemma keeps_files_ret {A} (a : A) : keeps_files (mret a : M A).
Proof. intros w r w' H. inversion H; subst. auto. Qed.

Lemma keeps_files_lift {A} (x : result A) : keeps_files (lift x).
Proof. intros w r w' H. inversion H; subst. auto. Qed.

Lemma keeps_files_emit ev : keeps_files (emit ev).
Proof. intros w r w' H. inversion H; subst. auto. Qed.

Lemma keeps_files_bind {A B} (m : M A) (f : A -> M B) :
  keeps_files m -> (forall a, keeps_files (f a)) -> keeps_files (m ≫= f).
Proof.
  intros Hm Hf w r w' H. unfold mbind, M_bind in H.
  destruct (m w) as [[[a|e] w1]|] eqn:E; [| |discriminate].
  - destruct (Hm _ _ _ E) as [E1 E2]. destruct (Hf a _ _ _ H) as [E3 E4].
    split; congruence.
  - inversion H; subst. eauto.
Qed.

Lemma keeps_files_call {A} ev (x : result A) : keeps_files (call ev x).
Proof.
  unfold call. apply keeps_files_bind; [apply keeps_files_emit|].
  intros _. apply keeps_files_lift.
Qed.

Lemma keeps_files_try {A} (m : M A) h :
  keeps_files m -> (forall e, keeps_files (h e)) -> keeps_files (try_except m h).
Proof.
  intros Hm Hh w r w' H. unfold try_except in H.
  destruct (m w) as [[[a|e] w1]|] eqn:E; [| |discriminate].
  - inversion H; subst. eauto.
  - destruct (Hm _ _ _ E) as [E1 E2]. destruct (Hh e _ _ _ H) as [E3 E4].
    split; congruence.
Qed.

Lemma keeps_files_finally {A} (m : M A) c :
  keeps_files m -> keeps_files c -> keeps_files (finally m c).
Proof.
  intros Hm Hc w r w' H. unfold finally in H.
  destruct (m w) as [[r1 w1]|] eqn:E; [|discriminate].
  destruct (c w1) as [[[u|e] w2]|] eqn:E'; [| |discriminate];
    inversion H; subst;
    destruct (Hm _ _ _ E) as [E1 E2]; destruct (Hc _ _ _ E') as [E3 E4];
    split; congruence.
Qed.

Lemma keeps_files_set_audio_file st : keeps_files (set_audio_file st).
Proof. intros w r w' H. inversion H; subst. auto. Qed.

Lemma keeps_files_unbind : keeps_files unbind_audio_file.
Proof. intros w r w' H. inversion H; subst. auto. Qed.

Lemma keeps_files_get_audio_file : keeps_files get_audio_file.
Proof. intros w r w' H. inversion H; subst. auto. Qed.

Lemma keeps_files_upload e path : keeps_files (upload e path).
Proof.
  unfold upload. apply keeps_files_bind; [apply keeps_files_call|].
  intros st. apply keeps_files_set_audio_file.
Qed.

Lemma keeps_files_refresh e : keeps_files (refresh e).
Proof.
  intros w r w' H. unfold refresh in H.
  match type of H with
  | ?m ?w0 = _ =>
      assert (Hk : keeps_files m)
        by (apply keeps_files_bind;
            [apply keeps_files_call
            |intros st; apply keeps_files_set_audio_file]);
      apply Hk in H
  end.
  exact H.
Qed.

Lemma keeps_files_while fuel body :
  keeps_files body -> keeps_files (while_processing fuel body).
Proof.
  intros Hb. induction fuel as [|fuel IH]; intros w r w' H; simpl in H.
  - destruct (audio_file w) as [[| |]|]; try discriminate;
      inversion H; subst; auto.
  - destruct (audio_file w) as [[| |]|];
      try (inversion H; subst; auto; fail).
    revert H. apply keeps_files_bind; [exact Hb|]. intros _. exact IH.
Qed.

Lemma keeps_files_state : keeps_files Analyzer.audio_file_state.
Proof.
  unfold Analyzer.audio_file_state.
  apply keeps_files_bind; [apply keeps_files_get_audio_file|].
  intros [st|]; [apply keeps_files_ret|apply keeps_files_lift].
Qed.

Lemma analyzer_audio_keeps_files e path fuel :
  keeps_files (Analyzer.analyze_audio e path fuel).
Proof.
  unfold Analyzer.analyze_audio.
  apply keeps_files_bind; [apply keeps_files_unbind|]. intros _.
  apply keeps_files_finally.
  - apply keeps_files_try; [|intros; apply keeps_files_lift].
    apply keeps_files_bind; [apply keeps_files_upload|]. intros _.
    apply keeps_files_bind.
    { apply keeps_files_while. apply keeps_files_bind;
        [apply keeps_files_emit|intros _; apply keeps_files_refresh]. }
    intros _. apply keeps_files_bind; [apply keeps_files_state|]. intros st.
    apply keeps_files_bind; [apply keeps_files_call|]. intros response.
    apply keeps_files_lift.
  - apply keeps_files_bind; [apply keeps_files_get_audio_file|].
    intros [st|]; [|apply keeps_files_ret].
    destruct (negb _); [apply keeps_files_call|apply keeps_files_ret].
Qed.

Lemma auto_audio_keeps_files e path fuel :
  keeps_files (AutoScraper.analyze_audio e path fuel).
Proof.
  unfold AutoScraper.analyze_audio.
  apply keeps_files_bind; [apply keeps_files_unbind|]. intros _.
  apply keeps_files_bind; [apply keeps_files_upload|]. intros _.
  apply keeps_files_bind.
  { apply keeps_files_while. apply keeps_files_bind;
      [apply keeps_files_emit|intros _; apply keeps_files_refresh]. }
  intros _. apply keeps_files_bind; [apply keeps_files_state|]. intros st.
  destruct (file_state_eqb st FAILED); [apply keeps_files_lift|].
  apply keeps_files_bind; [apply keeps_files_call|]. intros prompt.
  apply keeps_files_bind; [apply keeps_files_call|]. intros response.
  apply keeps_files_bind; [apply keeps_files_call|]. intros _.
  apply keeps_files_ret.
Qed.

(** * Cleanup of the downloaded audio *)

Lemma plan_b_body_files e url fuel w r w1 :
  audio_file_path w = None ->
  (forall p, temp_name e = Ok p -> p <> ""%string) ->
  try_except
    (_ ← Main.named_temporary_file e;
     audio_file_path ← get_audio_file_path;
     downloaded_path ←
       match audio_file_path with
       | Some path => Main.scraper_download_audio e url path
       | None => raise AttributeError
       end;
     present ← Script.downloaded downloaded_path;
     match downloaded_path, present with
     | Some path, true =>
         analysis ← Analyzer.analyze_audio e path fuel;
         mret (Some analysis)
     | _, _ => mret None
     end)
    (fun _ => mret None) w = Some (r, w1) ->
  (audio_file_path w1 = None /\ files w1 = files w) \/
  (exists p, audio_file_path w1 = Some p /\ p <> ""%string /\
             files w1 ⊆ {[p]} ∪ files w).
Proof.
  intros Hnone Hname H.
  unfold Main.named_temporary_file, Main.scraper_download_audio,
    ydl_download, Script.downloaded, path_exists, create_file,
    set_audio_file_path, get_audio_file_path in H.
  unfold_monad_in H.
  destruct (temp_name e) as [p|ex] eqn:Et.
  - specialize (Hname p eq_refl). right. exists p.
    cbn [files trace polls audio_file audio_file_path] in H.
    destruct (download e url p) as [[|]|ex] eqn:Ed;
      cbn [files trace polls audio_file audio_file_path] in H.
    + destruct (String.eqb p "") eqn:Ep.
      * apply String.eqb_eq in Ep. contradiction.
      * match type of H with
        | context [bool_decide ?P] => destruct (bool_decide P)
        end.
        -- match type of H with
           | context [Analyzer.analyze_audio e p fuel ?w0] =>
               destruct (Analyzer.analyze_audio e p fuel w0)
                 as [[[a|ex] w2]|] eqn:Ea; [| |discriminate];
               apply analyzer_audio_keeps_files in Ea as [Ef Ep'];
               inversion H; subst; clear H; cbn in Ef, Ep';
               (split; [exact Ep'|split; [exact Hname|]]);
               rewrite Ef; clear Ef; set_tauto
           end.
        -- inversion H; subst; clear H. cbn. split; [reflexivity|].
           split; [exact Hname|]. set_tauto.
    + inversion H; subst; clear H. cbn. split; [reflexivity|].
      split; [exact Hname|]. set_tauto.
    + inversion H; subst; clear H. cbn. split; [reflexivity|].
      split; [exact Hname|]. set_tauto.
  - inversion H; subst; clear H. left. auto.
Qed.

Lemma cleanup_files w r w2 (fs : gset string) :
  (audio_file_path w = None /\ files w = fs) \/
  (exists p, audio_file_path w = Some p /\ p <> ""%string /\
             files w ⊆ {[p]} ∪ fs) ->
  Main.cleanup w = Some (r, w2) -> files w2 ⊆ fs.
Proof.
  intros Hinv H.
  unfold Main.cleanup, Script.downloaded, path_exists, os_remove,
    get_audio_file_path in H.
  unfold_monad_in H.
  destruct Hinv as [[Hp Hf]|(p & Hp & Hne & Hf)]; rewrite Hp in H.
  - inversion H; subst; clear H. set_tauto.
  - destruct (String.eqb p "") eqn:Ep.
    { apply String.eqb_eq in Ep. contradiction. }
    destruct (bool_decide (p ∈ files w)) eqn:Ein.
    + rewrite Ein in H. inversion H; subst; clear H. cbn. set_tauto.
    + apply bool_decide_eq_false in Ein. inversion H; subst; clear H. set_tauto.
Qed.

(** Plan B of [main.py] leaves no file behind: whatever the download and
    the analysis do, the files after it are among the files before it. *)
Lemma main_plan_b_files e url fuel w r w' :
  audio_file_path w = None ->
  (forall p, temp_name e = Ok p -> p <> ""%string) ->
  Main.plan_b e url fuel w = Some (r, w') -> files w' ⊆ files w.
Proof.
  intros Hnone Hname H. unfold Main.plan_b, finally in H.
  match type of H with
  | match ?body w with _ => _ end = _ =>
      destruct (body w) as [[r1 w1]|] eqn:E; [|discriminate]
  end.
  apply plan_b_body_files in E; [|exact Hnone|exact Hname].
  destruct (Main.cleanup w1) as [[[u|ex] w2]|] eqn:Ec; [| |discriminate];
    inversion H; subst; clear H; eapply cleanup_files; eauto.
Qed.

(** The same for [auto_scraper.py]: once the audio is downloaded, it is
    removed whether the analysis returns or raises. *)
Lemma auto_plan_b_files e url fuel w r w' :
  try_except
    (audio_file ← Script.download_audio e url;
     present ← Script.downloaded audio_file;
     match audio_file, present with
     | Some path, true =>
         finally
           (summary ← AutoScraper.analyze_audio e path fuel;
            emit (Stdout summary))
           (os_remove path)
     | _, _ => mret tt
     end)
    (fun _ => mret tt) w = Some (r, w') ->
  "audio.mp3"%string ∉ files w -> "audio.mp3"%string ∉ files w'.
Proof.
  intros H Hnot.
  unfold Script.download_audio, ydl_download, Script.downloaded,
    path_exists, create_file, finally, os_remove in H.
  unfold_monad_in H.
  destruct (download e url "audio.mp3") as [[|]|ex] eqn:Ed;
    cbn [files trace polls audio_file audio_file_path] in H;
    try change (String.eqb "audio.mp3" "") with false in H;
    cbn [files trace polls audio_file audio_file_path] in H.
  - rewrite (bool_decide_eq_true_2 ("audio.mp3"%string ∈ {["audio.mp3"%string]} ∪ files w))
      in H by set_tauto.
    cbv beta iota in H.
    match type of H with
    | context [AutoScraper.analyze_audio e ?p fuel ?w0] =>
        destruct (AutoScraper.analyze_audio e p fuel w0)
          as [[[a|ex] w2]|] eqn:Ea; [| |discriminate];
        apply auto_audio_keeps_files in Ea as [Ef _]; cbn in Ef
    end.
    + cbn [files trace polls audio_file audio_file_path] in H.
      rewrite Ef in H.
      rewrite bool_decide_eq_true_2 in H by set_tauto.
      inversion H; subst; clear H. cbn. set_tauto.
    + rewrite Ef in H.
      rewrite bool_decide_eq_true_2 in H by set_tauto.
      inversion H; subst; clear H. cbn. set_tauto.
  - rewrite bool_decide_eq_false_2 in H by exact Hnot.
    inversion H; subst; clear H. exact Hnot.
  - inversion H; subst; clear H. exact Hnot.
Qed.

Lemma analyzer_transcript_keeps_files e segs :
  keeps_files (Analyzer.analyze_transcript_data e segs).
Proof.
  unfold Analyzer.analyze_transcript_data.
  apply keeps_files_bind; [apply keeps_files_lift|]. intros full_text.
  apply keeps_files_try; [|intros; apply keeps_files_lift].
  apply keeps_files_bind; [apply keeps_files_call|].
  intros. apply keeps_files_lift.
Qed.

Lemma auto_transcript_keeps_files e segs :
  keeps_files (AutoScraper.analyze_transcript_data e segs).
Proof.
  unfold AutoScraper.analyze_transcript_data.
  apply keeps_files_bind; [apply keeps_files_lift|]. intros full_text.
  apply keeps_files_bind; [apply keeps_files_call|].
  intros. apply keeps_files_call.
Qed.

(** [main.py] leaves no file behind, on any path: after the run the files
    are among those that were there before it. *)
Lemma main_leaves_no_file e url fuel fs r w' :
  (forall p, temp_name e = Ok p -> p <> ""%string) ->
  Main.main e url fuel (init fs) = Some (r, w') -> files w' ⊆ fs.
Proof.
  intros Hname H. unfold Main.main in H.
  unfold mbind at 1, M_bind at 1, lift at 1 in H.
  destruct (Main.scraper_get_video_id url) as [[[|c vid]|]|ex];
    try (inversion H; subst; reflexivity).
  unfold mbind at 1, M_bind at 1 in H.
  match type of H with
  | match ?pa (init fs) with _ => _ end = _ =>
      assert (Ha : keeps_files pa);
      [|destruct (pa (init fs)) as [[[res|ex] w1]|] eqn:E;
        [apply Ha in E as [Ef Ep]|apply Ha in E as [Ef Ep]|discriminate]]
  end.
  { apply keeps_files_try; [|intros; apply keeps_files_ret].
    apply keeps_files_bind; [apply keeps_files_call|].
    intros [|seg segs]; [apply keeps_files_ret|].
    apply keeps_files_bind; [apply analyzer_transcript_keeps_files|].
    intros. apply keeps_files_ret. }
  - unfold mbind at 1, M_bind at 1 in H.
    destruct res as [analysis|].
    + cbn in H. inversion H; subst. cbn. rewrite Ef. reflexivity.
    + destruct (Main.plan_b e url fuel w1) as [[[res|ex] w2]|] eqn:Eb;
        [| |discriminate];
        apply main_plan_b_files in Eb; try assumption;
        rewrite Ef in Eb; cbn in Eb.
      * destruct res; cbn in H; inversion H; subst; exact Eb.
      * inversion H; subst. exact Eb.
  - inversion H; subst. rewrite Ef. reflexivity.
Qed.

(** [auto_scraper.py] leaves no audio file behind, on any path. *)
Lemma auto_leaves_no_audio e url fuel fs r w' :
  "audio.mp3"%string ∉ fs ->
  AutoScraper.run_agent e url fuel (init fs) = Some (r, w') ->
  "audio.mp3"%string ∉ files w'.
Proof.
  intros Hnot H. unfold AutoScraper.run_agent in H.
  unfold mbind at 1, M_bind at 1, lift at 1 in H.
  destruct (Script.get_video_id url) as [[[|c vid]|]|ex];
    try (inversion H; subst; exact Hnot).
  unfold mbind at 1, M_bind at 1 in H.
  match type of H with
  | match ?pa (init fs) with _ => _ end = _ =>
      assert (Ha : keeps_files pa);
      [|destruct (pa (init fs)) as [[[res|ex] w1]|] eqn:E;
        [apply Ha in E as [Ef Ep]|apply Ha in E as [Ef Ep]|discriminate]]
  end.
  { apply keeps_files_try; [|intros; apply keeps_files_ret].
    apply keeps_files_bind; [apply keeps_files_call|]. intros segs.
    apply keeps_files_bind; [apply auto_transcript_keeps_files|]. intros.
    apply keeps_files_bind; [apply keeps_files_emit|]. intros.
    apply keeps_files_ret. }
  - destruct res.
    + inversion H; subst. rewrite Ef. exact Hnot.
    + apply auto_plan_b_files in H; [exact H|]. rewrite Ef. exact Hnot.
  - inversion H; subst. rewrite Ef. exact Hnot.
Qed.

(** C5 on [agent_scraper.py]: on the day the transcript is missing, the
    download works and the generation request fails, the run ends with
    the downloaded audio file still there and without any removal. *)
Theorem C5_agent_scraper_leaves_audio :
  exists w',
    AgentScraper.run_agent audio_failure_env sample_url 1 (init ∅)
      = Some (Ok None, w') /\
    In (DownloadAudio sample_url "audio.mp3") (trace w') /\
    "audio.mp3"%string ∈ files w' /\
    ~ In (Remove "audio.mp3") (trace w').
Proof.
  eexists. split; [vm_compute; reflexivity|]. split; [|split].
  - vm_compute. auto.
  - apply (bool_decide_unpack _). vm_compute. exact I.
  - vm_compute. intros H.
    repeat (destruct H as [H|H]; [discriminate|]). exact H.
Qed.

(** * The state of the upload *)

Lemma while_processing_done fuel body w w' :
  while_processing fuel body w = Some (Ok tt, w') ->
  audio_file w' <> Some PROCESSING.
Proof.
  revert w. induction fuel as [|fuel IH]; intros w H; simpl in H.
  - destruct (audio_file w) as [[| |]|] eqn:E; try discriminate;
      inversion H; subst; rewrite E; discriminate.
  - destruct (audio_file w) as [[| |]|] eqn:E;
      try (inversion H; subst; rewrite E; discriminate).
    unfold mbind, M_bind in H.
    destruct (body w) as [[[u|ex] w1]|]; try discriminate.
    apply (IH _ H).
Qed.

(** When the loop of [auto_scraper.py] is left by an exception, the file
    was still being processed. *)
Lemma while_processing_raised e fuel seconds w ex w' :
  while_processing fuel (_ ← emit (Sleep seconds); refresh e) w
    = Some (Raise ex, w') ->
  audio_file w' = Some PROCESSING.
Proof.
  revert w. induction fuel as [|fuel IH]; intros w H; simpl in H.
  - destruct (audio_file w) as [[| |]|]; discriminate.
  - destruct (audio_file w) as [[| |]|] eqn:E; try discriminate.
    unfold mbind at 1, M_bind at 1 in H.
    match type of H with
    | match ?body w with _ => _ end = _ =>
        destruct (body w) as [[[u|ex'] w1]|] eqn:Eb; [| |discriminate]
    end.
    + apply (IH _ H).
    + inversion H; subst. unfold refresh in Eb. unfold_monad_in Eb.
      cbn in Eb. destruct (get_file e (polls w)); inversion Eb; subst.
      cbn. exact E.
Qed.

Lemma bind_inv {A B} (m : M A) (f : A -> M B) w r w' :
  (m ≫= f) w = Some (r, w') ->
  (exists a w1, m w = Some (Ok a, w1) /\ f a w1 = Some (r, w')) \/
  (exists ex, m w = Some (Raise ex, w') /\ r = Raise ex).
Proof.
  unfold mbind, M_bind. destruct (m w) as [[[a|ex] w1]|]; intros H.
  - left. eauto.
  - right. inversion H; subst. eauto.
  - discriminate.
Qed.

Lemma emits_only_silent P {A} (m : M A) :
  (forall w r w', m w = Some (r, w') -> trace w' = trace w) ->
  emits_only P m.
Proof.
  intros Hm w r w' H. exists []. rewrite (Hm _ _ _ H).
  split; [symmetry; apply app_nil_r|constructor].
Qed.

Lemma emits_only_upload P e path :
  P (UploadFile path) -> emits_only P (upload e path).
Proof.
  intros HP. unfold upload. apply emits_only_bind.
  - apply emits_only_call, HP.
  - intros st. apply emits_only_silent. intros w r w' H.
    inversion H; subst. reflexivity.
Qed.

Lemma emits_only_refresh P e : P GetFile -> emits_only P (refresh e).
Proof.
  intros HP w r w' H. unfold refresh in H.
  match type of H with
  | ?m ?w0 = _ =>
      assert (Hm : emits_only P m)
        by (apply emits_only_bind;
            [apply emits_only_call, HP
            |intros st; apply emits_only_silent;
             intros w1 r1 w1' H1; inversion H1; subst; reflexivity]);
      apply Hm in H
  end.
  exact H.
Qed.

Lemma emits_only_while P fuel body :
  emits_only P body -> emits_only P (while_processing fuel body).
Proof.
  intros Hb. induction fuel as [|fuel IH]; intros w r w' H; simpl in H.
  - destruct (audio_file w) as [[| |]|]; try discriminate;
      inversion H; subst; exists [];
      (split; [symmetry; apply app_nil_r|constructor]).
  - destruct (audio_file w) as [[| |]|];
      try (inversion H; subst; exists [];
           (split; [symmetry; apply app_nil_r|constructor]); fail).
    revert H. apply emits_only_bind; [exact Hb|]. intros _. exact IH.
Qed.

(** [auto_scraper.py] does what C7 says: a run of its audio analysis that
    ends with the file in the state FAILED has raised [ValueError], and has
    not submitted a generation request. *)
Lemma auto_audio_raises_on_failed e path fuel w r w' :
  AutoScraper.analyze_audio e path fuel w = Some (r, w') ->
  audio_file w' = Some FAILED ->
  r = Raise ValueError /\
  exists evs, trace w' = trace w ++ evs /\ Forall not_generate_audio evs.
Proof.
  intros H Hfailed. unfold AutoScraper.analyze_audio in H.
  apply bind_inv in H as [(u0 & w0 & E0 & H)|(ex & E0 & _)];
    [|discriminate E0].
  assert (Hw0 : trace w0 = trace w /\ audio_file w0 = None)
    by (inversion E0; subst; auto).
  destruct Hw0 as [Ht0 Ha0]. clear E0.
  apply bind_inv in H as [(u1 & w1 & E1 & H)|(ex & E1 & ->)].
  2:{ exfalso. unfold upload in E1.
      apply bind_inv in E1 as [(st & w2 & E2 & E3)|(ex' & E2 & _)];
        [discriminate E3|].
      unfold_monad_in E2. cbn in E2.
      destruct (upload_file e path); inversion E2; subst.
      cbn in Hfailed. congruence. }
  destruct (emits_only_upload not_generate_audio e path I _ _ _ E1)
    as (evs1 & Et1 & F1).
  apply bind_inv in H as [(u2 & w2 & E2 & H)|(ex & E2 & ->)].
  2:{ apply while_processing_raised in E2. congruence. }
  destruct u2. pose proof (while_processing_done _ _ _ _ E2) as Hdone.
  assert (Hloop : emits_only not_generate_audio
            (while_processing fuel (_ ← emit (Sleep 2); refresh e))).
  { apply emits_only_while. apply emits_only_bind.
    - apply emits_only_emit. exact I.
    - intros _. apply emits_only_refresh. exact I. }
  destruct (Hloop _ _ _ E2) as (evs2 & Et2 & F2).
  unfold Analyzer.audio_file_state, get_audio_file in H.
  unfold_monad_in H.
  destruct (audio_file w2) as [[| |]|] eqn:Es; cbn [file_state_eqb] in H.
  - contradiction.
  - exfalso.
    destruct (read_file e _);
      [|inversion H; subst; cbn in Hfailed; congruence].
    destruct (generate_content_audio e _ _);
      [|inversion H; subst; cbn in Hfailed; congruence].
    destruct (delete_file e); inversion H; subst; cbn in Hfailed; congruence.
  - inversion H; subst. split; [reflexivity|].
    exists (evs1 ++ evs2). rewrite Et2, Et1, Ht0, app_assoc.
    split; [reflexivity|]. apply List.Forall_app. auto.
  - inversion H; subst. congruence.
Qed.

(** C7 on [analyzer.py]: when the upload ends in the state FAILED, the
    audio analysis does not raise but submits the generation request with
    the failed file. *)
Theorem C7_analyzer_submits_failed_file (fuel : nat) :
  exists a w',
    Analyzer.analyze_audio failed_upload_env "audio.mp3" fuel (init ∅)
      = Some (Ok a, w') /\
    audio_file w' = Some FAILED /\
    In (GenerateContentAudio Prompt.audio_prompt FAILED) (trace w').
Proof.
  destruct fuel; eexists _, _;
    (split; [vm_compute; reflexivity|]); (split; [reflexivity|]);
    vm_compute; auto.
Qed.

(** * The video id of a URL *)

Lemma split_str_single c s : split_str [c] 0 s = split c s.
Proof.
  induction s as [|x s IH]; [reflexivity|].
  cbn [split_str split startswith length Nat.sub].
  rewrite andb_true_r, (N.eqb_sym c x).
  destruct (x =? c)%N; rewrite IH; reflexivity.
Qed.

Lemma split_str_nonempty sep s : forall k, split_str sep k s <> [].
Proof.
  induction s as [|x s IH]; intros k; cbn [split_str]; [discriminate|].
  destruct k; [|apply IH].
  destruct (startswith sep (x :: s)); [discriminate|].
  destruct (split_str sep 0 s); discriminate.
Qed.

Lemma split_str_two sep s :
  sep <> [] -> contains sep s = true ->
  exists a b rest, split_str sep 0 s = a :: b :: rest.
Proof.
  intros Hsep. induction s as [|x s IH]; intros H.
  - destruct sep; [congruence|discriminate].
  - cbn [contains] in H. cbn [split_str].
    destruct (startswith sep (x :: s)) eqn:E.
    + destruct (split_str sep (length sep - 1) s) as [|b rest] eqn:E2.
      * exfalso. exact (split_str_nonempty _ _ _ E2).
      * eauto.
    + cbn [orb] in H. destruct (IH H) as (a & b & rest & ->). eauto.
Qed.

Lemma item_last_split sep s k : exists x, Script.item_last (split_str sep k s) = Ok x.
Proof.
  unfold Script.item_last.
  destruct (rev (split_str sep k s)) eqn:E; [|eauto].
  exfalso. apply (split_str_nonempty sep s k).
  rewrite <- (rev_involutive (split_str sep k s)), E. reflexivity.
Qed.

Lemma item0_split sep s k : exists x, item0 (split_str sep k s) = Ok x.
Proof.
  destruct (split_str sep k s) eqn:E; [|cbn; eauto].
  exfalso. exact (split_str_nonempty _ _ _ E).
Qed.

Lemma get_video_id_ok url : exists r, Script.get_video_id url = Ok r.
Proof.
  unfold Script.get_video_id, mbind, result_bind, mret, result_ret.
  destruct (contains (s_ "youtu.be") url).
  - destruct (item_last_split (s_ "/") url 0) as [t ->].
    destruct (item0_split (s_ "?") t 0) as [i ->]. eauto.
  - destruct (contains (s_ "v=") url) eqn:E; [|eauto].
    destruct (split_str_two (s_ "v=") url) as (a & b & rest & ->);
      [discriminate|exact E|].
    cbn [Script.item1].
    destruct (item0_split (s_ "&") b 0) as [i ->]. eauto.
Qed.

(** X1: [get_video_id] never raises: the indexing of the pieces of the URL
    is always in range; it returns [None] exactly for a URL that holds
    neither [youtu.be] nor [v=]. *)
Theorem get_video_id_never_raises (url : str) :
  exists r, Script.get_video_id url = Ok r /\
    (r = None <->
     contains (s_ "youtu.be") url = false /\ contains (s_ "v=") url = false).
Proof.
  destruct (get_video_id_ok url) as [r Hr]. exists r. split; [exact Hr|].
  unfold Script.get_video_id, mbind, result_bind, mret, result_ret in Hr.
  destruct (contains (s_ "youtu.be") url).
  - destruct (item_last_split (s_ "/") url 0) as [t Ht]. rewrite Ht in Hr.
    destruct (item0_split (s_ "?") t 0) as [i Hi]. rewrite Hi in Hr.
    inversion Hr. split; [discriminate|intros [? _]; discriminate].
  - destruct (contains (s_ "v=") url) eqn:E.
    + destruct (split_str_two (s_ "v=") url) as (a & b & rest & Hs);
        [discriminate|exact E|]. rewrite Hs in Hr. cbn [Script.item1] in Hr.
      destruct (item0_split (s_ "&") b 0) as [i Hi].
      rewrite Hi in Hr. inversion Hr.
      split; [discriminate|intros [_ ?]; discriminate].
    + inversion Hr. tauto.
Qed.

Lemma split_lacks c s x : In x (split c s) -> lacks c x = true.
Proof.
  revert x. induction s as [|y s IH]; intros x H.
  - destruct H as [<-|[]]. reflexivity.
  - cbn [split] in H. destruct (y =? c)%N eqn:E.
    + destruct H as [<-|H]; [reflexivity|auto].
    + destruct (split c s) as [|l ls] eqn:Es.
      * destruct H as [<-|[]]. cbn. rewrite E. reflexivity.
      * destruct H as [<-|H].
        -- cbn. rewrite E. apply IH. left. reflexivity.
        -- apply IH. right. exact H.
Qed.

Lemma split_keeps_lacks d c s x :
  lacks d s = true -> In x (split c s) -> lacks d x = true.
Proof.
  revert x. induction s as [|y s IH]; intros x Hd H.
  - destruct H as [<-|[]]. reflexivity.
  - cbn [lacks forallb] in Hd. apply andb_true_iff in Hd as [Hy Hd].
    cbn [split] in H. destruct (y =? c)%N.
    + destruct H as [<-|H]; [reflexivity|auto].
    + destruct (split c s) as [|l ls] eqn:Es.
      * destruct H as [<-|[]]. cbn. rewrite Hy. reflexivity.
      * destruct H as [<-|H].
        -- cbn [lacks forallb]. rewrite Hy. apply IH; [exact Hd|left; reflexivity].
        -- apply IH; [exact Hd|right; exact H].
Qed.

Lemma lacks_app c a b : lacks c (a ++ b) = lacks c a && lacks c b.
Proof. apply forallb_app. Qed.

Lemma item_last_snoc {A} (l : list A) x : Script.item_last (l ++ [x]) = Ok x.
Proof. unfold Script.item_last. rewrite rev_app_distr. reflexivity. Qed.

Lemma item_last_in {A} (l : list A) x : Script.item_last l = Ok x -> In x l.
Proof.
  unfold Script.item_last. destruct (rev l) eqn:E; [discriminate|].
  intros H. inversion H; subst. apply in_rev. rewrite E. left. reflexivity.
Qed.

Lemma item0_in {A} (l : list A) x : item0 l = Ok x -> In x l.
Proof. destruct l; [discriminate|]. intros H. inversion H. left. reflexivity. Qed.

(** The piece before the first [c]. *)
Lemma split_head c a t :
  lacks c a = true -> opens_with c t -> exists ls, split c (a ++ t) = a :: ls.
Proof.
  intros Ha Ht. destruct t as [|x t].
  - rewrite app_nil_r, (split_none c a Ha). eauto.
  - cbn in Ht. subst x. rewrite split_app, (split_none c a Ha). cbn. eauto.
Qed.

Lemma startswith_app p s x :
  length p <= length s -> startswith p (s ++ x) = startswith p s.
Proof.
  revert s. induction p as [|a p IH]; intros s H; [reflexivity|].
  destruct s as [|b s]; [cbn in H; lia|].
  cbn [startswith app]. rewrite IH; [reflexivity|cbn in H; lia].
Qed.

Lemma startswith_refl p t : startswith p (p ++ t) = true.
Proof. induction p; cbn; [reflexivity|]. rewrite N.eqb_refl. exact IHp. Qed.

Lemma split_str_skip sep l t : split_str sep (length l) (l ++ t) = split_str sep 0 t.
Proof. induction l; [reflexivity|]. cbn [length app]. destruct t; cbn; auto. Qed.

(** The first occurrence of the separator ends the first piece. *)
Lemma split_str_first sep pre t :
  sep <> [] ->
  (forall j, j < length pre ->
     startswith sep (skipn j (pre ++ sep ++ t)) = false) ->
  split_str sep 0 (pre ++ sep ++ t) = pre :: split_str sep 0 t.
Proof.
  intros Hsep. induction pre as [|c pre IH]; intros H.
  - destruct sep as [|a sep]; [congruence|].
    cbn [app split_str]. change (a :: sep ++ t) with ((a :: sep) ++ t).
    rewrite startswith_refl. cbn [length Nat.sub]. rewrite Nat.sub_0_r.
    rewrite split_str_skip. reflexivity.
  - pose proof (H 0 ltac:(cbn; lia)) as H0. cbn [skipn app] in H0.
    cbn [app split_str]. rewrite H0.
    rewrite IH; [reflexivity|].
    intros j Hj. apply (H (S j)). cbn. lia.
Qed.

Lemma split_str_head_app sep a b :
  (forall j, j < length a -> startswith sep (skipn j (a ++ b)) = false) ->
  exists x ls, split_str sep 0 (a ++ b) = (a ++ x) :: ls.
Proof.
  induction a as [|c a IH]; intros H.
  - destruct (split_str sep 0 b) as [|x ls] eqn:E.
    + exfalso. exact (split_str_nonempty _ _ _ E).
    + exists x, ls. exact E.
  - pose proof (H 0 ltac:(cbn; lia)) as H0. cbn [skipn app] in H0.
    cbn [app split_str]. rewrite H0.
    destruct IH as (x & ls & ->).
    + intros j Hj. apply (H (S j)). cbn. lia.
    + exists x, ls. reflexivity.
Qed.

Lemma split_str_none sep s : contains sep s = false -> split_str sep 0 s = [s].
Proof.
  induction s as [|c s IH]; intros H; [reflexivity|].
  cbn [contains] in H. apply orb_false_iff in H as [H1 H2].
  cbn [split_str]. rewrite H1, (IH H2). reflexivity.
Qed.

Lemma contains_at sep pre t : contains sep (pre ++ sep ++ t) = true.
Proof.
  induction pre as [|c pre IH].
  - destruct sep as [|c sep]; cbn [app]; [destruct t; reflexivity|].
    cbn [contains]. change (c :: sep ++ t) with ((c :: sep) ++ t).
    rewrite startswith_refl. reflexivity.
  - cbn [app contains]. rewrite IH. apply orb_true_r.
Qed.

(** A separator of two characters does not start inside a text that does
    not hold it, when the character after the text is not its second one. *)
Lemma no_start2 p q a c t :
  contains [p; q] a = false -> c <> q ->
  forall j, j < length a -> startswith [p; q] (skipn j (a ++ c :: t)) = false.
Proof.
  intros H Hc. induction a as [|x a IH]; intros j Hj; [cbn in Hj; lia|].
  cbn [contains] in H. apply orb_false_iff in H as [H1 H2].
  destruct j as [|j].
  - cbn [skipn app]. destruct a as [|y a].
    + cbn. rewrite andb_true_r. apply andb_false_iff. right.
      apply N.eqb_neq. congruence.
    + exact H1.
  - cbn [skipn app]. apply IH; [exact H2|cbn in Hj; lia].
Qed.

(** X2: the id of a short link: the text between the last [/] and the
    query string. *)
Theorem get_video_id_short_link (pre id query : str) :
  contains (s_ "youtu.be") (pre ++ [SLASH] ++ id ++ query) = true ->
  lacks SLASH id = true -> lacks QUESTION id = true ->
  opens_with QUESTION query -> lacks SLASH query = true ->
  Script.get_video_id (pre ++ [SLASH] ++ id ++ query) = Ok (Some id).
Proof.
  intros Hc Hs Hq Ho Hsq.
  unfold Script.get_video_id. rewrite Hc.
  change (s_ "/") with [SLASH]. change (s_ "?") with [QUESTION].
  rewrite !split_str_single.
  change (pre ++ [SLASH] ++ id ++ query) with (pre ++ SLASH :: (id ++ query)).
  rewrite split_app, (split_none SLASH (id ++ query)), item_last_snoc.
  - cbn [mbind result_bind]. rewrite split_str_single.
    destruct (split_head QUESTION id query Hq Ho) as [ls ->]. reflexivity.
  - change (lacks SLASH (id ++ query) = true).
    rewrite lacks_app, Hs, Hsq. reflexivity.
Qed.

Lemma get_video_id_short_link_witness :
  Script.get_video_id sample_url = Ok (Some (s_ "abc123")).
Proof.
  apply (get_video_id_short_link (s_ "https://youtu.be") (s_ "abc123")
           (s_ "?t=5")); vm_compute; reflexivity.
Defined.

(** X3: the id of a watch URL: the text between the first [v=] and the
    next [&]. *)
Theorem get_video_id_watch_url (pre id rest : str) :
  contains (s_ "youtu.be") (pre ++ s_ "v=" ++ id ++ rest) = false ->
  contains (s_ "v=") pre = false ->
  contains (s_ "v=") id = false -> lacks AMPERSAND id = true ->
  opens_with AMPERSAND rest ->
  Script.get_video_id (pre ++ s_ "v=" ++ id ++ rest) = Ok (Some id).
Proof.
  intros Hy Hpre Hid Ha Ho.
  unfold Script.get_video_id. rewrite Hy, contains_at.
  rewrite split_str_first; [|discriminate|].
  2:{ intros j Hj. apply no_start2; [exact Hpre|discriminate|exact Hj]. }
  cbn [Script.item1].
  change (s_ "&") with [AMPERSAND].
  destruct rest as [|x r].
  - rewrite app_nil_r, (split_str_none _ _ Hid).
    cbn [mbind result_bind]. rewrite split_str_single, (split_none _ _ Ha).
    reflexivity.
  - cbn in Ho. subst x.
    destruct (split_str_head_app (s_ "v=") (id ++ [AMPERSAND]) r) as (y & ls & E).
    + intros j Hj. rewrite <- app_assoc. cbn [app].
      rewrite length_app in Hj. cbn [length] in Hj.
      destruct (Nat.eq_dec j (length id)) as [->|Hne].
      * rewrite skipn_app, skipn_all, Nat.sub_diag. reflexivity.
      * apply no_start2; [exact Hid|discriminate|lia].
    + rewrite <- app_assoc in E. cbn [app] in E. rewrite E.
      cbn [mbind result_bind]. rewrite split_str_single.
      rewrite <- app_assoc. cbn [app].
      destruct (split_head AMPERSAND id (AMPERSAND :: y) Ha eq_refl) as [ls' ->].
      reflexivity.
Qed.

Lemma get_video_id_watch_url_witness :
  Script.get_video_id (s_ "https://www.youtube.com/watch?v=GxDTx1bx-x0&t=10s")
  = Ok (Some (s_ "GxDTx1bx-x0")).
Proof.
  apply (get_video_id_watch_url (s_ "https://www.youtube.com/watch?")
           (s_ "GxDTx1bx-x0") (s_ "&t=10s")); vm_compute; reflexivity.
Defined.

(** X4: the id never holds the separator it was cut at. *)
Theorem get_video_id_separators (url id : str) :
  Script.get_video_id url = Ok (Some id) ->
  if contains (s_ "youtu.be") url
  then lacks SLASH id = true /\ lacks QUESTION id = true
  else lacks AMPERSAND id = true.
Proof.
  unfold Script.get_video_id, mbind, result_bind, mret, result_ret.
  change (s_ "/") with [SLASH]. change (s_ "?") with [QUESTION].
  change (s_ "&") with [AMPERSAND]. rewrite !split_str_single.
  destruct (contains (s_ "youtu.be") url).
  - destruct (Script.item_last (split SLASH url)) as [t|] eqn:Et; [|discriminate].
    rewrite split_str_single.
    destruct (item0 (split QUESTION t)) as [i|] eqn:Ei; [|discriminate].
    intros H. inversion H; subst i.
    apply item_last_in in Et. apply item0_in in Ei. split.
    + eapply split_keeps_lacks; [|exact Ei]. eapply split_lacks. exact Et.
    + eapply split_lacks. exact Ei.
  - destruct (contains (s_ "v=") url); [|discriminate].
    destruct (Script.item1 (split_str (s_ "v=") 0 url)) as [t|]; [|discriminate].
    rewrite split_str_single.
    destruct (item0 (split AMPERSAND t)) as [i|] eqn:Ei; [|discriminate].
    intros H. inversion H; subst i.
    apply item0_in in Ei. eapply split_lacks. exact Ei.
Qed.

Lemma get_video_id_separators_witness :
  lacks SLASH (s_ "abc123") = true /\ lacks QUESTION (s_ "abc123") = true.
Proof.
  apply (get_video_id_separators sample_url (s_ "abc123")).
  vm_compute. reflexivity.
Defined.

(** * Bullets of the documented format *)

Lemma mmss_inv t :
  fullmatch mmss_re t no_flags = true ->
  exists a b c d, t = [a; b; 58%N; c; d] /\
    isdecimal a = true /\ isdecimal b = true /\
    isdecimal c = true /\ isdecimal d = true.
Proof.
  unfold fullmatch, mmss_re.
  destruct t as [|a [|b [|c [|d [|e [|f t]]]]]];
    cbn -[isdecimal N.eqb]; try discriminate.
  all: case_digit a; case_digit b; case_colon c; case_digit d; case_digit e.
  intros _. exists a, b, d, e. auto.
Qed.

Lemma hhmmss_inv t :
  fullmatch hhmmss_re t no_flags = true ->
  exists a b c d e f, t = [a; b; 58%N; c; d; 58%N; e; f] /\
    isdecimal a = true /\ isdecimal b = true /\
    isdecimal c = true /\ isdecimal d = true /\
    isdecimal e = true /\ isdecimal f = true.
Proof.
  unfold fullmatch, hhmmss_re.
  destruct t as [|a [|b [|c [|d [|e [|f [|g [|h [|i t]]]]]]]]];
    cbn -[isdecimal N.eqb]; try discriminate.
  all: case_digit a; case_digit b; case_colon c; case_digit d; case_digit e;
    case_colon f; case_digit g; case_digit h.
  intros _. exists a, b, d, e, g, h. auto 10.
Qed.

Lemma lstrip_app_nonspace u c v :
  isspace c = false -> lstrip (u ++ c :: v) = lstrip u ++ c :: v.
Proof.
  intros Hc. induction u as [|x u IH]; cbn [app lstrip].
  - rewrite Hc. reflexivity.
  - destruct (isspace x); [exact IH|reflexivity].
Qed.

Lemma rstrip_app_nonspace u c v :
  isspace c = false -> rstrip (u ++ c :: v) = u ++ c :: rstrip v.
Proof.
  intros Hc. unfold rstrip. rewrite rev_app_distr. cbn [rev].
  rewrite <- app_assoc. cbn [app]. rewrite lstrip_app_nonspace by exact Hc.
  rewrite rev_app_distr. cbn [rev]. rewrite rev_involutive, <- app_assoc.
  reflexivity.
Qed.

Lemma lstrip_all_space s : forallb isspace s = true -> lstrip s = [].
Proof.
  induction s as [|c s IH]; [reflexivity|]. cbn [forallb lstrip].
  intros H. apply andb_true_iff in H as [-> H]. auto.
Qed.

Lemma lstrip_decomp s :
  exists u, s = u ++ lstrip s /\ forallb isspace u = true.
Proof.
  induction s as [|c s (u & Hs & Hu)]; cbn [lstrip].
  - exists []. auto.
  - destruct (isspace c) eqn:E.
    + exists (c :: u). cbn [app forallb]. rewrite E, Hu. split; [congruence|reflexivity].
    + exists []. auto.
Qed.

Lemma rstrip_all_space s : forallb isspace s = true -> rstrip s = [].
Proof.
  intros H. unfold rstrip. rewrite lstrip_all_space; [reflexivity|].
  rewrite forallb_forall in *. intros x Hx. apply H, in_rev, Hx.
Qed.

(** Trimming the two ends in either order. *)
Lemma lstrip_rstrip s : lstrip (rstrip s) = strip s.
Proof.
  unfold strip. destruct (lstrip_decomp s) as (u & Hs & Hu).
  destruct (lstrip s) as [|c v] eqn:E.
  - rewrite app_nil_r in Hs. subst u. rewrite rstrip_all_space by exact Hu.
    reflexivity.
  - pose proof (lstrip_head _ _ _ E) as Hc. rewrite Hs.
    rewrite rstrip_app_nonspace by exact Hc.
    rewrite lstrip_app_nonspace by exact Hc.
    rewrite (lstrip_all_space u Hu).
    change (c :: v) with ([] ++ c :: v).
    rewrite rstrip_app_nonspace by exact Hc. reflexivity.
Qed.

Lemma rstrip_prefix s : exists t, s = rstrip s ++ t.
Proof.
  unfold rstrip. destruct (lstrip_decomp (rev s)) as (u & Hs & _).
  exists (rev u). rewrite <- rev_app_distr, <- Hs, rev_involutive. reflexivity.
Qed.

Lemma ok_prefix_refl l t : ok_prefix no_flags l (l ++ t) = true.
Proof. induction l; cbn; [reflexivity|]. rewrite N.eqb_refl. exact IHl. Qed.

Lemma skipn_length_app {A} (l t : list A) : skipn (length l) (l ++ t) = t.
Proof. induction l; cbn; auto. Qed.

Lemma forallb_skipn {A} (p : A -> bool) n l :
  forallb p l = true -> forallb p (skipn n l) = true.
Proof.
  revert l. induction n as [|n IH]; intros [|x l] H; cbn [skipn]; auto.
  cbn in H. apply andb_true_iff in H as [_ H]. auto.
Qed.

Lemma bullet_tail_match pos rest g :
  forallb notnl rest = true ->
  exists e,
    run no_flags (seq [lit (s_ "]**"); Star ASpace; Group 2 (Star ADot)]) pos
      (s_ "]**" ++ rest) g
      (fun pos' _ g' => Some {| m_start := 0; m_end := pos'; m_groups := g' |})
    = Some {| m_start := 0; m_end := e; m_groups := (2, lstrip rest) :: g |}.
Proof.
  intros Hn. rewrite run_seq_cons, run_lit, ok_prefix_refl, skipn_length_app.
  rewrite run_seq_cons, run_star.
  eexists. apply star_greedy_max.
  rewrite (run_last_group no_flags 2 _ _ g
             (fun e g => {| m_start := 0; m_end := e; m_groups := g |})).
  rewrite <- lstrip_run_len.
  change (atom_ok no_flags ADot) with notnl.
  rewrite (run_len_all notnl (lstrip rest)).
  - rewrite firstn_all. reflexivity.
  - rewrite lstrip_run_len. apply forallb_skipn, Hn.
Qed.

(** The bullet pattern on a line of the documented format. *)
Lemma bullet_match ts rest :
  timestamp_shape ts -> forallb notnl rest = true ->
  exists m, rematch bullet_re (s_ "- **[" ++ ts ++ s_ "]**" ++ rest) no_flags
            = Some m /\
            m_groups m = [(2, lstrip rest); (1, ts)].
Proof.
  intros Hts Hn. unfold rematch, match_at, bullet_re.
  rewrite run_seq_cons, run_bol, run_seq_cons, run_lit, ok_prefix_refl,
    skipn_length_app.
  rewrite run_seq_cons, run_group.
  destruct Hts as [H|H].
  - apply mmss_inv in H as (a & b & c & d & -> & Ha & Hb & Hc & Hd).
    rewrite run_seq_cons, run_rep, rep_eq.
    cbn [app length firstn skipn forallb Nat.leb atom_ok]. rewrite Ha, Hb.
    cbn [andb]. rewrite run_seq_cons, run_lit.
    change (s_ ":") with [58%N].
    cbn [ok_prefix atom_ok IGNORECASE no_flags]. rewrite N.eqb_refl.
    cbn [andb length skipn].
    rewrite run_seq_cons, run_rep, rep_eq.
    cbn [app length firstn skipn forallb Nat.leb atom_ok]. rewrite Hc, Hd.
    cbn [andb]. rewrite run_seq_cons, run_opt, run_seq_nil.
    rewrite ?firstn_O, ?skipn_O. cbn [forallb].
    rewrite run_seq_cons, run_lit.
    change (ok_prefix no_flags [58%N] (s_ "]**" ++ rest)) with false.
    cbn iota.
    destruct (bullet_tail_match (0 + length (s_ "- **[") + 2 + 1 + 2) rest
                [(1, [a; b; 58%N; c; d])] Hn) as [e He].
    eexists. split; [exact He|reflexivity].
  - apply hhmmss_inv in H
      as (a & b & c & d & e & f & -> & Ha & Hb & Hc & Hd & He & Hf).
    rewrite run_seq_cons, run_rep, rep_eq.
    cbn [app length firstn skipn forallb Nat.leb atom_ok]. rewrite Ha, Hb.
    cbn [andb]. rewrite run_seq_cons, run_lit.
    change (s_ ":") with [58%N].
    cbn [ok_prefix atom_ok IGNORECASE no_flags]. rewrite N.eqb_refl.
    cbn [andb length skipn].
    rewrite run_seq_cons, run_rep, rep_eq.
    cbn [app length firstn skipn forallb Nat.leb atom_ok]. rewrite Hc, Hd.
    cbn [andb]. rewrite run_seq_cons, run_opt, run_seq_nil.
    rewrite ?firstn_O, ?skipn_O. cbn [forallb].
    rewrite run_seq_cons, run_lit.
    cbn [ok_prefix atom_ok IGNORECASE no_flags]. rewrite N.eqb_refl.
    cbn [andb length skipn].
    rewrite run_seq_cons, run_rep, rep_eq.
    cbn [app length firstn skipn forallb Nat.leb atom_ok]. rewrite He, Hf.
    cbn [andb]. rewrite ?firstn_O, ?skipn_O. cbn [forallb]. rewrite !run_seq_nil.
    destruct (bullet_tail_match (0 + length (s_ "- **[") + 2 + 1 + 2 + 1 + 2)
                rest [(1, [a; b; 58%N; c; d; 58%N; e; f])] Hn) as [e' He'].
    eexists. split.
    + match goal with
      | |- match ?R with _ => _ end = _ =>
          replace R with (Some {| m_start := 0; m_end := e';
                                  m_groups := [(2, lstrip rest);
                                               (1, [a; b; 58%N; c; d; 58%N; e; f])] |})
            by (symmetry; exact He')
      end.
      reflexivity.
    + reflexivity.
Qed.

Lemma isdecimal_notnl c : isdecimal c = true -> notnl c = true.
Proof.
  intros H. unfold notnl. destruct (c =? NL)%N eqn:E; [|reflexivity].
  apply N.eqb_eq in E. subst c. vm_compute in H. discriminate.
Qed.

Lemma timestamp_shape_notnl ts : timestamp_shape ts -> forallb notnl ts = true.
Proof.
  intros [H|H].
  - apply mmss_inv in H as (a & b & c & d & -> & Ha & Hb & Hc & Hd).
    cbn [forallb].
    rewrite (isdecimal_notnl a), (isdecimal_notnl b), (isdecimal_notnl c),
      (isdecimal_notnl d) by assumption.
    reflexivity.
  - apply hhmmss_inv in H
      as (a & b & c & d & e & f & -> & Ha & Hb & Hc & Hd & He & Hf).
    cbn [forallb].
    rewrite (isdecimal_notnl a), (isdecimal_notnl b), (isdecimal_notnl c),
      (isdecimal_notnl d), (isdecimal_notnl e), (isdecimal_notnl f)
      by assumption.
    reflexivity.
Qed.

(** A bullet with a well-formed key topic is read back as that key topic. *)
Lemma key_topic_step_bullet acc kt :
  topic_ok kt -> one_line kt ->
  key_topic_step acc (bullet kt) = Ok (acc ++ [kt]).
Proof.
  intros [Hts Htp] Hn. unfold key_topic_step, bullet.
  change (s_ "- **[" ++ timestamp kt ++ s_ "]** " ++ topic kt)
    with (45%N :: (s_ " **[" ++ timestamp kt ++ s_ "]** " ++ topic kt)).
  unfold strip at 1. cbn [lstrip]. change (isspace 45%N) with false. cbv iota.
  replace (45%N :: s_ " **[" ++ timestamp kt ++ s_ "]** " ++ topic kt)
    with ((s_ "- **[" ++ timestamp kt ++ s_ "]*") ++ 42%N :: 32%N :: topic kt)
    by (rewrite <- !app_assoc; reflexivity).
  rewrite rstrip_app_nonspace by reflexivity.
  rewrite <- !app_assoc.
  change (s_ "]*" ++ 42%N :: rstrip (32%N :: topic kt))
    with (s_ "]**" ++ rstrip (32%N :: topic kt)).
  destruct (bullet_match (timestamp kt) (rstrip (32%N :: topic kt)) Hts)
    as (m & -> & Hg).
  - destruct (rstrip_prefix (32%N :: topic kt)) as [t Ht].
    assert (forallb notnl (32%N :: topic kt) = true) as Hall
      by (cbn [forallb]; rewrite Hn; reflexivity).
    rewrite Ht, forallb_app in Hall. apply andb_true_iff in Hall as [Hall _].
    exact Hall.
  - unfold group_str, group_strip, group. rewrite Hg.
    cbn [lookup_group Nat.eqb mbind result_bind mret result_ret].
    rewrite lstrip_rstrip, strip_idem.
    unfold strip at 1. cbn [lstrip]. change (isspace 32%N) with true. cbv iota.
    fold (strip (topic kt)). rewrite Htp. destruct kt; reflexivity.
Qed.

Lemma key_topic_loop_bullets kts : forall acc,
  Forall (fun kt => topic_ok kt /\ one_line kt) kts ->
  key_topic_loop acc (map bullet kts) = Ok (acc ++ kts).
Proof.
  induction kts as [|kt kts IH]; intros acc H; cbn [map key_topic_loop].
  - rewrite app_nil_r. reflexivity.
  - inversion H as [|? ? [Hok Hone] Hrest]; subst.
    rewrite key_topic_step_bullet by assumption.
    cbn [mbind result_bind]. rewrite IH by exact Hrest.
    rewrite <- app_assoc. reflexivity.
Qed.

Lemma bullet_notnl kt :
  topic_ok kt -> one_line kt -> forallb notnl (bullet kt) = true.
Proof.
  intros [Hts _] Hn. unfold bullet.
  rewrite !forallb_app, (timestamp_shape_notnl _ Hts), Hn. reflexivity.
Qed.

(** [split] undoes [join] on lines without the separator. *)
Lemma split_join line lines :
  Forall (fun l => forallb notnl l = true) (line :: lines) ->
  split NL (join [NL] (line :: lines)) = line :: lines.
Proof.
  revert line. induction lines as [|l2 lines IH]; intros line H.
  - inversion H; subst. cbn [join]. apply split_none. assumption.
  - inversion H as [|? ? Hl Hrest]; subst.
    change (join [NL] (line :: l2 :: lines))
      with (line ++ NL :: join [NL] (l2 :: lines)).
    rewrite split_app, (split_none NL line Hl), (IH l2 Hrest). reflexivity.
Qed.

Lemma extract_bullets pre kts :
  plain_text pre = true ->
  Forall (fun kt => topic_ok kt /\ one_line kt) kts ->
  extract_key_topics (pre ++ topics_section kts) = Ok kts.
Proof.
  intros Hp H. rewrite extract_key_topics_eq.
  rewrite find_first_app_none.
  2:{ intros j Hj.
      destruct (plain_text_skipn pre j (topics_section kts) Hp Hj)
        as (c & y & -> & Hc).
      apply topics_at_not_hash, Hc. }
  assert (topics_at (topics_section kts) = Some (join [NL] (map bullet kts)))
    as Ht.
  { unfold topics_at, topics_section.
    change (s_ "## " ++ [STOPWATCH; VS16] ++ s_ " Key Topics & Timestamps"
            ++ [NL] ++ join [NL] (map bullet kts))
      with ((s_ "## " ++ TOPICS_HEAD) ++ NL :: join [NL] (map bullet kts)).
    rewrite (after_heading_app flag_SI TOPICS_HEAD (s_ "## " ++ TOPICS_HEAD));
      [|discriminate|vm_compute; reflexivity].
    rewrite N.eqb_refl. reflexivity. }
  rewrite (find_first_at topics_at [] (topics_section kts) _ Ht
             ltac:(intros j Hj; cbn in Hj; lia) : find_first topics_at (topics_section kts) = _).
  destruct kts as [|kt kts].
  - vm_compute. reflexivity.
  - cbn [map]. rewrite split_join.
    + apply (key_topic_loop_bullets (kt :: kts) [] H).
    + change (bullet kt :: map bullet kts) with (map bullet (kt :: kts)).
      apply List.Forall_map. eapply List.Forall_impl; [|exact H].
      intros x [Hx1 Hx2]. apply bullet_notnl; assumption.
Qed.

(** X5: a bullet list in the format the prompts ask for is read back as it
    is, in order: every list of key topics whose timestamps have one of the
    two shapes and whose topics are trimmed and on one line. *)
Theorem key_topics_round_trip (pre : str) (kts : list KeyTopic) :
  plain_text pre = true ->
  Forall (fun kt => topic_ok kt /\ one_line kt) kts ->
  exists a b,
    _parse_gemini_output (pre ++ topics_section kts) = Ok a /\
    parse_gemini_output (pre ++ topics_section kts) = Ok b /\
    key_topics a = kts /\ key_topics b = kts.
Proof.
  intros Hp H.
  destruct (_parse_gemini_output_eq (pre ++ topics_section kts))
    as (k1 & Hk1 & Ha).
  destruct (parse_gemini_output_eq (pre ++ topics_section kts))
    as (k2 & Hk2 & Hb).
  rewrite (extract_bullets pre kts Hp H) in Hk1, Hk2.
  inversion Hk1; subst k1. inversion Hk2; subst k2.
  eexists _, _. split; [exact Ha|]. split; [exact Hb|]. split; reflexivity.
Qed.

Lemma key_topics_round_trip_witness :
  exists a b,
    _parse_gemini_output (s_ "Here is the list." ++ [NL] ++
                          topics_section sample_topics) = Ok a /\
    parse_gemini_output (s_ "Here is the list." ++ [NL] ++
                         topics_section sample_topics) = Ok b /\
    key_topics a = sample_topics /\ key_topics b = sample_topics.
Proof.
  apply (key_topics_round_trip (s_ "Here is the list." ++ [NL]) sample_topics).
  - vm_compute. reflexivity.
  - repeat (apply List.Forall_cons;
            [split; [split; [vm_compute; tauto|reflexivity]|reflexivity]|]).
    apply List.Forall_nil.
Defined.

(** * The shape of a formatted timestamp *)

Lemma fmt_02d_two z :
  (0 <= z < 100)%Z -> two_digits (fmt_02d z) = true.
Proof.
  intros Hz.
  assert (forallb (fun k => two_digits (fmt_02d (Z.of_nat k))) (List.seq 0 100)
          = true) as Hall by (vm_compute; reflexivity).
  rewrite forallb_forall in Hall.
  rewrite <- (Z2Nat.id z) by lia. apply Hall, in_seq. lia.
Qed.

Lemma two_digits_inv t :
  two_digits t = true ->
  exists a b, t = [a; b] /\ isdecimal a = true /\ isdecimal b = true.
Proof.
  destruct t as [|a [|b [|c t]]]; cbn [two_digits]; try discriminate.
  intros H. apply andb_true_iff in H as [Ha Hb]. eauto.
Qed.

Lemma mmss_intro a b c d :
  isdecimal a = true -> isdecimal b = true ->
  isdecimal c = true -> isdecimal d = true ->
  fullmatch mmss_re [a; b; 58%N; c; d] no_flags = true.
Proof.
  intros Ha Hb Hc Hd. unfold fullmatch, mmss_re. cbn -[isdecimal].
  rewrite Ha, Hb, Hc, Hd. reflexivity.
Qed.

Lemma hhmmss_intro a b c d e f :
  isdecimal a = true -> isdecimal b = true ->
  isdecimal c = true -> isdecimal d = true ->
  isdecimal e = true -> isdecimal f = true ->
  fullmatch hhmmss_re [a; b; 58%N; c; d; 58%N; e; f] no_flags = true.
Proof.
  intros Ha Hb Hc Hd He Hf. unfold fullmatch, hhmmss_re. cbn -[isdecimal].
  rewrite Ha, Hb, Hc, Hd, He, Hf. reflexivity.
Qed.

(** A field of two ASCII digits stands for a number below 100. *)
Lemma field_value_two a b v : field_value [a; b] = Some v -> (v < 100)%Z.
Proof.
  unfold field_value, chars_uint.
  repeat match goal with
         | |- context [if ?c then _ else _] => destruct c
         end;
    cbn [option_map]; intros H; inversion H; reflexivity.
Qed.

Lemma fmt_02d_length z : 2 <= length (fmt_02d z) \/ (z < 0)%Z.
Proof.
  destruct (Z.ltb_spec z 0) as [Hz|Hz]; [right; exact Hz|left].
  rewrite fmt_02d_nonneg by exact Hz. apply zero_pad_length.
Qed.

Lemma fmt_02d_long h : (100 <= h)%Z -> 3 <= length (fmt_02d h).
Proof.
  intros Hh. destruct (fmt_02d_length h) as [H2|]; [|lia].
  destruct (fmt_02d h) as [|a [|b [|c t]]] eqn:E; cbn [length] in *; try lia.
  pose proof (field_value_fmt h ltac:(lia)) as Hv. rewrite E in Hv.
  apply field_value_two in Hv. lia.
Qed.

Lemma format_seconds_fields n :
  (0 <= n)%Z ->
  let h := (n / 60 / 60)%Z in
  let m := ((n / 60) mod 60)%Z in
  let s := (n mod 60)%Z in
  (0 <= h)%Z /\ (0 <= m < 60)%Z /\ (0 <= s < 60)%Z /\
  format_seconds n =
  if (0 <? h)%Z
  then fmt_02d h ++ [COLON] ++ fmt_02d m ++ [COLON] ++ fmt_02d s
  else fmt_02d m ++ [COLON] ++ fmt_02d s.
Proof.
  intros Hn h m s. repeat split.
  - apply Z.div_pos; [apply Z.div_pos|]; lia.
  - apply Z.mod_pos_bound. lia.
  - apply Z.mod_pos_bound. lia.
  - apply Z.mod_pos_bound. lia.
  - apply Z.mod_pos_bound. lia.
Qed.

Lemma format_seconds_shape_iff n :
  (0 <= n)%Z -> (timestamp_shape (format_seconds n) <-> (n < 360000)%Z).
Proof.
  intros Hn.
  destruct (format_seconds_fields n Hn) as (Hh & Hm & Hs & E).
  set (h := (n / 60 / 60)%Z) in *. set (m := ((n / 60) mod 60)%Z) in *.
  set (s := (n mod 60)%Z) in *.
  assert (n = h * 3600 + m * 60 + s)%Z as Hsum.
  { subst h m s. pose proof (Z.div_mod n 60 ltac:(lia)).
    pose proof (Z.div_mod (n / 60) 60 ltac:(lia)). lia. }
  destruct (two_digits_inv _ (fmt_02d_two m ltac:(lia)))
    as (c & d & Em & Hc & Hd).
  destruct (two_digits_inv _ (fmt_02d_two s ltac:(lia)))
    as (e & f & Es & He & Hf).
  rewrite E, Em, Es. destruct (Z.ltb_spec 0 h) as [Hpos|Hzero].
  - split.
    + intros Hshape. destruct (Z.lt_ge_cases h 100) as [|Hbig]; [lia|].
      exfalso. pose proof (fmt_02d_long h Hbig) as Hlen.
      destruct Hshape as [H|H].
      * apply mmss_inv in H as (? & ? & ? & ? & H & _).
        apply (f_equal (@length _)) in H. rewrite length_app in H.
        cbn [length app COLON] in H. lia.
      * apply hhmmss_inv in H as (? & ? & ? & ? & ? & ? & H & _).
        apply (f_equal (@length _)) in H. rewrite length_app in H.
        cbn [length app COLON] in H. lia.
    + intros Hlt.
      destruct (two_digits_inv _ (fmt_02d_two h ltac:(lia)))
        as (a & b & Eh & Ha & Hb).
      rewrite Eh. right. apply hhmmss_intro; assumption.
  - split; [intros _; lia|]. intros _. left. apply mmss_intro; assumption.
Qed.

(** X6: the timestamp of a time that is not negative has one of the two
    shapes the bullet pattern accepts exactly when the time is below one
    hundred hours. *)
Theorem format_timestamp_shape (x : spec_float) (n : Z) :
  py_int x = Ok n -> (0 <= n)%Z ->
  exists out, format_timestamp x = Ok out /\
              (timestamp_shape out <-> (n < 360000)%Z).
Proof.
  intros Hx Hn. unfold format_timestamp. rewrite Hx.
  eexists. split; [reflexivity|]. apply format_seconds_shape_iff, Hn.
Qed.

Lemma format_timestamp_shape_witness :
  exists out, format_timestamp (float_of_pos 3661) = Ok out /\
              (timestamp_shape out <-> (3661 < 360000)%Z).
Proof.
  apply (format_timestamp_shape (float_of_pos 3661) 3661);
    [vm_compute; reflexivity|lia].
Defined.

(** * More about the parsers *)

Lemma title_at_not_hash c x : (c =? 35)%N = false -> title_at (c :: x) = None.
Proof.
  intros H. unfold title_at. rewrite after_heading_not_hash by exact H.
  reflexivity.
Qed.

Lemma found_title_at pre h tail :
  plain_text pre = true -> title_heading h ->
  found_title (pre ++ h ++ tail) = strip (first_line (lstrip tail)).
Proof.
  intros Hp Hh. unfold found_title.
  rewrite find_first_app_none.
  2:{ intros j Hj.
      destruct (plain_text_skipn pre j (h ++ tail) Hp Hj) as (c & y & -> & Hc).
      apply title_at_not_hash, Hc. }
  assert (title_at (h ++ tail) = Some (first_line (lstrip tail))) as Ht.
  { unfold title_at.
    rewrite (after_heading_app flag_I (s_ "Title:") h tail);
      [reflexivity|discriminate|exact Hh]. }
  rewrite (find_first_at title_at [] (h ++ tail) _ Ht
             ltac:(intros j Hj; cbn in Hj; lia)
           : find_first title_at (h ++ tail) = _).
  reflexivity.
Qed.

(** X7: the title is the trimmed rest of the first title line; as the
    whitespace after [Title:] runs over line ends, it is the next line that
    is not blank when the title line holds nothing else. *)
Theorem title_extraction (pre h tail : str) :
  plain_text pre = true -> title_heading h ->
  strip (first_line (lstrip tail)) <> [] ->
  exists a b,
    _parse_gemini_output (pre ++ h ++ tail) = Ok a /\
    parse_gemini_output (pre ++ h ++ tail) = Ok b /\
    title a = strip (first_line (lstrip tail)) /\
    title b = strip (first_line (lstrip tail)).
Proof.
  intros Hp Hh Hne.
  destruct (_parse_gemini_output_eq (pre ++ h ++ tail)) as (k1 & _ & Ha).
  destruct (parse_gemini_output_eq (pre ++ h ++ tail)) as (k2 & _ & Hb).
  rewrite (found_title_at pre h tail Hp Hh) in Ha, Hb.
  destruct (strip (first_line (lstrip tail))) as [|c t] eqn:E; [congruence|].
  eexists _, _. split; [exact Ha|]. split; [exact Hb|]. split; reflexivity.
Qed.

Lemma title_extraction_witness :
  exists a b,
    _parse_gemini_output (s_ "Sure." ++ s_ "## TITLE:" ++ title_tail) = Ok a /\
    parse_gemini_output (s_ "Sure." ++ s_ "## TITLE:" ++ title_tail) = Ok b /\
    title a = strip (first_line (lstrip title_tail)) /\
    title b = strip (first_line (lstrip title_tail)).
Proof.
  apply (title_extraction (s_ "Sure.") (s_ "## TITLE:") title_tail).
  - reflexivity.
  - vm_compute. reflexivity.
  - vm_compute. discriminate.
Defined.

(** An empty title line: the heading of the next section becomes the
    title. *)
Example empty_title_line :
  exists a, _parse_gemini_output empty_title_input = Ok a /\
            title a = s_ "## " ++ [MEMO] ++ s_ " Executive Summary".
Proof. eexists. split; vm_compute; reflexivity. Qed.

Lemma ok_prefix_hashes fl s :
  ok_prefix fl (s_ "##") s = startswith (s_ "##") s.
Proof.
  change (s_ "##") with [35%N; 35%N].
  destruct s as [|a [|b s]]; cbn [ok_prefix startswith atom_ok];
    unfold char_ieq; change (iscased 35%N) with false; cbv iota;
    destruct (IGNORECASE fl); rewrite ?(N.eqb_sym 35%N); reflexivity.
Qed.

Lemma after_heading_no_hashes fl l s :
  startswith (s_ "##") s = false -> after_heading fl l s = None.
Proof.
  intros H. unfold after_heading. rewrite ok_prefix_hashes, H. reflexivity.
Qed.

Lemma find_first_none {A} (f : str -> option A) s :
  (forall x, startswith (s_ "##") x = false -> f x = None) ->
  contains (s_ "##") s = false -> find_first f s = None.
Proof.
  intros Hf. induction s as [|c s IH]; intros H.
  - cbn [find_first]. rewrite Hf; reflexivity.
  - cbn [contains] in H. apply orb_false_iff in H as [H1 H2].
    cbn [find_first]. rewrite (Hf _ H1). apply IH, H2.
Qed.

Lemma no_heading_first_line s :
  contains (s_ "##") s = false -> starts_with_heading (first_line s) = false.
Proof.
  intros H. unfold starts_with_heading.
  destruct (ok_prefix no_flags (s_ "##") (first_line s)) eqn:E; [|reflexivity].
  apply (ok_prefix_app_r _ _ _ (skipn (run_len notnl s) s)) in E.
  unfold first_line in E. rewrite firstn_skipn, ok_prefix_hashes in E.
  destruct s; cbn [contains] in H; apply orb_false_iff in H as [H _];
    congruence.
Qed.

(** X8: a reply without [##] anywhere: the title is its first line,
    trimmed; there is no summary and no key topic. *)
Theorem unformatted_reply (s : str) :
  contains (s_ "##") s = false ->
  _parse_gemini_output s
    = Ok {| title := strip (first_line s); executive_summary := [];
            key_topics := [] |} /\
  parse_gemini_output s
    = Ok {| title := strip (first_line s); executive_summary := [];
            key_topics := [] |}.
Proof.
  intros H.
  destruct (_parse_gemini_output_eq s) as (k1 & Hk1 & Ha).
  destruct (parse_gemini_output_eq s) as (k2 & Hk2 & Hb).
  rewrite extract_key_topics_eq in Hk1, Hk2.
  rewrite (find_first_none topics_at s) in Hk1, Hk2;
    [|intros x Hx; unfold topics_at;
      rewrite after_heading_no_hashes by exact Hx; reflexivity|exact H
     |intros x Hx; unfold topics_at;
      rewrite after_heading_no_hashes by exact Hx; reflexivity|exact H].
  inversion Hk1; subst k1. inversion Hk2; subst k2.
  unfold found_title, found_summary in Ha, Hb.
  rewrite (find_first_none title_at s) in Ha, Hb;
    [|intros x Hx; unfold title_at;
      rewrite after_heading_no_hashes by exact Hx; reflexivity|exact H
     |intros x Hx; unfold title_at;
      rewrite after_heading_no_hashes by exact Hx; reflexivity|exact H].
  rewrite (find_first_none summary_at s) in Ha, Hb;
    [|intros x Hx; unfold summary_at;
      rewrite after_heading_no_hashes by exact Hx; reflexivity|exact H
     |intros x Hx; unfold summary_at;
      rewrite after_heading_no_hashes by exact Hx; reflexivity|exact H].
  unfold fallback_abc, fallback_ab in Ha. unfold fallback_ab in Hb.
  rewrite (no_heading_first_line s H) in Ha, Hb.
  split; [rewrite Ha|rewrite Hb]; destruct (strip (first_line s)); reflexivity.
Qed.

Lemma unformatted_reply_witness :
  _parse_gemini_output chatty_reply
    = Ok {| title := strip (first_line chatty_reply); executive_summary := [];
            key_topics := [] |} /\
  parse_gemini_output chatty_reply
    = Ok {| title := strip (first_line chatty_reply); executive_summary := [];
            key_topics := [] |}.
Proof. apply (unformatted_reply chatty_reply). vm_compute. reflexivity. Defined.

Lemma lstrip_length s : length (lstrip s) <= length s.
Proof.
  induction s as [|c s IH]; cbn [lstrip length]; [lia|].
  destruct (isspace c); cbn [length]; lia.
Qed.

Lemma rstrip_length s : length (rstrip s) <= length s.
Proof.
  unfold rstrip. rewrite length_rev.
  etransitivity; [apply lstrip_length|]. rewrite length_rev. lia.
Qed.

Lemma trimmed_head c t : trimmed (c :: t) -> isspace c = false.
Proof.
  unfold trimmed, strip. intros H.
  destruct (isspace c) eqn:E; [|reflexivity]. exfalso.
  apply (f_equal (@length _)) in H. cbn [lstrip length] in H. rewrite E in H.
  pose proof (rstrip_length (lstrip t)). pose proof (lstrip_length t). lia.
Qed.

Lemma trimmed_strip s : trimmed (strip s).
Proof. apply strip_idem. Qed.

Lemma trimmed_ends c y d :
  isspace c = false -> isspace d = false -> trimmed (c :: y ++ [d]).
Proof.
  intros Hc Hd. unfold trimmed, strip. cbn [lstrip]. rewrite Hc.
  change (c :: y ++ [d]) with ((c :: y) ++ d :: []).
  rewrite rstrip_app_nonspace by exact Hd. reflexivity.
Qed.

Lemma trimmed_shorten k t : trimmed t -> trimmed (shorten (S k) t).
Proof.
  intros Ht. unfold shorten. destruct (100 <? length t)%nat eqn:E; [|exact Ht].
  destruct t as [|c t]; [discriminate|].
  cbn [firstn app]. unfold ELLIPSIS.
  change (s_ "...") with ([46%N; 46%N] ++ [46%N]). rewrite app_assoc.
  apply trimmed_ends; [exact (trimmed_head c t Ht)|reflexivity].
Qed.

Lemma trimmed_fallback_ab s summary : trimmed (fallback_ab s summary).
Proof.
  assert (trimmed match summary with
                  | [] => []
                  | _ :: _ =>
                      match strip (first_sentence summary) with
                      | [] => []
                      | (_ :: _) as t => shorten 97 t
                      end
                  end) as Hb.
  { destruct summary; [reflexivity|].
    destruct (strip (first_sentence _)) as [|c2 t2] eqn:E; [reflexivity|].
    apply trimmed_shorten. rewrite <- E. apply trimmed_strip. }
  unfold fallback_ab. cbv zeta.
  destruct (starts_with_heading (first_line s)).
  - destruct summary; exact Hb.
  - destruct (strip (first_line s)) as [|c t] eqn:E.
    + destruct summary; exact Hb.
    + rewrite <- E. apply trimmed_strip.
Qed.

Lemma trimmed_found_title s : trimmed (found_title s).
Proof.
  unfold found_title. destruct (find_first title_at s);
    [apply trimmed_strip|reflexivity].
Qed.

Lemma trimmed_found_summary s : trimmed (found_summary s).
Proof.
  unfold found_summary. destruct (find_first summary_at s);
    [apply trimmed_strip|reflexivity].
Qed.

(** X9: whatever the reply, the title and the summary of the result have no
    whitespace at their ends. *)
Theorem title_and_summary_trimmed (s : str) :
  exists a b,
    _parse_gemini_output s = Ok a /\ parse_gemini_output s = Ok b /\
    trimmed (title a) /\ trimmed (executive_summary a) /\
    trimmed (title b) /\ trimmed (executive_summary b).
Proof.
  destruct (_parse_gemini_output_eq s) as (k1 & _ & Ha).
  destruct (parse_gemini_output_eq s) as (k2 & _ & Hb).
  eexists _, _. split; [exact Ha|]. split; [exact Hb|]. cbn [title executive_summary].
  pose proof (trimmed_found_title s) as Ht.
  pose proof (trimmed_found_summary s) as Hs.
  pose proof (trimmed_fallback_ab s (found_summary s)) as Hab.
  repeat split; try exact Hs.
  - set (t := found_title s) in *. destruct t; [|exact Ht].
    unfold fallback_abc.
    set (f := fallback_ab s (found_summary s)) in *. destruct f; [|exact Hab].
    apply trimmed_shorten, Hs.
  - set (t := found_title s) in *. destruct t; [exact Hab|exact Ht].
Qed.

Lemma shorten_nonempty k t : t <> [] -> shorten k t <> [].
Proof.
  intros Ht. unfold shorten. destruct (100 <? length t)%nat; [|exact Ht].
  unfold ELLIPSIS. intros H. apply app_eq_nil in H as [_ H]. discriminate.
Qed.

(** X10: the parser of [analyzer.py] gives every result that has a summary a
    title; the copy in [agent_scraper.py], which lacks the last fallback,
    does not. *)
Theorem summary_gives_title :
  (forall s a, _parse_gemini_output s = Ok a ->
               executive_summary a <> [] -> title a <> []) /\
  (exists s b, parse_gemini_output s = Ok b /\
               executive_summary b <> [] /\ title b = []).
Proof.
  split.
  - intros s a Ha Hs.
    destruct (_parse_gemini_output_eq s) as (k1 & _ & Ha').
    rewrite Ha in Ha'. inversion Ha'; subst a; clear Ha'.
    cbn [title executive_summary] in *.
    destruct (found_title s); [|discriminate].
    unfold fallback_abc. destruct (fallback_ab s (found_summary s));
      [|discriminate].
    apply shorten_nonempty, Hs.
  - exists dotted_summary_input. eexists.
    split; [vm_compute; reflexivity|]. split; [discriminate|reflexivity].
Qed.

Lemma summary_gives_title_witness :
  exists a, _parse_gemini_output dotted_summary_input = Ok a /\ title a <> [].
Proof.
  eexists. split; [vm_compute; reflexivity|].
  apply (proj1 summary_gives_title dotted_summary_input);
    [vm_compute; reflexivity|discriminate].
Defined.

(** X11: the two parsers differ in the title only, and only when the copy in
    [agent_scraper.py] leaves it empty. *)
Theorem parsers_agree (s : str) :
  exists a b,
    _parse_gemini_output s = Ok a /\ parse_gemini_output s = Ok b /\
    executive_summary a = executive_summary b /\
    key_topics a = key_topics b /\
    (title b <> [] -> title a = title b) /\
    (title b = [] -> title a = shorten 100 (executive_summary b)).
Proof.
  destruct (_parse_gemini_output_eq s) as (k1 & Hk1 & Ha).
  destruct (parse_gemini_output_eq s) as (k2 & Hk2 & Hb).
  rewrite Hk1 in Hk2. inversion Hk2; subst k2.
  eexists _, _. split; [exact Ha|]. split; [exact Hb|].
  cbn [title executive_summary key_topics].
  split; [reflexivity|]. split; [reflexivity|].
  destruct (found_title s); [|split; [reflexivity|discriminate]].
  unfold fallback_abc. destruct (fallback_ab s (found_summary s));
    split; congruence.
Qed.

Lemma parsers_agree_witness :
  exists a b,
    _parse_gemini_output dotted_summary_input = Ok a /\
    parse_gemini_output dotted_summary_input = Ok b /\
    executive_summary a = executive_summary b /\
    key_topics a = key_topics b /\
    (title b <> [] -> title a = title b) /\
    (title b = [] -> title a = shorten 100 (executive_summary b)).
Proof. exact (parsers_agree dotted_summary_input). Defined.

(** * The polling loop *)

Lemma poll_step e seconds w st :
  get_file e (polls w) = Ok st ->
  (_ ← emit (Sleep seconds); refresh e) w
  = Some (Ok tt,
          {| files := files w; trace := (trace w ++ [Sleep seconds]) ++ [GetFile];
             polls := S (polls w); audio_file := Some st;
             audio_file_path := audio_file_path w |}).
Proof.
  intros H. unfold refresh, set_audio_file. unfold_monad. cbn.
  rewrite H. reflexivity.
Qed.

Lemma while_stuck e seconds fuel : forall w,
  (forall i, get_file e i = Ok PROCESSING) ->
  audio_file w = Some PROCESSING ->
  while_processing fuel (_ ← emit (Sleep seconds); refresh e) w = None.
Proof.
  induction fuel as [|fuel IH]; intros w Hg Hw; cbn [while_processing];
    rewrite Hw; [reflexivity|].
  unfold mbind at 1, M_bind at 1.
  rewrite (poll_step e seconds w PROCESSING (Hg _)).
  apply IH; [exact Hg|reflexivity].
Qed.

Lemma while_polls e seconds k : forall fuel w st,
  audio_file w = Some PROCESSING ->
  (forall i, i < k -> get_file e (polls w + i) = Ok PROCESSING) ->
  get_file e (polls w + k) = Ok st -> st <> PROCESSING -> k < fuel ->
  exists w',
    while_processing fuel (_ ← emit (Sleep seconds); refresh e) w
      = Some (Ok tt, w') /\
    files w' = files w /\ audio_file_path w' = audio_file_path w /\
    audio_file w' = Some st /\
    trace w' = trace w ++ rounds seconds (S k).
Proof.
  induction k as [|k IH]; intros fuel w st Hw Hp Hst Hne Hf;
    (destruct fuel as [|fuel]; [lia|]); cbn [while_processing]; rewrite Hw;
    unfold mbind at 1, M_bind at 1.
  - rewrite Nat.add_0_r in Hst. rewrite (poll_step e seconds w st Hst).
    eexists. split.
    + destruct fuel; cbn [while_processing audio_file];
        destruct st; try congruence; reflexivity.
    + cbn. rewrite <- app_assoc. auto.
  - pose proof (Hp 0 ltac:(lia)) as H0. rewrite Nat.add_0_r in H0.
    rewrite (poll_step e seconds w PROCESSING H0).
    edestruct (IH fuel) as (w' & -> & Hfs & Hpath & Haf & Htr);
      [| | |exact Hne| |].
    + reflexivity.
    + intros i Hi. cbn [polls]. rewrite <- (Hp (S i)) by lia. f_equal. lia.
    + cbn [polls]. rewrite <- Hst. f_equal. lia.
    + lia.
    + eexists. split; [reflexivity|]. cbn in *.
      rewrite Hfs, Hpath, Haf, Htr, <- !app_assoc. auto.
Qed.

(** * The audio analysis, call by call *)

Lemma bind_ok {A B} (m : M A) (f : A -> M B) w a w1 :
  m w = Some (Ok a, w1) -> (m ≫= f) w = f a w1.
Proof. intros H. unfold mbind, M_bind. rewrite H. reflexivity. Qed.

Lemma bind_none {A B} (m : M A) (f : A -> M B) w :
  m w = None -> (m ≫= f) w = None.
Proof. intros H. unfold mbind, M_bind. rewrite H. reflexivity. Qed.

Lemma bind_raise {A B} (m : M A) (f : A -> M B) w ex w1 :
  m w = Some (Raise ex, w1) -> (m ≫= f) w = Some (Raise ex, w1).
Proof. intros H. unfold mbind, M_bind. rewrite H. reflexivity. Qed.

Lemma upload_ok e path st w :
  upload_file e path = Ok st ->
  upload e path w
  = Some (Ok tt, {| files := files w; trace := trace w ++ [UploadFile path];
                    polls := polls w; audio_file := Some st;
                    audio_file_path := audio_file_path w |}).
Proof.
  intros H. unfold upload, set_audio_file. unfold_monad. cbn. rewrite H.
  reflexivity.
Qed.

Lemma upload_raise e path ex w :
  upload_file e path = Raise ex ->
  upload e path w = Some (Raise ex, with_calls w [UploadFile path]).
Proof.
  intros H. unfold upload, set_audio_file. unfold_monad. cbn. rewrite H.
  reflexivity.
Qed.



Lemma try_reraise {A} (m : M A) w r w' :
  m w = Some (r, w') -> try_except m (fun ex => raise ex) w = Some (r, w').
Proof. intros H. unfold try_except. rewrite H. destruct r; reflexivity. Qed.

(** The request that follows the loop, in [analyzer.py]. *)
Lemma analyzer_generation e w st :
  audio_file w = Some st ->
  exists r,
    (st ← Analyzer.audio_file_state;
     response ← call (GenerateContentAudio Prompt.audio_prompt st)
                     (generate_content_audio e Prompt.audio_prompt st);
     lift (_parse_gemini_output response)) w
    = Some (r, with_calls w [GenerateContentAudio Prompt.audio_prompt st]) /\
    match generate_content_audio e Prompt.audio_prompt st with
    | Ok response => r = _parse_gemini_output response
    | Raise ex => r = Raise ex
    end.
Proof.
  intros H. unfold Analyzer.audio_file_state, get_audio_file.
  unfold_monad. rewrite H.
  destruct (generate_content_audio e Prompt.audio_prompt st);
    eexists; split; reflexivity.
Qed.

(** The [finally] block of [GeminiAnalyzer.analyze_audio]. *)
Lemma analyzer_cleanup e w :
  (af ← get_audio_file;
   match af with
   | Some st =>
       if negb (file_state_eqb st FAILED)
       then call DeleteFile (delete_file e)
       else mret tt
   | None => mret tt
   end) w
  = if deletable (audio_file w)
    then Some (delete_file e, with_calls w [DeleteFile])
    else Some (Ok tt, w).
Proof.
  unfold get_audio_file. unfold_monad.
  destruct (audio_file w) as [[| |]|]; reflexivity.
Qed.

(** X13: the polling of [analyzer.py]: the loop sleeps five seconds before
    each poll and ends with the first answer that is not PROCESSING, the
    generation request carries the file in that state, and nothing follows
    it but the deletion request of the [finally] block, which is left out
    for a file in state FAILED.  The calls of the run are exactly these:
    one upload, [k + 1] polls, one generation request, at most one
    deletion. *)
Theorem analyzer_polling_schedule e path k st fuel w :
  upload_file e path = Ok PROCESSING ->
  (forall i, i < k -> get_file e (polls w + i) = Ok PROCESSING) ->
  get_file e (polls w + k) = Ok st -> st <> PROCESSING -> k < fuel ->
  exists r w',
    Analyzer.analyze_audio e path fuel w = Some (r, w') /\
    trace w' = trace w ++ UploadFile path :: rounds 5 (S k)
               ++ GenerateContentAudio Prompt.audio_prompt st
               :: (if file_state_eqb st FAILED then [] else [DeleteFile]).
Proof.
  intros Hu Hp Hst Hne Hf. unfold Analyzer.analyze_audio.
  erewrite bind_ok by reflexivity.
  match goal with
  | |- context [finally (try_except ?body _) ?c ?w0] =>
      assert (exists r1 w3, body w0 = Some (r1, w3) /\
                audio_file w3 = Some st /\
                trace w3 = trace w ++ UploadFile path :: rounds 5 (S k)
                           ++ [GenerateContentAudio Prompt.audio_prompt st])
        as (r1 & w3 & Eb & Haf & Htr)
  end.
  { erewrite bind_ok by (apply upload_ok, Hu).
    destruct (while_polls e 5 k fuel
                {| files := files w; trace := trace w ++ [UploadFile path];
                   polls := polls w; audio_file := Some PROCESSING;
                   audio_file_path := audio_file_path w |}
                st eq_refl Hp Hst Hne Hf) as (w2 & E2 & _ & _ & Haf2 & Htr2).
    erewrite bind_ok by exact E2.
    destruct (analyzer_generation e w2 st Haf2) as (r1 & E3 & _).
    eexists _, _. split; [exact E3|]. split; [exact Haf2|].
    cbn [with_calls trace]. rewrite Htr2. cbn [trace]. trace_eq. }
  unfold finally. rewrite (try_reraise _ _ _ _ Eb), analyzer_cleanup.
  rewrite Haf.
  destruct st; [congruence| |].
  - destruct (delete_file e); eexists _, _;
      (split; [reflexivity|]); cbn [with_calls trace file_state_eqb];
      rewrite Htr; trace_eq.
  - eexists _, _. split; [reflexivity|]. cbn [file_state_eqb].
    rewrite Htr. trace_eq.
Qed.

Lemma analyzer_polling_schedule_witness :
  exists r w',
    Analyzer.analyze_audio slow_env "audio.mp3" 3 (init ∅) = Some (r, w') /\
    trace w' = trace (init ∅) ++ UploadFile "audio.mp3" :: rounds 5 3
               ++ GenerateContentAudio Prompt.audio_prompt ACTIVE
               :: (if file_state_eqb ACTIVE FAILED then [] else [DeleteFile]).
Proof.
  apply (analyzer_polling_schedule slow_env "audio.mp3" 2 ACTIVE 3 (init ∅)).
  - reflexivity.
  - intros i Hi. cbn [polls init Nat.add get_file slow_env].
    destruct i as [|[|i]]; [reflexivity|reflexivity|lia].
  - reflexivity.
  - discriminate.
  - lia.
Defined.

Lemma emits_only_state P : emits_only P Analyzer.audio_file_state.
Proof.
  apply emits_only_silent. intros w r w' H.
  unfold Analyzer.audio_file_state, get_audio_file in H. unfold_monad_in H.
  destruct (audio_file w); inversion H; reflexivity.
Qed.

(** The two halves of [GeminiAnalyzer.analyze_audio]: the body of the
    [try], which never asks for the deletion, and the [finally] block. *)
Lemma analyzer_audio_inv e path fuel w r w' :
  Analyzer.analyze_audio e path fuel w = Some (r, w') ->
  exists r1 w1 evs,
    Forall not_delete evs /\ trace w1 = trace w ++ evs /\
    audio_file w' = audio_file w1 /\
    if deletable (audio_file w1)
    then w' = with_calls w1 [DeleteFile] /\
         r = match delete_file e with Ok _ => r1 | Raise ex => Raise ex end
    else w' = w1 /\ r = r1.
Proof.
  intros H. unfold Analyzer.analyze_audio in H.
  erewrite bind_ok in H by reflexivity. unfold finally in H.
  match type of H with
  | match ?m ?w0 with _ => _ end = _ =>
      assert (emits_only not_delete m) as Hm;
      [|destruct (m w0) as [[r1 w1]|] eqn:Em; [|discriminate];
        destruct (Hm _ _ _ Em) as (evs & Htr & Hev)]
  end.
  { apply emits_only_try; [|intros ex; apply emits_only_lift].
    apply emits_only_bind; [apply emits_only_upload; discriminate|].
    intros _. apply emits_only_bind.
    { apply emits_only_while, emits_only_bind;
        [apply emits_only_emit; discriminate|].
      intros _. apply emits_only_refresh. discriminate. }
    intros _. apply emits_only_bind; [apply emits_only_state|].
    intros st. apply emits_only_bind; [apply emits_only_call; discriminate|].
    intros response. apply emits_only_lift. }
  rewrite analyzer_cleanup in H. exists r1, w1, evs.
  split; [exact Hev|]. split; [exact Htr|].
  destruct (deletable (audio_file w1)).
  - destruct (delete_file e); inversion H; subst; auto.
  - inversion H; subst. auto.
Qed.

(** X14: the audio analysis of [analyzer.py] asks for the deletion of the
    uploaded file once, as its last call, on every way out on which the
    upload succeeded and its state is not FAILED, and never otherwise. *)
Theorem analyzer_audio_remote_cleanup e path fuel w r w' :
  Analyzer.analyze_audio e path fuel w = Some (r, w') ->
  exists evs,
    Forall not_delete evs /\
    trace w' = trace w ++ evs ++
               (if deletable (audio_file w') then [DeleteFile] else []).
Proof.
  intros H.
  destruct (analyzer_audio_inv _ _ _ _ _ _ H)
    as (r1 & w1 & evs & Hev & Htr & Haf & Hend).
  exists evs. split; [exact Hev|]. rewrite Haf.
  destruct (deletable (audio_file w1)); destruct Hend as [-> _].
  - cbn [with_calls trace]. rewrite Htr. trace_eq.
  - rewrite Htr, app_nil_r. reflexivity.
Qed.

Lemma analyzer_audio_remote_cleanup_witness :
  exists r w' evs,
    Analyzer.analyze_audio audio_failure_env "audio.mp3" 1 (init ∅)
      = Some (r, w') /\
    Forall not_delete evs /\
    trace w' = trace (init ∅) ++ evs ++
               (if deletable (audio_file w') then [DeleteFile] else []).
Proof.
  destruct (Analyzer.analyze_audio audio_failure_env "audio.mp3" 1 (init ∅))
    as [[r w']|] eqn:E; [|vm_compute in E; discriminate].
  destruct (analyzer_audio_remote_cleanup _ _ _ _ _ _ E) as (evs & H1 & H2).
  exists r, w', evs. auto.
Defined.

(** X15: when the service refuses the deletion of the uploaded file, the
    audio analysis of [analyzer.py] ends with that exception, whatever it
    had to return. *)
Theorem delete_failure_masks_analysis e path fuel w r w' ex st :
  Analyzer.analyze_audio e path fuel w = Some (r, w') ->
  delete_file e = Raise ex -> audio_file w' = Some st -> st <> FAILED ->
  r = Raise ex.
Proof.
  intros H Hd Hst Hne.
  destruct (analyzer_audio_inv _ _ _ _ _ _ H)
    as (r1 & w1 & evs & _ & _ & Haf & Hend).
  rewrite <- Haf, Hst in Hend.
  destruct st; try congruence; cbn [deletable] in Hend;
    destruct Hend as [_ ->]; rewrite Hd; reflexivity.
Qed.

Lemma delete_failure_masks_analysis_witness :
  exists r w',
    Analyzer.analyze_audio delete_failure_env "audio.mp3" 1 (init ∅)
      = Some (r, w') /\
    r = Raise ServiceError.
Proof.
  eexists _, _. split; [vm_compute; reflexivity|].
  eapply (delete_failure_masks_analysis delete_failure_env "audio.mp3" 1
            (init ∅) _ _ ServiceError ACTIVE);
    [vm_compute; reflexivity|reflexivity|reflexivity|discriminate].
Defined.

(** X16: the audio analysis of [agent_scraper.py] never polls: the first
    statement of its loop body raises [TypeError], so an upload that is
    still being processed ends the analysis right after the upload. *)
Theorem agent_audio_never_polls e path fuel w :
  (forall r w', AgentScraper.analyze_audio e path fuel w = Some (r, w') ->
     exists evs, trace w' = trace w ++ evs /\ Forall not_poll evs) /\
  (upload_file e path = Ok PROCESSING ->
   exists w', AgentScraper.analyze_audio e path (S fuel) w
                = Some (Raise TypeError, w') /\
              trace w' = trace w ++ [UploadFile path]).
Proof.
  split.
  - assert (emits_only not_poll (AgentScraper.analyze_audio e path fuel)) as H.
    { unfold AgentScraper.analyze_audio.
      apply emits_only_bind.
      { apply emits_only_silent. intros w0 r0 w0' H. inversion H. reflexivity. }
      intros _. apply emits_only_bind; [apply emits_only_upload; exact I|].
      intros _. apply emits_only_bind.
      { apply emits_only_while, emits_only_silent.
        intros w0 r0 w0' H. inversion H. reflexivity. }
      intros _. apply emits_only_bind; [apply emits_only_state|].
      intros st. apply emits_only_bind; [apply emits_only_call; exact I|].
      intros response. apply emits_only_lift. }
    intros r w' Hr. destruct (H _ _ _ Hr) as (evs & Htr & Hev). eauto.
  - intros Hu. unfold AgentScraper.analyze_audio.
    erewrite bind_ok by reflexivity.
    erewrite bind_ok by (apply upload_ok, Hu).
    eexists. split; [reflexivity|]. reflexivity.
Qed.

Lemma agent_audio_never_polls_witness :
  exists w', AgentScraper.analyze_audio stuck_env "audio.mp3" 1 (init ∅)
               = Some (Raise TypeError, w') /\
             trace w' = trace (init ∅) ++ [UploadFile "audio.mp3"].
Proof.
  exact (proj2 (agent_audio_never_polls stuck_env "audio.mp3" 0 (init ∅))
               eq_refl).
Defined.



(** * The scripts as a whole *)

Lemma never_raises_ret {A} (a : A) : never_raises (mret a : M A).
Proof. intros w r w' H. inversion H. eauto. Qed.

Lemma never_raises_bind {A B} (m : M A) (f : A -> M B) :
  never_raises m -> (forall a, never_raises (f a)) -> never_raises (m ≫= f).
Proof.
  intros Hm Hf w r w' H.
  apply bind_inv in H as [(a & w1 & _ & H)|(ex & H & ->)].
  - exact (Hf a _ _ _ H).
  - destruct (Hm _ _ _ H) as [a Ha]. discriminate.
Qed.

Lemma never_raises_try {A} (m : M A) h :
  (forall ex, never_raises (h ex)) -> never_raises (try_except m h).
Proof.
  intros Hh w r w' H. unfold try_except in H.
  destruct (m w) as [[[a|ex] w1]|] eqn:E.
  - inversion H. eauto.
  - exact (Hh ex _ _ _ H).
  - discriminate.
Qed.

Lemma never_raises_video_id url :
  never_raises (lift (Script.get_video_id url)).
Proof.
  destruct (get_video_id_ok url) as [r ->]. intros w r' w' H.
  inversion H. eauto.
Qed.

(** Two computations that agree step by step agree as a whole. *)
Lemma bind_ext {A B} (m m' : M A) (f f' : A -> M B) w :
  m w = m' w -> (forall a w1, f a w1 = f' a w1) ->
  (m ≫= f) w = (m' ≫= f') w.
Proof.
  intros Hm Hf. unfold mbind, M_bind. rewrite Hm.
  destruct (m' w) as [[[a|ex] w1]|]; auto.
Qed.

Lemma try_ext {A} (m m' : M A) h h' w :
  m w = m' w -> (forall ex w1, h ex w1 = h' ex w1) ->
  try_except m h w = try_except m' h' w.
Proof.
  intros Hm Hh. unfold try_except. rewrite Hm.
  destruct (m' w) as [[[a|ex] w1]|]; auto.
Qed.

Lemma finally_ext {A} (m m' : M A) c c' w :
  m w = m' w -> (forall w1, c w1 = c' w1) ->
  finally m c w = finally m' c' w.
Proof.
  intros Hm Hc. unfold finally. rewrite Hm.
  destruct (m' w) as [[r w1]|]; [|reflexivity]. rewrite Hc. reflexivity.
Qed.

Lemma while_ext fuel (body body' : M unit) :
  (forall w, body w = body' w) ->
  forall w, while_processing fuel body w = while_processing fuel body' w.
Proof.
  intros Hb. induction fuel as [|fuel IH]; intros w; cbn [while_processing].
  - reflexivity.
  - destruct (audio_file w) as [[| |]|]; try reflexivity.
    apply bind_ext; [apply Hb|]. intros _ w1. apply IH.
Qed.

(** On a standard output that takes every text, the functions of
    [auto_scraper.py] run as they do without their messages. *)
Section Quiet.

Variable stdout : str -> result unit.
Variable str_exn : exn -> str.
Variable remote_name : str.
Variable e : env.
Hypothesis stdout_ok : forall text, stdout text = Ok tt.

Lemma print_ok {B} text (f : unit -> M B) w :
  (AutoScraperPrints.print stdout text ≫= f) w = f tt w.
Proof using stdout_ok.
  unfold AutoScraperPrints.print, lift, mbind, M_bind. rewrite stdout_ok.
  reflexivity.
Qed.

Lemma print_last text w :
  AutoScraperPrints.print stdout text w = Some (Ok tt, w).
Proof using stdout_ok.
  unfold AutoScraperPrints.print, lift. rewrite stdout_ok. reflexivity.
Qed.

Lemma print_summary_quiet summary w :
  AutoScraperPrints.print_summary stdout summary w = emit (Stdout summary) w.
Proof using stdout_ok.
  unfold AutoScraperPrints.print_summary. rewrite !print_ok.
  unfold mbind, M_bind, emit. rewrite print_last. reflexivity.
Qed.

Lemma download_audio_quiet url w :
  AutoScraperPrints.download_audio stdout str_exn e url w
  = Script.download_audio e url w.
Proof using stdout_ok.
  unfold AutoScraperPrints.download_audio, Script.download_audio. cbv zeta.
  rewrite print_ok.
  apply try_ext.
  - apply bind_ext; [reflexivity|]. intros a w1. apply print_ok.
  - intros ex w1. apply print_ok.
Qed.

Lemma analyze_transcript_data_quiet segs w :
  AutoScraperPrints.analyze_transcript_data stdout e segs w
  = AutoScraper.analyze_transcript_data e segs w.
Proof using stdout_ok.
  unfold AutoScraperPrints.analyze_transcript_data,
    AutoScraper.analyze_transcript_data.
  rewrite print_ok. apply bind_ext; [reflexivity|]. intros full_text w1.
  apply print_ok.
Qed.

Lemma analyze_audio_quiet path fuel w :
  AutoScraperPrints.analyze_audio stdout remote_name e path fuel w
  = AutoScraper.analyze_audio e path fuel w.
Proof using stdout_ok.
  unfold AutoScraperPrints.analyze_audio, AutoScraper.analyze_audio.
  apply bind_ext; [reflexivity|]. intros _ w1. rewrite print_ok.
  apply bind_ext; [reflexivity|]. intros _ w2.
  apply bind_ext.
  { apply while_ext. intros w3. apply print_ok. }
  intros _ w3. apply bind_ext; [reflexivity|]. intros st w4.
  destruct (file_state_eqb st FAILED); [reflexivity|].
  rewrite print_ok. cbv zeta.
  apply bind_ext; [reflexivity|]. intros prompt w5.
  apply bind_ext; [reflexivity|]. intros response w6.
  apply bind_ext; [reflexivity|]. intros _ w7. apply print_ok.
Qed.

Lemma run_agent_quiet url fuel w :
  AutoScraperPrints.run_agent stdout str_exn remote_name e url fuel w
  = AutoScraper.run_agent e url fuel w.
Proof using stdout_ok.
  unfold AutoScraperPrints.run_agent, AutoScraper.run_agent.
  apply bind_ext; [reflexivity|]. intros [[|c vid]|] w1;
    try apply print_last.
  rewrite print_ok. apply bind_ext.
  - apply try_ext.
    + rewrite print_ok. apply bind_ext; [reflexivity|]. intros segs w2.
      apply bind_ext; [apply analyze_transcript_data_quiet|].
      intros summary w3. apply bind_ext; [apply print_summary_quiet|].
      reflexivity.
    + intros ex w2.
      destruct (AutoScraperPrints.no_transcript ex); apply print_ok.
  - intros [|] w2; [reflexivity|]. rewrite print_ok. apply try_ext.
    + apply bind_ext; [apply download_audio_quiet|]. intros af w3.
      apply bind_ext; [reflexivity|]. intros present w4.
      destruct af as [path|]; [|apply print_last].
      destruct present; [|apply print_last].
      apply finally_ext.
      * apply bind_ext; [apply analyze_audio_quiet|]. intros summary w5.
        apply print_summary_quiet.
      * intros w5. unfold mbind, M_bind.
        destruct (os_remove path w5) as [[[[]|ex] w6]|]; try reflexivity.
        apply print_last.
    + intros ex w3. apply print_last.
Qed.

End Quiet.

(** Where an exception that leaves may come from. *)
Lemma raises_only_ok P {A} (r : A) : raises_only P (mret r : M A).
Proof. intros w ex w' H. inversion H. Qed.

Lemma raises_only_bind P {A B} (m : M A) (f : A -> M B) :
  raises_only P m -> (forall a, raises_only P (f a)) ->
  raises_only P (m ≫= f).
Proof.
  intros Hm Hf w ex w' H.
  apply bind_inv in H as [(a & w1 & _ & H)|(ex' & H & E)].
  - exact (Hf a _ _ _ H).
  - inversion E; subst. exact (Hm _ _ _ H).
Qed.

Lemma raises_only_try P {A} (m : M A) h :
  (forall ex, raises_only P (h ex)) -> raises_only P (try_except m h).
Proof.
  intros Hh w ex w' H. unfold try_except in H.
  destruct (m w) as [[[a|ex'] w1]|] eqn:E.
  - inversion H.
  - exact (Hh ex' _ _ _ H).
  - discriminate.
Qed.

Lemma raises_only_print stdout text :
  raises_only (fun ex => exists t, stdout t = Raise ex)
    (AutoScraperPrints.print stdout text).
Proof.
  intros w ex w' H. unfold AutoScraperPrints.print, lift in H.
  inversion H. eauto.
Qed.

Lemma raises_only_video_id P url :
  raises_only P (lift (Script.get_video_id url)).
Proof.
  destruct (get_video_id_ok url) as [r E]. intros w ex w' H.
  unfold lift in H. rewrite E in H. inversion H.
Qed.

(** X18: which exceptions leave [run_agent].  In [agent_scraper.py] none
    does: the extraction of the id cannot raise, each plan catches what is
    raised inside it, and the messages go through [logging], whose handlers
    keep the errors of their stream to themselves.  In [auto_scraper.py]
    the messages are printed, some outside every [try] and some inside a
    handler: the exceptions that leave [run_agent] are those of [print]
    and no others; on a standard output that takes every text the run is
    the run of the model without messages, so nothing is raised; and a
    standard output that refuses the first message ends the run with that
    exception before any call is made. *)
Theorem run_agent_raises_only_from_print
    stdout str_exn remote_name e url fuel :
  never_raises (AgentScraper.run_agent e url fuel) /\
  raises_only (fun ex => exists text, stdout text = Raise ex)
    (AutoScraperPrints.run_agent stdout str_exn remote_name e url fuel) /\
  ((forall text, stdout text = Ok tt) ->
   forall w,
     AutoScraperPrints.run_agent stdout str_exn remote_name e url fuel w
     = AutoScraper.run_agent e url fuel w) /\
  (forall ex w,
     stdout (first_message url) = Raise ex ->
     AutoScraperPrints.run_agent stdout str_exn remote_name e url fuel w
     = Some (Raise ex, w)).
Proof.
  split; [|split; [|split]].
  - unfold AgentScraper.run_agent.
    apply never_raises_bind; [apply never_raises_video_id|].
    intros [[|c vid]|]; try apply never_raises_ret.
    apply never_raises_bind.
    + apply never_raises_try. intros _. apply never_raises_ret.
    + intros [a|]; [apply never_raises_ret|].
      apply never_raises_try. intros _. apply never_raises_ret.
  - unfold AutoScraperPrints.run_agent.
    apply raises_only_bind; [apply raises_only_video_id|].
    intros [[|c vid]|]; try apply raises_only_print.
    apply raises_only_bind; [apply raises_only_print|]. intros _.
    apply raises_only_bind.
    + apply raises_only_try. intros ex.
      apply raises_only_bind; [|intros; apply raises_only_ok].
      destruct (AutoScraperPrints.no_transcript ex); apply raises_only_print.
    + intros [|]; [apply raises_only_ok|].
      apply raises_only_bind; [apply raises_only_print|]. intros _.
      apply raises_only_try. intros ex. apply raises_only_print.
  - intros Hok w. apply run_agent_quiet. exact Hok.
  - intros ex w H. unfold AutoScraperPrints.run_agent, first_message in *.
    destruct (get_video_id_ok url) as [r E]. rewrite E in *.
    unfold mbind at 1, M_bind at 1, lift at 1.
    destruct r as [[|c vid]|].
    + unfold AutoScraperPrints.print, lift. rewrite H. reflexivity.
    + erewrite bind_raise; [reflexivity|].
      unfold AutoScraperPrints.print, lift. rewrite H. reflexivity.
    + unfold AutoScraperPrints.print, lift. rewrite H. reflexivity.
Qed.

Lemma run_agent_raises_only_from_print_witness :
  AutoScraperPrints.run_agent latin1_stdout short_str_exn (s_ "files/abc")
    good_env sample_url 1 (init ∅)
  = Some (Raise UnicodeEncodeError, init ∅).
Proof.
  apply (proj2 (proj2 (proj2 (run_agent_raises_only_from_print
           latin1_stdout short_str_exn (s_ "files/abc") good_env sample_url
           1)))).
  vm_compute. reflexivity.
Defined.



Lemma auto_plan_b_footprint e url fuel w r w' :
  try_except
    (audio_file ← Script.download_audio e url;
     present ← Script.downloaded audio_file;
     match audio_file, present with
     | Some path, true =>
         finally
           (summary ← AutoScraper.analyze_audio e path fuel;
            emit (Stdout summary))
           (os_remove path)
     | _, _ => mret tt
     end)
    (fun _ => mret tt) w = Some (r, w') ->
  files w' ⊆ files w /\ files w ∖ {["audio.mp3"%string]} ⊆ files w'.
Proof.
  intros H.
  unfold Script.download_audio, ydl_download, Script.downloaded,
    path_exists, create_file, finally, os_remove in H.
  unfold_monad_in H.
  destruct (download e url "audio.mp3") as [[|]|ex] eqn:Ed;
    cbn [files trace polls audio_file audio_file_path] in H;
    try change (String.eqb "audio.mp3" "") with false in H;
    cbn [files trace polls audio_file audio_file_path] in H.
  - rewrite (bool_decide_eq_true_2 ("audio.mp3"%string ∈ {["audio.mp3"%string]} ∪ files w))
      in H by set_tauto.
    cbv beta iota in H.
    match type of H with
    | context [AutoScraper.analyze_audio e ?p fuel ?w0] =>
        destruct (AutoScraper.analyze_audio e p fuel w0)
          as [[[a|ex] w2]|] eqn:Ea; [| |discriminate];
        apply auto_audio_keeps_files in Ea as [Ef _]; cbn in Ef
    end.
    + cbn [files trace polls audio_file audio_file_path] in H.
      rewrite Ef in H.
      rewrite bool_decide_eq_true_2 in H by set_tauto.
      inversion H; subst; clear H. cbn. rewrite ?Ef. split; set_tauto.
    + rewrite Ef in H.
      rewrite bool_decide_eq_true_2 in H by set_tauto.
      inversion H; subst; clear H. cbn. rewrite ?Ef. split; set_tauto.
  - destruct (bool_decide ("audio.mp3"%string ∈ files w)) eqn:Eb.
    + apply bool_decide_eq_true_1 in Eb. cbv beta iota in H.
      match type of H with
      | context [AutoScraper.analyze_audio e ?p fuel ?w0] =>
          destruct (AutoScraper.analyze_audio e p fuel w0)
            as [[[a|ex] w2]|] eqn:Ea; [| |discriminate];
          apply auto_audio_keeps_files in Ea as [Ef _]; cbn in Ef
      end.
      * cbn [files trace polls audio_file audio_file_path] in H.
        rewrite Ef in H.
        rewrite bool_decide_eq_true_2 in H by exact Eb.
        inversion H; subst; clear H. cbn. rewrite ?Ef. split; set_tauto.
      * rewrite Ef in H.
        rewrite bool_decide_eq_true_2 in H by exact Eb.
        inversion H; subst; clear H. cbn. rewrite ?Ef. split; set_tauto.
    + inversion H; subst; clear H. cbn. split; set_tauto.
  - inversion H; subst; clear H. cbn. split; set_tauto.
Qed.



(** * The analysis of a transcript *)

Lemma format_timestamp_number x :
  is_number x = true -> exists t, format_timestamp x = Ok t.
Proof.
  unfold format_timestamp. destruct x; try discriminate; intros _;
    cbn [py_int mbind result_bind mret result_ret]; eauto.
Qed.

Lemma format_timestamp_not_number x :
  is_number x = false ->
  exists ex, format_timestamp x = Raise ex /\
             (ex = ValueError \/ ex = OverflowError).
Proof.
  unfold format_timestamp. destruct x; try discriminate; intros _;
    cbn [py_int mbind result_bind]; eauto.
Qed.

Lemma render_raises segs : forall acc,
  Exists (fun seg => is_number (start seg) = false) segs ->
  exists ex, Prompt.render_transcript segs acc = Raise ex /\
             (ex = ValueError \/ ex = OverflowError).
Proof.
  induction segs as [|seg segs IH]; intros acc H; [inversion H|].
  cbn [Prompt.render_transcript].
  destruct (is_number (start seg)) eqn:E.
  - destruct (format_timestamp_number _ E) as [t ->].
    cbn [mbind result_bind]. apply IH.
    inversion H; subst; [congruence|assumption].
  - destruct (format_timestamp_not_number _ E) as (ex & -> & Hex).
    exists ex. auto.
Qed.

Lemma render_ok segs : forall acc,
  Forall (fun seg => is_number (start seg) = true) segs ->
  exists full_text, Prompt.render_transcript segs acc = Ok full_text.
Proof.
  induction segs as [|seg segs IH]; intros acc H;
    cbn [Prompt.render_transcript].
  - eexists. reflexivity.
  - inversion H as [|? ? Hseg Hrest]; subst.
    destruct (format_timestamp_number _ Hseg) as [t ->].
    cbn [mbind result_bind]. apply IH, Hrest.
Qed.



Lemma parse_ok s :
  (exists a, _parse_gemini_output s = Ok a) /\
  (exists b, parse_gemini_output s = Ok b).
Proof.
  destruct (_parse_gemini_output_eq s) as (k1 & _ & Ha).
  destruct (parse_gemini_output_eq s) as (k2 & _ & Hb). eauto.
Qed.

(** X22: when every start is a number and the model answers, the analysis
    of the transcript returns a result, in [analyzer.py] and in
    [agent_scraper.py]: neither the rendering nor the parser can raise. *)
Theorem transcript_analysis_succeeds e segs :
  Forall (fun seg => is_number (start seg) = true) segs -> answers e ->
  succeeds (Analyzer.analyze_transcript_data e segs) /\
  succeeds (AgentScraper.analyze_transcript_data e segs).
Proof.
  intros H He. destruct (render_ok segs [] H) as [full E].
  split; intros w.
  - unfold Analyzer.analyze_transcript_data. rewrite E.
    erewrite bind_ok by reflexivity. cbv zeta.
    match goal with
    | |- context [generate_content e ?p] => destruct (He p) as [reply Hr]
    end.
    destruct (proj1 (parse_ok reply)) as [a Ha].
    exists a. unfold_monad. rewrite Hr, Ha. eexists. reflexivity.
  - unfold AgentScraper.analyze_transcript_data. rewrite E.
    erewrite bind_ok by reflexivity. cbv zeta.
    match goal with
    | |- context [generate_content e ?p] => destruct (He p) as [reply Hr]
    end.
    destruct (proj2 (parse_ok reply)) as [a Ha].
    exists a. unfold_monad. rewrite Hr, Ha. eexists. reflexivity.
Qed.

Lemma transcript_analysis_succeeds_witness :
  succeeds (Analyzer.analyze_transcript_data good_env two_segments) /\
  succeeds (AgentScraper.analyze_transcript_data good_env two_segments).
Proof.
  apply (transcript_analysis_succeeds good_env two_segments).
  - repeat constructor.
  - intros prompt. eexists. reflexivity.
Defined.

Lemma digit_notnl c : is_digit_char c = true -> notnl c = true.
Proof.
  unfold is_digit_char, notnl, NL. intros H.
  apply andb_true_iff in H as [H1 H2]. apply N.leb_le in H1.
  apply negb_true_iff, N.eqb_neq. lia.
Qed.

Lemma fmt_02d_notnl z : forallb notnl (fmt_02d z) = true.
Proof.
  assert (forall d, forallb notnl (uint_chars d) = true) as Hd.
  { intros d. pose proof (uint_chars_digits d) as H.
    rewrite forallb_forall in *. intros c Hc. apply digit_notnl, H, Hc. }
  assert (forall w d, forallb notnl (zero_pad w (uint_chars d)) = true) as Hz.
  { intros w d. unfold zero_pad. rewrite forallb_app, Hd, andb_true_r.
    apply forallb_forall. intros c Hc. apply repeat_spec in Hc. subst c.
    reflexivity. }
  unfold fmt_02d. destruct (z <? 0)%Z; [cbn [forallb]|]; rewrite Hz; reflexivity.
Qed.

Lemma format_seconds_notnl n : forallb notnl (format_seconds n) = true.
Proof.
  unfold format_seconds, divmod.
  destruct (0 <? n / 60 / 60)%Z;
    rewrite !forallb_app, !fmt_02d_notnl; reflexivity.
Qed.

Lemma format_timestamp_notnl x t :
  format_timestamp x = Ok t -> forallb notnl t = true.
Proof.
  unfold format_timestamp. destruct (py_int x); [|discriminate].
  intros H. inversion H. apply format_seconds_notnl.
Qed.

Lemma split_lines lines :
  Forall (fun l => forallb notnl l = true) lines ->
  split NL (concat (map (fun l => l ++ [NL]) lines)) = lines ++ [[]].
Proof.
  induction lines as [|l lines IH]; intros H; [reflexivity|].
  inversion H as [|? ? Hl Hrest]; subst.
  cbn [map concat]. rewrite <- app_assoc. cbn [app].
  rewrite split_app, (split_none NL l Hl), (IH Hrest). reflexivity.
Qed.

Lemma render_lines segs : forall acc,
  Forall (fun seg => is_number (start seg) = true /\
                     forallb notnl (text seg) = true) segs ->
  exists lines,
    Prompt.render_transcript segs acc
      = Ok (acc ++ concat (map (fun l => l ++ [NL]) lines)) /\
    Forall (fun l => forallb notnl l = true) lines /\
    Forall2 (fun seg line =>
               exists time_str, format_timestamp (start seg) = Ok time_str /\
                                line = transcript_line time_str seg)
            segs lines.
Proof.
  induction segs as [|seg segs IH]; intros acc H.
  - exists []. cbn. rewrite app_nil_r. auto.
  - inversion H as [|? ? [Hnum Htext] Hrest]; subst.
    destruct (format_timestamp_number _ Hnum) as [t Ht].
    destruct (IH (acc ++ s_ "[" ++ t ++ s_ "] " ++ text seg ++ [NL]) Hrest)
      as (lines & E & Hl & Hf).
    exists (transcript_line t seg :: lines).
    cbn [Prompt.render_transcript]. rewrite Ht. cbn [mbind result_bind].
    rewrite E. split; [|split].
    + f_equal. cbn [map concat]. unfold transcript_line.
      rewrite <- !app_assoc. reflexivity.
    + constructor; [|exact Hl]. unfold transcript_line.
      rewrite !forallb_app, (format_timestamp_notnl _ _ Ht), Htext. reflexivity.
    + constructor; [|exact Hf]. eauto.
Qed.

(** X23: the text sent for a transcript has one line for each segment, in
    order: the timestamp of its start in brackets, a space and its text;
    this wants texts that hold no newline. *)
Theorem transcript_one_line_per_segment segs :
  Forall (fun seg => is_number (start seg) = true /\
                     forallb notnl (text seg) = true) segs ->
  exists full_text lines,
    Prompt.render_transcript segs [] = Ok full_text /\
    split NL full_text = lines ++ [[]] /\
    Forall2 (fun seg line =>
               exists time_str, format_timestamp (start seg) = Ok time_str /\
                                line = transcript_line time_str seg)
            segs lines.
Proof.
  intros H. destruct (render_lines segs [] H) as (lines & E & Hl & Hf).
  eexists _, lines. split; [exact E|]. split; [|exact Hf].
  cbn [app]. apply split_lines, Hl.
Qed.

Lemma transcript_one_line_per_segment_witness :
  exists full_text lines,
    Prompt.render_transcript two_segments [] = Ok full_text /\
    split NL full_text = lines ++ [[]] /\
    Forall2 (fun seg line =>
               exists time_str, format_timestamp (start seg) = Ok time_str /\
                                line = transcript_line time_str seg)
            two_segments lines.
Proof.
  apply (transcript_one_line_per_segment two_segments).
  repeat constructor.
Defined.

Lemma lacks_skipn c p j x :
  lacks c p = true -> j < length p ->
  exists d y, skipn j (p ++ x) = d :: y /\ (d =? c)%N = false.
Proof.
  revert j. induction p as [|d p IH]; intros j Hp Hj; cbn in Hj; [lia|].
  cbn [lacks forallb] in Hp. apply andb_true_iff in Hp as [Hd Hp].
  destruct j as [|j].
  - exists d, (p ++ x). split; [reflexivity|]. apply negb_true_iff, Hd.
  - apply (IH j Hp). lia.
Qed.

Lemma lacks_contains c sep s :
  lacks c s = true -> contains (c :: sep) s = false.
Proof.
  induction s as [|d s IH]; intros H; [reflexivity|].
  cbn [lacks forallb] in H. apply andb_true_iff in H as [Hd H].
  cbn [contains startswith]. rewrite (N.eqb_sym c d).
  apply negb_true_iff in Hd. rewrite Hd. cbn [andb orb]. apply IH, H.
Qed.

Lemma replace_none old new s :
  contains old s = false -> replace old new s = s.
Proof. intros H. unfold replace. rewrite split_str_none by exact H. reflexivity. Qed.

Lemma replace_once c sep new pre post :
  lacks c pre = true -> lacks c post = true ->
  replace (c :: sep) new (pre ++ (c :: sep) ++ post) = pre ++ new ++ post.
Proof.
  intros Hpre Hpost. unfold replace.
  rewrite split_str_first; [|discriminate|].
  - rewrite (split_str_none _ _ (lacks_contains c sep post Hpost)). reflexivity.
  - intros j Hj.
    destruct (lacks_skipn c pre j ((c :: sep) ++ post) Hpre Hj)
      as (d & y & -> & Hd).
    cbn [startswith]. rewrite (N.eqb_sym c d), Hd. reflexivity.
Qed.



(** X25: [agent_scraper.py] sends a transcript without segments to the
    model like any other: the prompt holds an empty transcript, and the
    answer is the result of the run. *)
Theorem agent_sends_empty_transcript e url fuel w video_id reply :
  Script.get_video_id url = Ok (Some video_id) -> video_id <> [] ->
  fetch_transcript e video_id = Ok [] ->
  generate_content e (Prompt.transcript_prompt (s_ "The video is about: ") [])
    = Ok reply ->
  exists a w',
    AgentScraper.run_agent e url fuel w = Some (Ok (Some a), w') /\
    parse_gemini_output reply = Ok a /\
    trace w' = trace w ++
      [FetchTranscript video_id;
       GenerateContent (Prompt.transcript_prompt (s_ "The video is about: ") [])].
Proof.
  intros Hid Hne Hf Hg. destruct (proj2 (parse_ok reply)) as [a Ha].
  exists a. unfold AgentScraper.run_agent. rewrite Hid.
  erewrite bind_ok by reflexivity.
  destruct video_id as [|c v]; [congruence|].
  unfold AgentScraper.analyze_transcript_data.
  unfold_monad. rewrite Hf. cbv beta iota zeta.
  cbn [trace files polls audio_file audio_file_path].
  change (Prompt.render_transcript [] []) with (Ok ([] : str)).
  cbv beta iota. rewrite Hg. cbv beta iota zeta. rewrite Ha.
  eexists. split; [reflexivity|]. split; [reflexivity|]. cbn [trace]. trace_eq.
Qed.

Lemma agent_sends_empty_transcript_witness :
  exists a w',
    AgentScraper.run_agent empty_transcript_env sample_url 1 (init ∅)
      = Some (Ok (Some a), w') /\
    parse_gemini_output template_reply = Ok a /\
    trace w' = trace (init ∅) ++
      [FetchTranscript (s_ "abc123");
       GenerateContent (Prompt.transcript_prompt (s_ "The video is about: ") [])].
Proof.
  apply (agent_sends_empty_transcript empty_transcript_env sample_url 1 (init ∅)
           (s_ "abc123") template_reply);
    [vm_compute; reflexivity|discriminate|reflexivity|reflexivity].
Defined.



(** * The files after [agent_scraper.py] *)

Lemma agent_audio_keeps_files e path fuel :
  keeps_files (AgentScraper.analyze_audio e path fuel).
Proof.
  unfold AgentScraper.analyze_audio.
  apply keeps_files_bind; [apply keeps_files_unbind|]. intros _.
  apply keeps_files_bind; [apply keeps_files_upload|]. intros _.
  apply keeps_files_bind.
  { apply keeps_files_while. apply keeps_files_bind;
      [apply keeps_files_lift|]. intros _.
    apply keeps_files_bind;
      [apply keeps_files_emit|intros _; apply keeps_files_refresh]. }
  intros _. apply keeps_files_bind; [apply keeps_files_state|]. intros st.
  apply keeps_files_bind; [apply keeps_files_call|]. intros response.
  apply keeps_files_lift.
Qed.

Lemma agent_transcript_keeps_files e segs :
  keeps_files (AgentScraper.analyze_transcript_data e segs).
Proof.
  unfold AgentScraper.analyze_transcript_data.
  apply keeps_files_bind; [apply keeps_files_lift|]. intros full_text.
  apply keeps_files_bind; [apply keeps_files_call|].
  intros. apply keeps_files_lift.
Qed.

Lemma agent_plan_b_footprint e url fuel w a w' :
  try_except
    (audio_file ← Script.download_audio e url;
     present ← Script.downloaded audio_file;
     match audio_file, present with
     | Some path, true =>
         analysis ← AgentScraper.analyze_audio e path fuel;
         _ ← os_remove path;
         mret (Some analysis)
     | _, _ => mret None
     end)
    (fun _ => mret None) w = Some (Ok (Some a), w') ->
  files w' ⊆ files w /\ files w ∖ {["audio.mp3"%string]} ⊆ files w'.
Proof.
  intros H.
  unfold Script.download_audio, ydl_download, Script.downloaded,
    path_exists, create_file, os_remove in H.
  unfold_monad_in H.
  destruct (download e url "audio.mp3") as [[|]|ex] eqn:Ed;
    cbn [files trace polls audio_file audio_file_path] in H;
    try change (String.eqb "audio.mp3" "") with false in H;
    cbn [files trace polls audio_file audio_file_path] in H.
  - rewrite (bool_decide_eq_true_2 ("audio.mp3"%string ∈ {["audio.mp3"%string]} ∪ files w))
      in H by set_tauto.
    cbv beta iota in H.
    match type of H with
    | context [AgentScraper.analyze_audio e ?p fuel ?w0] =>
        destruct (AgentScraper.analyze_audio e p fuel w0)
          as [[[a'|ex] w2]|] eqn:Ea; [| |discriminate];
        apply agent_audio_keeps_files in Ea as [Ef _]; cbn in Ef
    end; [|discriminate].
    rewrite Ef in H.
    rewrite bool_decide_eq_true_2 in H by set_tauto.
    inversion H; subst; clear H. cbn. rewrite ?Ef. split; set_tauto.
  - destruct (bool_decide ("audio.mp3"%string ∈ files w)) eqn:Eb;
      [|discriminate].
    apply bool_decide_eq_true_1 in Eb. cbv beta iota in H.
    match type of H with
    | context [AgentScraper.analyze_audio e ?p fuel ?w0] =>
        destruct (AgentScraper.analyze_audio e p fuel w0)
          as [[[a'|ex] w2]|] eqn:Ea; [| |discriminate];
        apply agent_audio_keeps_files in Ea as [Ef _]; cbn in Ef
    end; [|discriminate].
    rewrite Ef in H.
    rewrite bool_decide_eq_true_2 in H by exact Eb.
    inversion H; subst; clear H. cbn. rewrite ?Ef. split; set_tauto.
  - discriminate.
Qed.

(** X27: [run_agent] of [agent_scraper.py] cleans up when it succeeds: a
    run that returns an analysis has left no file that was not there
    before, and has removed no file other than [audio.mp3]; the audio is
    left behind only by a run that returns [None]. *)
Theorem agent_scraper_success_cleans_up e url fuel w a w' :
  AgentScraper.run_agent e url fuel w = Some (Ok (Some a), w') ->
  files w' ⊆ files w /\ files w ∖ {["audio.mp3"%string]} ⊆ files w'.
Proof.
  intros H. unfold AgentScraper.run_agent in H.
  unfold mbind at 1, M_bind at 1, lift at 1 in H.
  destruct (Script.get_video_id url) as [[[|c vid]|]|ex]; try discriminate.
  unfold mbind at 1, M_bind at 1 in H.
  match type of H with
  | match ?pa w with _ => _ end = _ =>
      assert (Ha : keeps_files pa);
      [|destruct (pa w) as [[[res|ex] w1]|] eqn:E;
        [apply Ha in E as [Ef Ep]|discriminate|discriminate]]
  end.
  { apply keeps_files_try; [|intros; apply keeps_files_ret].
    apply keeps_files_bind; [apply keeps_files_call|]. intros segs.
    apply keeps_files_bind; [apply agent_transcript_keeps_files|]. intros.
    apply keeps_files_ret. }
  destruct res.
  - inversion H; subst. rewrite Ef. split; set_tauto.
  - apply agent_plan_b_footprint in H. rewrite Ef in H. exact H.
Qed.

Lemma agent_scraper_success_cleans_up_witness :
  exists a w',
    AgentScraper.run_agent audio_only_env sample_url 1 (init ∅)
      = Some (Ok (Some a), w') /\
    In (DownloadAudio sample_url "audio.mp3") (trace w') /\
    files w' ⊆ files (init ∅) /\
    files (init ∅) ∖ {["audio.mp3"%string]} ⊆ files w'.
Proof.
  eexists _, _. split; [vm_compute; reflexivity|].
  split; [vm_compute; auto|].
  eapply (agent_scraper_success_cleans_up audio_only_env sample_url 1
            (init ∅)).
  vm_compute. reflexivity.
Defined.
